(** * Function executor: variable resolution, execution policy and result
      assembly of [executeFunction]

    A shallow embedding of the function executor
    ([lib/execution/function-executor]): the three resolver passes, the
    policy checks, the script wrapper, the console shim and the result
    envelope, followed by the properties stated for them.

    Conventions of the embedding.
    - A JavaScript string is the sequence of its code units; the embedding
      covers code units below 256 (one [ascii] each), so the white space class
      is TAB, LF, VT, FF, CR, SP and NBSP and the line terminators are LF and
      CR.
    - A JavaScript object used as a record is a finite map from keys to
      values, read through [record_get], which falls back on what the object
      inherits; [workflowVariables] is kept as the list of its entries in
      [Object.entries] order, since the code searches it in that order, and
      each entry is an object with the fields [name], [type] and [value]
      (an entry that is [null] or [undefined], on which reading [name]
      throws, is outside the embedding).
    - Values are plain data: reading a property twice gives the same value,
      so an object whose [message] is an accessor is outside the embedding;
      and the engine's fault for reading a property of [null] and of
      [undefined] is one fault with one message.
    - A function that may throw returns a [Completion]; the mutable bindings
      object of the resolver is threaded through the passes.
    - What the host platform provides (number parsing and printing,
      [JSON.parse], [JSON.stringify], inherited properties, the [vm] module,
      the clock) is the interface [Runtime]; the executor is written against
      it, and a property that depends on what a script does states it as a
      hypothesis on the runtime. For a fragment of JavaScript what a script
      does is computed by [Engine.run].
    - [executeFunction] returns, next to what its caller observes, the list
      of the components it set to work, so that what has not run can be
      stated.
    - Calls to the logger are not part of the embedding. *)

From Stdlib Require Import ZArith String Ascii List Bool Lia Floats.SpecFloat.
From stdpp Require Import base option gmap strings list.
Import ListNotations.

Local Open Scope string_scope.
Local Open Scope bool_scope.

(** ** Strings *)

Module Str.

Definition code_unit (c : ascii) : nat := nat_of_ascii c.

Definition in_range (lo hi : nat) (c : ascii) : bool :=
  (lo <=? code_unit c)%nat && (code_unit c <=? hi)%nat.

Definition is_lower (c : ascii) : bool := in_range 97 122 c.
Definition is_upper (c : ascii) : bool := in_range 65 90 c.
Definition is_digit (c : ascii) : bool := in_range 48 57 c.

(** The class [[a-zA-Z0-9_]]. *)
Definition is_word (c : ascii) : bool :=
  is_lower c || is_upper c || is_digit c || Ascii.eqb c "_".

(** The class [[a-zA-Z_]]. *)
Definition is_ident_start (c : ascii) : bool :=
  is_lower c || is_upper c || Ascii.eqb c "_".

(** The class [[a-zA-Z0-9_.]]. *)
Definition is_path_char (c : ascii) : bool := is_word c || Ascii.eqb c ".".

(** The class [\s], which is also what [trim] strips. *)
Definition is_space (c : ascii) : bool :=
  in_range 9 13 c || (code_unit c =? 32)%nat || (code_unit c =? 160)%nat.

(** Where [^] matches under the [m] flag: after LF or CR. *)
Definition is_line_terminator (c : ascii) : bool :=
  (code_unit c =? 10)%nat || (code_unit c =? 13)%nat.

Definition is_quote (c : ascii) : bool :=
  (code_unit c =? 39)%nat || (code_unit c =? 34)%nat || (code_unit c =? 96)%nat.

Fixpoint startsWith (s p : string) {struct p} : bool :=
  match p with
  | EmptyString => true
  | String a p' =>
      match s with
      | EmptyString => false
      | String b s' => Ascii.eqb a b && startsWith s' p'
      end
  end.

Fixpoint drop (n : nat) (s : string) : string :=
  match n, s with
  | O, _ => s
  | S _, EmptyString => EmptyString
  | S k, String _ s' => drop k s'
  end.

Fixpoint take (n : nat) (s : string) : string :=
  match n, s with
  | O, _ => EmptyString
  | S _, EmptyString => EmptyString
  | S k, String c s' => String c (take k s')
  end.

(** [s.slice(start, -fromEnd)] for the non-negative [start] and the
    negative end index the code uses. *)
Definition slice (start fromEnd : nat) (s : string) : string :=
  take (String.length s - fromEnd - start) (drop start s).

(** The longest prefix of [s] made of characters of the class [p], and what
    follows it. *)
Fixpoint span (p : ascii -> bool) (s : string) : string * string :=
  match s with
  | EmptyString => (EmptyString, EmptyString)
  | String c s' =>
      if p c then let '(a, b) := span p s' in (String c a, b)
      else (EmptyString, s)
  end.

Fixpoint dropWhile (p : ascii -> bool) (s : string) : string :=
  match s with
  | EmptyString => EmptyString
  | String c s' => if p c then dropWhile p s' else s
  end.

Definition trimStart (s : string) : string := dropWhile is_space s.

Fixpoint trimEnd (s : string) : string :=
  match s with
  | EmptyString => EmptyString
  | String c s' =>
      match trimEnd s' with
      | EmptyString => if is_space c then EmptyString else String c EmptyString
      | String d t => String c (String d t)
      end
  end.

Definition trim (s : string) : string := trimEnd (trimStart s).

Fixpoint filter (p : ascii -> bool) (s : string) : string :=
  match s with
  | EmptyString => EmptyString
  | String c s' => if p c then String c (filter p s') else filter p s'
  end.

Fixpoint map (f : ascii -> ascii) (s : string) : string :=
  match s with
  | EmptyString => EmptyString
  | String c s' => String (f c) (map f s')
  end.

Fixpoint forallb (p : ascii -> bool) (s : string) : bool :=
  match s with
  | EmptyString => true
  | String c s' => p c && forallb p s'
  end.

Fixpoint last (s : string) : option ascii :=
  match s with
  | EmptyString => None
  | String c EmptyString => Some c
  | String _ s' => last s'
  end.

(** [s.replace(/\s+/g, '')]. *)
Definition stripSpaces (s : string) : string := filter (fun c => negb (is_space c)) s.

(** [s.replace(/[^a-zA-Z0-9_]/g, '_')]. *)
Definition sanitize (s : string) : string :=
  map (fun c => if is_word c then c else "_"%char) s.

Definition lower_char (c : ascii) : ascii :=
  if is_upper c || in_range 192 214 c || in_range 216 222 c
  then ascii_of_nat (code_unit c + 32) else c.

Definition toLowerCase (s : string) : string := map lower_char s.

Fixpoint includes_char (c : ascii) (s : string) : bool :=
  match s with
  | EmptyString => false
  | String d s' => Ascii.eqb c d || includes_char c s'
  end.

(** [s.split(sep)] for a one-character separator: never empty. *)
Fixpoint split (sep : ascii) (s : string) : list string :=
  match s with
  | EmptyString => [EmptyString]
  | String c s' =>
      if Ascii.eqb c sep then EmptyString :: split sep s'
      else match split sep s' with
           | [] => [String c EmptyString]
           | w :: ws => String c w :: ws
           end
  end.

Fixpoint join (sep : string) (l : list string) : string :=
  match l with
  | [] => EmptyString
  | [w] => w
  | w :: ws => w +:+ sep +:+ join sep ws
  end.

Definition endsWith_char (s : string) (c : ascii) : bool :=
  match last s with
  | Some d => Ascii.eqb c d
  | None => false
  end.

Definition dropLast (s : string) : string := take (String.length s - 1) s.

End Str.

(** ** The regular expressions of the executor

    Each regular expression of the source is embedded as the function that
    tells what it matches when anchored at the start of its argument; the
    quantified classes are followed by a character outside the class, so the
    greedy match is the only one. *)

Module Regex.

(** What a regular expression matches at the start of a string: the
    matched text, if any. *)
Definition anchored := string -> option string.

(** [str.match(rx)] for a [g] regular expression without empty matches:
    the matched texts, left to right, the search resuming after each
    match ([skip] characters are still covered by the last match). *)
Fixpoint match_from (rx : anchored) (skip : nat) (s : string) : list string :=
  match s with
  | EmptyString => []
  | String _ s' =>
      match skip with
      | S k => match_from rx k s'
      | O =>
          match rx s with
          | Some m => m :: match_from rx (String.length m - 1) s'
          | None => match_from rx 0 s'
          end
      end
  end.

(** [str.match(rx) || []]. *)
Definition match_all (rx : anchored) (s : string) : list string := match_from rx 0 s.

(** [rx.test(str)] for a regular expression without the [g] flag. *)
Fixpoint test (rx : anchored) (s : string) : bool :=
  match rx s with
  | Some _ => true
  | None =>
      match s with
      | EmptyString => false
      | String _ s' => test rx s'
      end
  end.

(** [/<variable\.([^>]+)>/] *)
Definition variable_ref : anchored := fun s =>
  if Str.startsWith s "<variable." then
    match Str.span (fun c => negb (Ascii.eqb c ">")) (Str.drop 10 s) with
    | (String c name, String ">" _) => Some ("<variable." +:+ String c name +:+ ">")
    | _ => None
    end
  else None.

(** [/\{\{([^}]+)\}\}/] *)
Definition template_ref : anchored := fun s =>
  if Str.startsWith s "{{" then
    match Str.span (fun c => negb (Ascii.eqb c "}")) (Str.drop 2 s) with
    | (String c name, String "}" (String "}" _)) => Some ("{{" +:+ String c name +:+ "}}")
    | _ => None
    end
  else None.

(** [/<([a-zA-Z_][a-zA-Z0-9_.]*[a-zA-Z0-9_])>/]: the run of path characters
    after the first one ends with the character the last class takes. *)
Definition tag_ref : anchored := fun s =>
  match s with
  | String "<" (String c0 s') =>
      if Str.is_ident_start c0 then
        match Str.span Str.is_path_char s' with
        | (String c run, String ">" _) =>
            match Str.last (String c run) with
            | Some cl =>
                if Str.is_word cl
                then Some ("<" +:+ String c0 (String c run) +:+ ">")
                else None
            | None => None
            end
        | _ => None
        end
      else None
  | _ => None
  end.

End Regex.

(** ** Values *)

#[local] Unset Elimination Schemes.

(** JavaScript values as the executor meets them: JSON-like data, the
    functions that only inherited properties can yield ([JFun], opaque), and
    error objects ([JErr name message]). Numbers are binary64 floats. *)
Inductive JSValue : Type :=
  | JUndefined
  | JNull
  | JBool (b : bool)
  | JNum (x : spec_float)
  | JStr (s : string)
  | JArr (items : list JSValue)
  | JObj (props : gmap string JSValue)
  | JFun (id : string)
  | JErr (name message : string).

#[local] Set Elimination Schemes.

(** A record of the request: the own properties of a plain object. *)
Abbreviation JSRecord := (gmap string JSValue).

Definition num_of_nat (n : nat) : spec_float :=
  binary_normalize 53 1024 (Z.of_nat n) 0 false.

(** Truthiness, as [if], [!], [&&] and [||] see a value. *)
Definition truthy (v : JSValue) : bool :=
  match v with
  | JUndefined | JNull => false
  | JBool b => b
  | JNum (S754_zero _) | JNum S754_nan => false
  | JNum _ => true
  | JStr s => negb (String.eqb s "")
  | JArr _ | JObj _ | JFun _ | JErr _ _ => true
  end.

(** [a || b] *)
Definition js_or (a b : JSValue) : JSValue := if truthy a then a else b.

(** [typeof v === 'object'] *)
Definition typeof_object (v : JSValue) : bool :=
  match v with
  | JNull | JArr _ | JObj _ | JErr _ _ => true
  | _ => false
  end.

(** [v === 'lit'] for a string literal. *)
Definition is_str (v : JSValue) (lit : string) : bool :=
  match v with
  | JStr s => String.eqb s lit
  | _ => false
  end.

Definition is_undefined (v : JSValue) : bool :=
  match v with JUndefined => true | _ => false end.

Definition is_null (v : JSValue) : bool :=
  match v with JNull => true | _ => false end.

(** Faults the engine itself raises as a [TypeError]. *)
Inductive EngineFault := NotAFunction | ReadOfNullish.

(** Calls of the console shim made by a running script. *)
Inductive ConsoleMethod := Log | Error | Warn.

Record ConsoleCall := { method : ConsoleMethod; args : list JSValue }.

(** How the awaited run of a script ends. *)
Inductive Settled := Fulfilled (v : JSValue) | Rejected (e : JSValue).

(** What running a script did, as far as the executor can observe it: the
    console calls made until the awaited promise settled, and how it
    settled (a timeout is a rejection raised by the [vm] module). *)
Record Run := { calls : list ConsoleCall; settled : Settled }.

(** The object handed to [createContext]: the allow-listed globals and the
    resolver's bindings spread over them. *)
Record Context := { capabilities : list string; bindings : JSRecord }.

(** What the host platform provides. *)
Class Runtime := {
  (** [Number(s)] on a string *)
  StringToNumber : string -> spec_float;
  (** [Number(o)] on an object, an array or a function *)
  ObjectToNumber : JSValue -> spec_float;
  (** [String(x)] on a number *)
  NumberToString : spec_float -> string;
  (** [String(o)] on an object, an array or a function *)
  ObjectToString : JSValue -> string;
  (** [JSON.parse(s)]; [None] when it throws *)
  JSON_parse : string -> option JSValue;
  (** [JSON.stringify(v, null, 2)] on a value whose [typeof] is ['object'] *)
  JSON_stringify : JSValue -> string;
  (** [o[key]] when [key] is not an own data property of [o] *)
  inherited : JSValue -> string -> JSValue;
  (** the message of the [TypeError] raised for a fault *)
  engine_message : EngineFault -> string;
  (** [new Script(source, ...)]: [Some e] when compilation throws [e] *)
  Script_new : string -> option JSValue;
  (** [await script.runInContext(context, { timeout, ... })] *)
  runInContext : string -> Context -> Z -> Run;
  (** the successive readings of [Date.now()] within one invocation *)
  Date_now : nat -> Z
}.

(** Deployment configuration read by the executor. *)
Record Config := {
  (** [env.E2B_ENABLED] *)
  E2B_ENABLED : option string;
  (** [DEFAULT_EXECUTION_TIMEOUT_MS], declared in [lib/execution/constants] *)
  DEFAULT_EXECUTION_TIMEOUT_MS : Z
}.

(** Abrupt and normal completion of a computation that may throw. *)
Inductive Completion (A : Type) : Type :=
  | Normal (a : A)
  | Throw (e : JSValue).

Arguments Normal {A} a.
Arguments Throw {A} e.

#[global] Instance Completion_ret : MRet Completion := @Normal.

#[global] Instance Completion_bind : MBind Completion := fun A B k c =>
  match c with
  | Normal a => k a
  | Throw e => Throw e
  end.

(** [for (const item of items) body], threading the variables the body
    assigns. *)
Fixpoint for_of {S : Type} (body : string -> S -> Completion S)
    (items : list string) (st : S) : Completion S :=
  match items with
  | [] => Normal st
  | item :: rest => st' ← body item st; for_of body rest st'
  end.

(** ** Languages

    [lib/execution/languages] is not among the sources; what the executor
    imports from it is modelled from the specification's data model (the
    language of a request is one of JavaScript and Python, JavaScript when
    omitted) and from the tool's parameter description, which names the two
    languages ['javascript'] and ['python']. *)

Module CodeLanguage.
(** Modelled from the spec: the member [CodeLanguage.JavaScript] of the enum
    declared in [lib/execution/languages]. *)
Definition JavaScript : string := "javascript".
(** Modelled from the spec: the member [CodeLanguage.Python] of the enum
    declared in [lib/execution/languages]. *)
Definition Python : string := "python".
End CodeLanguage.

(** Modelled from the spec: [DEFAULT_CODE_LANGUAGE], declared in
    [lib/execution/languages]; an omitted language defaults to JavaScript. *)
Definition DEFAULT_CODE_LANGUAGE : string := CodeLanguage.JavaScript.

(** Modelled from the spec: [isValidCodeLanguage], declared in
    [lib/execution/languages]; the language is one of the enum's two. *)
Definition isValidCodeLanguage (language : string) : bool :=
  String.eqb language CodeLanguage.JavaScript || String.eqb language CodeLanguage.Python.

(** ** Request and result *)

Module WorkflowVariable.
(** An entry of [workflowVariables]; a field the entry lacks is
    [JUndefined]. *)
Record t := { name : JSValue; type : JSValue; value : JSValue }.
End WorkflowVariable.

Module Input.
(** [FunctionExecutionInput]; [None] is an omitted optional field. *)
Record t := {
  code : string;
  params : option JSRecord;
  timeout : option Z;
  language : option string;
  envVars : option JSRecord;
  blockData : option JSRecord;
  blockNameMapping : option JSRecord;
  workflowVariables : option (list (string * WorkflowVariable.t));
  workflowId : option string;
  isCustomTool : option bool
}.
End Input.

Module Output.
Record body := { result : JSValue; stdout : string; executionTime : Z }.
(** [FunctionExecutionOutput] *)
Record t := { success : bool; output : body; error : option JSValue }.
End Output.

(** What the caller of [executeFunction] observes: the promise resolves to an
    envelope, or it rejects. *)
Inductive Outcome :=
  | Returned (out : Output.t)
  | Threw (e : JSValue).

(** The components an invocation sets to work, in order. *)
Inductive Event :=
  | ResolverInvoked
  | ContextCreated
  | ScriptCompiled
  | ScriptRun.

(** ** The executor *)

Definition LF : string := String (ascii_of_nat 10) EmptyString.

(** [isTruthy]: whether the E2B setting is switched on. *)
Definition isTruthy (value : option string) : bool :=
  match value with
  | Some v => String.eqb v "true" || String.eqb v "1"
  | None => false
  end.

(** The characters of [[.*+?^${}()|[\]\\]], which are the syntax characters
    of a pattern. *)
Definition is_syntax_char (c : ascii) : bool :=
  Str.includes_char c ".*+?^${}()|[]\".

(** [escapeRegExp]: [string.replace(/[.*+?^${}()|[\]\\]/g, '\\$&')]. *)
Fixpoint escapeRegExp (s : string) : string :=
  match s with
  | EmptyString => EmptyString
  | String c s' =>
      if is_syntax_char c then String "\" (String c (escapeRegExp s'))
      else String c (escapeRegExp s')
  end.

(** The text a pattern source stands for when it is made of plain characters
    and escaped syntax characters only; [None] for any other source. *)
Fixpoint literal_of_source (source : string) : option string :=
  match source with
  | EmptyString => Some EmptyString
  | String c rest =>
      if Ascii.eqb c "\" then
        match rest with
        | String d rest' =>
            if is_syntax_char d then String d <$> literal_of_source rest' else None
        | EmptyString => None
        end
      else if is_syntax_char c then None
      else String c <$> literal_of_source rest
  end.

(** Replacing, left to right, every occurrence of the non-empty text [pat]
    by [rep]; the search resumes after each occurrence. *)
Fixpoint replace_from (pat rep : string) (skip : nat) (s : string) : string :=
  match s with
  | EmptyString => EmptyString
  | String c s' =>
      match skip with
      | S k => replace_from pat rep k s'
      | O =>
          if Str.startsWith s pat
          then rep +:+ replace_from pat rep (String.length pat - 1) s'
          else String c (replace_from pat rep 0 s')
      end
  end.

Definition replaceAll (pat rep s : string) : string := replace_from pat rep 0 s.

(** [s.replace(new RegExp(source, 'g'), rep)] for the sources the executor
    builds, which stand for a text, and for a replacement without [$]. *)
Definition replace_RegExp_g (source rep s : string) : string :=
  match literal_of_source source with
  | Some pat => replaceAll pat rep s
  | None => s
  end.

(** [cleanStdout]: remove one trailing newline from stdout. *)
Definition cleanStdout (stdout : string) : string :=
  if Str.endsWith_char stdout (ascii_of_nat 10) then Str.dropLast stdout else stdout.

(** [/^import\s+/m], anchored at a position: [at_line_start] tells whether
    [^] matches there. *)
Definition import_at (at_line_start : bool) (s : string) : bool :=
  at_line_start && Str.startsWith s "import" &&
  match Str.drop 6 s with
  | String c _ => Str.is_space c
  | EmptyString => false
  end.

(** [/^import\s+/m.test(s)] *)
Fixpoint test_import_from (at_line_start : bool) (s : string) : bool :=
  import_at at_line_start s ||
  match s with
  | EmptyString => false
  | String c s' => test_import_from (Str.is_line_terminator c) s'
  end.

Definition test_import (s : string) : bool := test_import_from true s.

(** [/require\s*\(\s*[q]/], where the class [q] holds the three quote
    characters of JavaScript: single, double and backtick. *)
Definition require_call : Regex.anchored := fun s =>
  if Str.startsWith s "require" then
    let '(ws1, s1) := Str.span Str.is_space (Str.drop 7 s) in
    match s1 with
    | String "(" s2 =>
        let '(ws2, s3) := Str.span Str.is_space s2 in
        match s3 with
        | String q _ =>
            if Str.is_quote q
            then Some ("require" +:+ ws1 +:+ "(" +:+ ws2 +:+ String q "")
            else None
        | EmptyString => None
        end
    | _ => None
    end
  else None.

Definition test_require (s : string) : bool := Regex.test require_call s.

(** The index an array key denotes, if it is one: a decimal numeral without
    leading zeros. *)
Fixpoint digits_value (acc : nat) (s : string) : option nat :=
  match s with
  | EmptyString => Some acc
  | String c s' =>
      if Str.is_digit c then digits_value (10 * acc + (Str.code_unit c - 48)) s'
      else None
  end.

Definition array_index (key : string) : option nat :=
  match key with
  | EmptyString => None
  | String "0" EmptyString => Some 0%nat
  | String "0" _ => None
  | _ => digits_value 0 key
  end.

(** The allow-listed globals of the execution context, in the order of the
    source. *)
Definition capabilityNames : list string :=
  [ "console"; "fetch"; "URL"; "URLSearchParams"; "Headers"; "Request"; "Response";
    "FormData"; "Blob"; "TextEncoder"; "TextDecoder"; "AbortController";
    "AbortSignal"; "atob"; "btoa"; "Buffer"; "setTimeout"; "clearTimeout"; "JSON";
    "Object"; "Array"; "String"; "Number"; "Boolean"; "Date"; "Math"; "RegExp";
    "Error"; "Promise"; "Map"; "Set"; "parseInt"; "parseFloat"; "isNaN"; "isFinite";
    "encodeURIComponent"; "decodeURIComponent"; "encodeURI"; "decodeURI" ].

Definition PYTHON_REQUIRES_E2B : string :=
  "Python execution requires E2B to be enabled. Please contact your administrator to enable E2B, or use JavaScript instead.".

Definition IMPORTS_REQUIRE_E2B : string :=
  "JavaScript code with import statements requires E2B to be enabled. Please remove the import statements, or contact your administrator to enable E2B.".

Definition USE_HTTP_ROUTE : string := "__USE_HTTP_ROUTE__".

(** The lines of the wrapper before and after the user code. *)
Definition wrapperLines : list string :=
  [ ";(async () => {"; "  try {"; "    return await (async () => {" ].

Definition wrapperTail : list string :=
  [ "    })();"; "  } catch (error) {"; "    console.error(error);";
    "    throw error;"; "  }"; "})()" ].

Definition indentedCode (resolvedCode : string) : string :=
  Str.join LF (List.map (fun line => "      " +:+ line) (Str.split (ascii_of_nat 10) resolvedCode)).

Definition fullScript (resolvedCode : string) : string :=
  Str.join LF (wrapperLines ++ [indentedCode resolvedCode] ++ wrapperTail).

Section Executor.

Context `{RT : Runtime}.

(** [new TypeError(...)] as the engine raises it. *)
Definition TypeError (fault : EngineFault) : JSValue :=
  JErr "TypeError" (engine_message fault).

(** [new Error(message)] *)
Definition new_Error (message : string) : JSValue := JErr "Error" message.

(** [Number(v)] *)
Definition Number (v : JSValue) : spec_float :=
  match v with
  | JUndefined => S754_nan
  | JNull => S754_zero false
  | JBool true => num_of_nat 1
  | JBool false => S754_zero false
  | JNum x => x
  | JStr s => StringToNumber s
  | JArr _ | JObj _ | JFun _ | JErr _ _ => ObjectToNumber v
  end.

(** [String(v)] *)
Definition String_ (v : JSValue) : string :=
  match v with
  | JUndefined => "undefined"
  | JNull => "null"
  | JBool true => "true"
  | JBool false => "false"
  | JNum x => NumberToString x
  | JStr s => s
  | JArr _ | JObj _ | JFun _ | JErr _ _ => ObjectToString v
  end.

(** [o[key]] on a record of the request. *)
Definition record_get (o : JSRecord) (key : string) : JSValue :=
  match o !! key with
  | Some v => v
  | None => inherited (JObj o) key
  end.

(** [o[key]] on a truthy value whose [typeof] is ['object']. *)
Definition get (o : JSValue) (key : string) : JSValue :=
  match o with
  | JObj props => record_get props key
  | JArr items =>
      match array_index key with
      | Some i =>
          match items !! i with
          | Some v => v
          | None => inherited o key
          end
      | None =>
          if String.eqb key "length" then JNum (num_of_nat (length items))
          else inherited o key
      end
  | JErr name message =>
      if String.eqb key "message" then JStr message
      else if String.eqb key "name" then JStr name
      else inherited o key
  | _ => inherited o key
  end.

(** [e.message] on a caught value: reading a property of [null] or
    [undefined] throws. The message is plain data, so every read of it gives
    this value; and the faults for [null] and for [undefined], whose
    messages differ in that one word, are one fault with one message. *)
Definition message_of (e : JSValue) : Completion JSValue :=
  match e with
  | JUndefined | JNull => Throw (TypeError ReadOfNullish)
  | _ => Normal (get e "message")
  end.

(** The key a value used as a property name denotes. *)
Definition ToPropertyKey (v : JSValue) : string :=
  match v with
  | JStr s => s
  | _ => String_ v
  end.

(** [getNestedValue]: get nested value from object using dot notation
    path. *)
Definition getNestedValue (obj : JSValue) (path : string) : JSValue :=
  if negb (truthy obj) || String.eqb path "" then JUndefined
  else
    fold_left
      (fun current key =>
         if truthy current && typeof_object current then get current key
         else JUndefined)
      (Str.split "." path) obj.

(** *** Pass 1: workflow variables, [<variable.name>] *)

(** The test [find] applies to an entry:
    [(variable.name || '').replace(/\s+/g, '') === variableName]. A truthy
    name that is not a string has no [replace] to call. The entry is an
    object; on an entry that is [null] or [undefined] the read of [name]
    itself throws, which the type of the entries leaves out. *)
Definition nameMatches (variableName : string) (variable : WorkflowVariable.t)
    : Completion bool :=
  match js_or (WorkflowVariable.name variable) (JStr "") with
  | JStr s => Normal (String.eqb (Str.stripSpaces s) variableName)
  | _ => Throw (TypeError NotAFunction)
  end.

(** [Object.entries(workflowVariables).find(...)] *)
Fixpoint find_entry (variableName : string)
    (entries : list (string * WorkflowVariable.t))
    : Completion (option (string * WorkflowVariable.t)) :=
  match entries with
  | [] => Normal None
  | entry :: rest =>
      hit ← nameMatches variableName (snd entry);
      if (hit : bool) then Normal (Some entry) else find_entry variableName rest
  end.

(** The value bound for a found variable: coerced by the declared type,
    unless it is [undefined] or [null]. None of the coercions throws on the
    values of the embedding, so the handler of the outer [try] is not
    reached. *)
Definition coerced (variable : WorkflowVariable.t) : JSValue :=
  let variableValue := WorkflowVariable.value variable in
  if negb (is_undefined variableValue) && negb (is_null variableValue) then
    let type :=
      if is_str (WorkflowVariable.type variable) "string" then JStr "plain"
      else WorkflowVariable.type variable in
    if is_str type "plain" && (match variableValue with JStr _ => true | _ => false end)
    then variableValue
    else if is_str type "number" then JNum (Number variableValue)
    else if is_str type "boolean" then
      JBool (is_str variableValue "true" ||
             match variableValue with JBool true => true | _ => false end)
    else if is_str type "json" then
      match variableValue with
      | JStr s =>
          match JSON_parse s with
          | Some parsed => parsed
          | None => variableValue
          end
      | _ => variableValue
      end
    else variableValue
  else variableValue.

(** The body of the loop over the matches. *)
Definition workflowStep (workflowVariables : list (string * WorkflowVariable.t))
    (match_ : string) (st : string * JSRecord) : Completion (string * JSRecord) :=
  let '(resolvedCode, contextVariables) := st in
  let variableName := Str.trim (Str.slice (String.length "<variable.") 1 match_) in
  foundVariable ← find_entry variableName workflowVariables;
  match foundVariable with
  | Some (_, variable) =>
      let variableValue := coerced variable in
      let safeVarName := "__variable_" +:+ Str.sanitize variableName in
      Normal (replace_RegExp_g (escapeRegExp match_) safeVarName resolvedCode,
              <[safeVarName := variableValue]> contextVariables)
  | None =>
      Normal (replace_RegExp_g (escapeRegExp match_) "" resolvedCode, contextVariables)
  end.

(** [resolveWorkflowVariables]: resolves workflow variables with
    [<variable.name>] syntax. The bindings object is updated in place; it
    is threaded here. *)
Definition resolveWorkflowVariables (code : string)
    (workflowVariables : list (string * WorkflowVariable.t))
    (contextVariables : JSRecord) : Completion (string * JSRecord) :=
  for_of (workflowStep workflowVariables)
         (Regex.match_all Regex.variable_ref code) (code, contextVariables).

(** *** Pass 2: environment variables, [{{var_name}}] *)

Definition environmentStep (params envVars : JSRecord)
    (st : string * JSRecord) (match_ : string) : string * JSRecord :=
  let '(resolvedCode, contextVariables) := st in
  let varName := Str.trim (Str.slice 2 2 match_) in
  let varValue :=
    js_or (js_or (record_get envVars varName) (record_get params varName)) (JStr "") in
  let safeVarName := "__var_" +:+ Str.sanitize varName in
  (replace_RegExp_g (escapeRegExp match_) safeVarName resolvedCode,
   <[safeVarName := varValue]> contextVariables).

(** [resolveEnvironmentVariables]: resolves environment variables with
    [{{var_name}}] syntax. *)
Definition resolveEnvironmentVariables (code : string) (params envVars : JSRecord)
    (contextVariables : JSRecord) : string * JSRecord :=
  fold_left (environmentStep params envVars)
            (Regex.match_all Regex.template_ref code) (code, contextVariables).

(** *** Pass 3: tags, [<tag_name>] *)

(** The value a tag name resolves to. *)
Definition tagValueOf (params blockData blockNameMapping : JSRecord)
    (tagName : string) : JSValue :=
  let tagValue :=
    js_or (js_or (getNestedValue (JObj params) tagName)
                 (getNestedValue (JObj blockData) tagName)) (JStr "") in
  if negb (truthy tagValue) && Str.includes_char "." tagName then
    let parts := Str.split "." tagName in
    let blockName := hd EmptyString parts in
    let path := Str.join "." (tl parts) in
    let blockId := record_get blockNameMapping (Str.toLowerCase blockName) in
    if truthy blockId
    then getNestedValue (record_get blockData (ToPropertyKey blockId)) path
    else tagValue
  else tagValue.

Definition tagStep (params blockData blockNameMapping : JSRecord)
    (st : string * JSRecord) (match_ : string) : string * JSRecord :=
  let '(resolvedCode, contextVariables) := st in
  let tagName := Str.trim (Str.slice 1 1 match_) in
  let tagValue := tagValueOf params blockData blockNameMapping tagName in
  if negb (is_undefined tagValue) && negb (is_str tagValue "") then
    let safeVarName := "__tag_" +:+ Str.sanitize tagName in
    (replace_RegExp_g (escapeRegExp match_) safeVarName resolvedCode,
     <[safeVarName := tagValue]> contextVariables)
  else (resolvedCode, contextVariables).

(** [resolveTagVariables]: resolves tags with [<tag_name>] syntax
    (including nested paths). *)
Definition resolveTagVariables (code : string)
    (params blockData blockNameMapping : JSRecord)
    (contextVariables : JSRecord) : string * JSRecord :=
  fold_left (tagStep params blockData blockNameMapping)
            (Regex.match_all Regex.tag_ref code) (code, contextVariables).

(** [resolveCodeVariables]: resolves all variable types in code. *)
Definition resolveCodeVariables (code : string)
    (params envVars blockData blockNameMapping : JSRecord)
    (workflowVariables : list (string * WorkflowVariable.t))
    : Completion (string * JSRecord) :=
  let contextVariables : JSRecord := ∅ in
  '(resolvedCode, contextVariables) ←
    resolveWorkflowVariables code workflowVariables contextVariables;
  let '(resolvedCode, contextVariables) :=
    resolveEnvironmentVariables resolvedCode params envVars contextVariables in
  let '(resolvedCode, contextVariables) :=
    resolveTagVariables resolvedCode params blockData blockNameMapping
                        contextVariables in
  Normal (resolvedCode, contextVariables).

(** *** The console shim *)

Definition format_arg (arg : JSValue) : string :=
  if typeof_object arg then JSON_stringify arg else String_ arg.

Definition console_output (args : list JSValue) : string :=
  Str.join " " (List.map format_arg args).

(** One call of [console.log], [console.error] or [console.warn]: what it
    appends to [stdout]. *)
Definition console (stdout : string) (call : ConsoleCall) : string :=
  match method call with
  | Log => stdout +:+ console_output (args call) +:+ LF
  | Error => stdout +:+ "[ERROR] " +:+ console_output (args call) +:+ LF
  | Warn => stdout +:+ "[WARN] " +:+ console_output (args call) +:+ LF
  end.

(** *** [executeFunction] *)

(** The [try] block: the components it set to work, the [stdout] captured
    when it finished, and how it finished. *)
Record Attempt := {
  events : list Event;
  captured : string;
  completion : Completion JSValue
}.

(** The body of the [try] block. The request id, the calls to the logger and
    the test [typeof resolvedCode !== 'string'], which a resolution that
    returns never meets, leave no trace in it. *)
Definition try_block (cfg : Config) (input : Input.t) : Attempt :=
  let code := Input.code input in
  let params := default ∅ (Input.params input) in
  let timeout := default (DEFAULT_EXECUTION_TIMEOUT_MS cfg) (Input.timeout input) in
  let language := default DEFAULT_CODE_LANGUAGE (Input.language input) in
  let envVars := default ∅ (Input.envVars input) in
  let blockData := default ∅ (Input.blockData input) in
  let blockNameMapping := default ∅ (Input.blockNameMapping input) in
  let workflowVariables := default [] (Input.workflowVariables input) in
  let isCustomTool := default false (Input.isCustomTool input) in
  let executionParams : JSRecord := <["_context" := JUndefined]> params in
  match resolveCodeVariables code executionParams envVars blockData
                             blockNameMapping workflowVariables with
  | Throw e =>
      {| events := [ResolverInvoked]; captured := ""; completion := Throw e |}
  | Normal (resolvedCode, contextVariables) =>
      let e2bEnabled := isTruthy (E2B_ENABLED cfg) in
      let lang := if isValidCodeLanguage language then language
                  else DEFAULT_CODE_LANGUAGE in
      let hasImports :=
        String.eqb lang CodeLanguage.JavaScript &&
        (test_import resolvedCode || test_require resolvedCode) in
      if String.eqb lang CodeLanguage.Python && negb e2bEnabled then
        {| events := [ResolverInvoked]; captured := "";
           completion := Throw (new_Error PYTHON_REQUIRES_E2B) |}
      else if String.eqb lang CodeLanguage.JavaScript && hasImports && negb e2bEnabled then
        {| events := [ResolverInvoked]; captured := "";
           completion := Throw (new_Error IMPORTS_REQUIRE_E2B) |}
      else if e2bEnabled && negb isCustomTool &&
              (String.eqb lang CodeLanguage.Python || hasImports) then
        {| events := [ResolverInvoked]; captured := "";
           completion := Throw (new_Error USE_HTTP_ROUTE) |}
      else
        let context :=
          {| capabilities := capabilityNames; bindings := contextVariables |} in
        let script := fullScript resolvedCode in
        match Script_new script with
        | Some syntaxError =>
            {| events := [ResolverInvoked; ContextCreated; ScriptCompiled];
               captured := ""; completion := Throw syntaxError |}
        | None =>
            let run := runInContext script context timeout in
            {| events := [ResolverInvoked; ContextCreated; ScriptCompiled; ScriptRun];
               captured := fold_left console (calls run) "";
               completion :=
                 match settled run with
                 | Fulfilled result => Normal result
                 | Rejected e => Throw e
                 end |}
        end
  end.

(** [executeFunction]: execute function code directly without HTTP
    serialization. The result pairs the components set to work with what
    the caller observes. *)
Definition executeFunction (cfg : Config) (input : Input.t) : list Event * Outcome :=
  let startTime := Date_now 0 in
  let attempt := try_block cfg input in
  (events attempt,
   match completion attempt with
   | Normal result =>
       let executionTime := (Date_now 1 - startTime)%Z in
       Returned
         {| Output.success := true;
            Output.output :=
              {| Output.result := result;
                 Output.stdout := cleanStdout (captured attempt);
                 Output.executionTime := executionTime |};
            Output.error := None |}
   | Throw error =>
       let executionTime := (Date_now 1 - startTime)%Z in
       match message_of error with
       | Throw fault => Threw fault
       | Normal message =>
           if is_str message USE_HTTP_ROUTE then Threw error
           else
             Returned
               {| Output.success := false;
                  Output.output :=
                    {| Output.result := JNull;
                       Output.stdout := cleanStdout (captured attempt);
                       Output.executionTime := executionTime |};
                  Output.error := Some (js_or message (JStr "Function execution failed")) |}
       end
   end).

End Executor.

(** ** A runtime for the examples

    A runtime that treats the scripts of the examples as Node does and is
    silent on everything else; the theorems hold for every runtime, the
    examples and the counterexamples are evaluated on this one. *)

Module Sample.

Definition two : spec_float := num_of_nat 2.
Definition forty_two : spec_float := num_of_nat 42.

Definition sentinel_error : JSValue := JErr "Error" USE_HTTP_ROUTE.
Definition boom : JSValue := JErr "Error" "boom".
Definition not_defined : JSValue := JErr "ReferenceError" "print is not defined".

(** Scripts and what running them does. *)
Definition behaviours : list (string * Run) :=
  [ ("return 1+1;",
     {| calls := []; settled := Fulfilled (JNum two) |});
    ("console.log('hi'); return 42;",
     {| calls := [ {| method := Log; args := [JStr "hi"] |} ];
        settled := Fulfilled (JNum forty_two) |});
    ("throw new Error('__USE_HTTP_ROUTE__');",
     {| calls := [ {| method := Error; args := [sentinel_error] |} ];
        settled := Rejected sentinel_error |});
    ("console.log('before'); throw new Error('boom');",
     {| calls := [ {| method := Log; args := [JStr "before"] |};
                   {| method := Error; args := [boom] |} ];
        settled := Rejected boom |});
    ("throw null;",
     {| calls := [ {| method := Error; args := [JNull] |} ];
        settled := Rejected JNull |});
    ("print(1)",
     {| calls := [ {| method := Error; args := [not_defined] |} ];
        settled := Rejected not_defined |}) ].

Fixpoint behaviour_of (table : list (string * Run)) (script : string) : Run :=
  match table with
  | [] => {| calls := []; settled := Fulfilled JUndefined |}
  | (code, run) :: rest =>
      if String.eqb script (fullScript code) then run else behaviour_of rest script
  end.

Definition runtime : Runtime := {|
  StringToNumber := fun s =>
    match digits_value 0 s with
    | Some n => num_of_nat n
    | None => S754_nan
    end;
  ObjectToNumber := fun _ => S754_nan;
  NumberToString := fun _ => "NaN";
  ObjectToString := fun _ => "[object Object]";
  JSON_parse := fun s =>
    if String.eqb s "true" then Some (JBool true)
    else if String.eqb s "false" then Some (JBool false)
    else if String.eqb s "null" then Some JNull
    else None;
  JSON_stringify := fun v => match v with JNull => "null" | _ => "{}" end;
  inherited := fun _ _ => JUndefined;
  engine_message := fun fault =>
    match fault with
    | NotAFunction => "(intermediate value).replace is not a function"
    | ReadOfNullish => "Cannot read properties of null (reading 'message')"
    end;
  Script_new := fun script =>
    if String.eqb script (fullScript "return (;")
    then Some (JErr "SyntaxError" "Unexpected token ';'")
    else None;
  runInContext := fun script _ _ => behaviour_of behaviours script;
  Date_now := fun n => (1000 + 7 * Z.of_nat n)%Z
|}.

Definition e2b_off : Config :=
  {| E2B_ENABLED := None; DEFAULT_EXECUTION_TIMEOUT_MS := 5000 |}.

Definition e2b_on : Config :=
  {| E2B_ENABLED := Some "true"; DEFAULT_EXECUTION_TIMEOUT_MS := 5000 |}.

(** A request that gives only its code and its language. *)
Definition request (code : string) (language : option string) : Input.t :=
  {| Input.code := code; Input.params := None; Input.timeout := None;
     Input.language := language; Input.envVars := None; Input.blockData := None;
     Input.blockNameMapping := None; Input.workflowVariables := None;
     Input.workflowId := None; Input.isCustomTool := None |}.

Definition failure (message : string) (stdout : string) : Outcome :=
  Returned
    {| Output.success := false;
       Output.output :=
         {| Output.result := JNull; Output.stdout := stdout;
            Output.executionTime := 7 |};
       Output.error := Some (JStr message) |}.

End Sample.

(** ** References, as texts *)

(** The path of a tag: a letter or underscore, then letters, digits,
    underscores and dots, the last of which is not a dot. *)
Definition is_tag_path (path : string) : bool :=
  match path with
  | String c0 run =>
      Str.is_ident_start c0 && Str.forallb Str.is_path_char run &&
      match Str.last run with
      | Some cl => Str.is_word cl
      | None => false
      end
  | EmptyString => false
  end.

Definition not_char (d : ascii) : ascii -> bool := fun c => negb (Ascii.eqb c d).

(** A workflow-variable reference [<variable.NAME>]. *)
Definition is_variable_ref (m : string) : Prop :=
  exists name, m = "<variable." +:+ name +:+ ">" /\ name <> "" /\
               Str.forallb (not_char ">") name = true.

(** A template reference [{{NAME}}]. *)
Definition is_template_ref (m : string) : Prop :=
  exists name, m = "{{" +:+ name +:+ "}}" /\ name <> "" /\
               Str.forallb (not_char "}") name = true.

(** A tag reference [<PATH>]. *)
Definition is_tag_ref (m : string) : Prop :=
  exists path, m = "<" +:+ path +:+ ">" /\ is_tag_path path = true.

(** The text [m] occurs in [code]. *)
Definition occurs_in (m code : string) : Prop :=
  exists pre post, code = pre +:+ m +:+ post.

(** The code holds no reference of any of the three syntaxes. *)
Definition reference_free (code : string) : Prop :=
  forall m, is_variable_ref m \/ is_template_ref m \/ is_tag_ref m -> ~ occurs_in m code.

(** A regular expression is faithful to a set of texts when what it matches
    at the start of a string is a text of the set, and every string that
    starts with a text of the set is matched. *)
Definition matches_exactly (rx : Regex.anchored) (P : string -> Prop) : Prop :=
  (forall s m, rx s = Some m -> P m /\ exists rest, s = m +:+ rest) /\
  (forall m rest, P m -> exists m', rx (m +:+ rest) = Some m').

(** ** Vocabulary of the properties *)

(** What a loop over the matches leaves in the bindings, when [binds m] tells
    what the iteration for the match [m] binds. *)
Definition bind_all (binds : string -> option (string * JSValue))
    (matches : list string) (contextVariables : JSRecord) : JSRecord :=
  fold_left
    (fun b m => match binds m with Some (k, v) => <[k := v]> b | None => b end)
    matches contextVariables.

(** The value of a template reference as the specification words it: the entry of
    [envVars] when there is one, else the entry of [params] when there is
    one, else the empty string. *)
Definition template_value_as_stated (params envVars : JSRecord) (name : string)
    : JSValue :=
  match envVars !! name with
  | Some v => v
  | None =>
      match params !! name with
      | Some v => v
      | None => JStr ""
      end
  end.

(** The specification of template references, as it is worded: every reference
    [{{NAME}}] of the code ends up bound to the value looked up first in
    [envVars], then in [params], the empty string when both lack it. *)
Definition template_bound_as_stated `{RT : Runtime} (code : string)
    (params envVars : JSRecord) : Prop :=
  forall name,
    In ("{{" +:+ name +:+ "}}") (Regex.match_all Regex.template_ref code) ->
    snd (resolveEnvironmentVariables code params envVars ∅)
      !! ("__var_" +:+ Str.sanitize (Str.trim name))
    = Some (template_value_as_stated params envVars (Str.trim name)).

(** The name an entry of [workflowVariables] declares, spaces stripped, when
    its [name] is a string or is falsy (which counts as the empty name). *)
Definition declared_name (variable : WorkflowVariable.t) : option string :=
  match js_or (WorkflowVariable.name variable) (JStr "") with
  | JStr s => Some (Str.stripSpaces s)
  | _ => None
  end.

(** Every entry declares a name that is a string, or none. *)
Definition names_are_strings (workflowVariables : list (string * WorkflowVariable.t))
    : Prop :=
  Forall (fun entry => is_Some (declared_name (snd entry))) workflowVariables.

Definition declares (variableName : string) (entry : string * WorkflowVariable.t)
    : bool :=
  match declared_name (snd entry) with
  | Some n => String.eqb n variableName
  | None => false
  end.

(** The first entry, in [Object.entries] order, that declares the name. *)
Definition first_named (variableName : string)
    (workflowVariables : list (string * WorkflowVariable.t))
    : option WorkflowVariable.t :=
  snd <$> List.find (declares variableName) workflowVariables.

(** What an iteration of pass 1 binds. *)
Definition workflow_binds `{RT : Runtime}
    (workflowVariables : list (string * WorkflowVariable.t)) (m : string)
    : option (string * JSValue) :=
  let variableName := Str.trim (Str.slice 10 1 m) in
  match first_named variableName workflowVariables with
  | Some variable => Some ("__variable_" +:+ Str.sanitize variableName, coerced variable)
  | None => None
  end.

(** What an iteration of pass 1 leaves, when no name test throws. *)
Definition workflow_iteration `{RT : Runtime}
    (workflowVariables : list (string * WorkflowVariable.t))
    (st : string * JSRecord) (m : string) : string * JSRecord :=
  let variableName := Str.trim (Str.slice 10 1 m) in
  match first_named variableName workflowVariables with
  | Some variable =>
      (replaceAll m ("__variable_" +:+ Str.sanitize variableName) (fst st),
       <["__variable_" +:+ Str.sanitize variableName := coerced variable]> (snd st))
  | None => (replaceAll m "" (fst st), snd st)
  end.

(** The coercion of a workflow variable as the specification words it: by the
    declared type alone. *)
Definition coerced_as_stated `{RT : Runtime} (variable : WorkflowVariable.t) : JSValue :=
  let v := WorkflowVariable.value variable in
  let type := WorkflowVariable.type variable in
  if is_str type "string" then v
  else if is_str type "number" then JNum (Number v)
  else if is_str type "boolean" then
    JBool (is_str v "true" || match v with JBool true => true | _ => false end)
  else if is_str type "json" then
    match v with
    | JStr s => match JSON_parse s with Some parsed => parsed | None => v end
    | _ => v
    end
  else v.

(** The specification of workflow variables, as it is worded: every reference whose
    name an entry declares ends up bound to the entry's value coerced by its
    declared type. *)
Definition workflow_bound_as_stated `{RT : Runtime} (code : string)
    (workflowVariables : list (string * WorkflowVariable.t)) : Prop :=
  forall m variable,
    In m (Regex.match_all Regex.variable_ref code) ->
    first_named (Str.trim (Str.slice 10 1 m)) workflowVariables = Some variable ->
    exists resolvedCode contextVariables,
      resolveWorkflowVariables code workflowVariables ∅
      = Normal (resolvedCode, contextVariables) /\
      contextVariables !! ("__variable_" +:+ Str.sanitize (Str.trim (Str.slice 10 1 m)))
      = Some (coerced_as_stated variable).

(** The language the executor settles on for a request. *)
Definition requested_language (input : Input.t) : string :=
  let language := default DEFAULT_CODE_LANGUAGE (Input.language input) in
  if isValidCodeLanguage language then language else DEFAULT_CODE_LANGUAGE.

(** The resolution [executeFunction] asks for: of the request's code, with
    the copy of [params] whose [_context] is [undefined]. *)
Definition resolve_request `{RT : Runtime} (input : Input.t)
    : Completion (string * JSRecord) :=
  resolveCodeVariables (Input.code input)
    (<["_context" := JUndefined]> (default ∅ (Input.params input)))
    (default ∅ (Input.envVars input)) (default ∅ (Input.blockData input))
    (default ∅ (Input.blockNameMapping input))
    (default [] (Input.workflowVariables input)).

(** [hasImports], on the resolved code. *)
Definition hasImports_of (input : Input.t) (resolvedCode : string) : bool :=
  String.eqb (requested_language input) CodeLanguage.JavaScript &&
  (test_import resolvedCode || test_require resolvedCode).

(** What the policy checks throw on the resolved code, if anything. *)
Definition policy (cfg : Config) (input : Input.t) (resolvedCode : string)
    : option JSValue :=
  let e2bEnabled := isTruthy (E2B_ENABLED cfg) in
  let isCustomTool := default false (Input.isCustomTool input) in
  let python := String.eqb (requested_language input) CodeLanguage.Python in
  if python && negb e2bEnabled then Some (new_Error PYTHON_REQUIRES_E2B)
  else if hasImports_of input resolvedCode && negb e2bEnabled
  then Some (new_Error IMPORTS_REQUIRE_E2B)
  else if e2bEnabled && negb isCustomTool && (python || hasImports_of input resolvedCode)
  then Some (new_Error USE_HTTP_ROUTE)
  else None.

(** The run of the wrapped resolved code in the context built for it. *)
Definition local_run `{RT : Runtime} (cfg : Config) (input : Input.t)
    (resolvedCode : string) (contextVariables : JSRecord) : Run :=
  runInContext (fullScript resolvedCode)
    {| capabilities := capabilityNames; bindings := contextVariables |}
    (default (DEFAULT_EXECUTION_TIMEOUT_MS cfg) (Input.timeout input)).

(** The duration the envelope reports. *)
Definition elapsed `{RT : Runtime} : Z := (Date_now 1 - Date_now 0)%Z.

(** The failure envelope. *)
Definition failure_envelope (stdout : string) (executionTime : Z) (error : JSValue)
    : Output.t :=
  {| Output.success := false;
     Output.output :=
       {| Output.result := JNull; Output.stdout := stdout;
          Output.executionTime := executionTime |};
     Output.error := Some error |}.

(** The success envelope. *)
Definition success_envelope (result : JSValue) (stdout : string) (executionTime : Z)
    : Output.t :=
  {| Output.success := true;
     Output.output :=
       {| Output.result := result; Output.stdout := stdout;
          Output.executionTime := executionTime |};
     Output.error := None |}.

(** The delegation signal. *)
Definition delegation_signal : JSValue := new_Error USE_HTTP_ROUTE.

(** Some component of local execution was set to work. *)
Definition executed_locally (trace : list Event) : Prop :=
  In ContextCreated trace \/ In ScriptCompiled trace \/ In ScriptRun trace.

(** The specification of Python requests, as it is worded: delegation is signalled
    and no component has run, the resolver included. *)
Definition python_delegated_as_stated `{RT : Runtime} (cfg : Config) (input : Input.t)
    : Prop :=
  requested_language input = CodeLanguage.Python ->
  executeFunction cfg input = ([], Threw delegation_signal).

(** The specification of imports, as it is worded: when the source text has an
    import statement or a [require] call, an exception reaches the caller in
    place of an envelope and nothing was executed locally. *)
Definition imports_delegated_as_stated `{RT : Runtime} (cfg : Config) (input : Input.t)
    : Prop :=
  requested_language input = CodeLanguage.JavaScript ->
  test_import (Input.code input) || test_require (Input.code input) = true ->
  (exists e, snd (executeFunction cfg input) = Threw e) /\
  ~ executed_locally (fst (executeFunction cfg input)).

(** The error [e] was thrown by the resolution, by the compilation or by the
    run of the script. *)
Definition thrown_within `{RT : Runtime} (cfg : Config) (input : Input.t) (e : JSValue)
    : Prop :=
  resolve_request input = Throw e \/
  (In ScriptCompiled (events (try_block cfg input)) /\
   completion (try_block cfg input) = Throw e).

(** The specification of failures, as it is worded: whatever the resolution, the
    compilation or the run throws comes back as a failure envelope that
    carries the captured output. *)
Definition failures_enveloped_as_stated `{RT : Runtime} (cfg : Config) (input : Input.t)
    : Prop :=
  forall e,
    thrown_within cfg input e ->
    exists executionTime error,
      snd (executeFunction cfg input)
      = Returned (failure_envelope (cleanStdout (captured (try_block cfg input)))
                                   executionTime error).

(** Two requests that differ at most in [params], and there at most in the
    key [_context]. *)
Definition differ_only_in_context (input1 input2 : Input.t) : Prop :=
  Input.code input1 = Input.code input2 /\
  Input.timeout input1 = Input.timeout input2 /\
  Input.language input1 = Input.language input2 /\
  Input.envVars input1 = Input.envVars input2 /\
  Input.blockData input1 = Input.blockData input2 /\
  Input.blockNameMapping input1 = Input.blockNameMapping input2 /\
  Input.workflowVariables input1 = Input.workflowVariables input2 /\
  Input.workflowId input1 = Input.workflowId input2 /\
  Input.isCustomTool input1 = Input.isCustomTool input2 /\
  delete "_context" (default ∅ (Input.params input1))
  = delete "_context" (default ∅ (Input.params input2)).

(** Objects as the caller and the executor share them: a store from
    references to records. [executionParams = { ...params }] allocates a
    record and [executionParams._context = undefined] writes to it; the
    result is the store after both statements and the reference held by
    [executionParams]. *)
Definition copy_params (store : gmap positive JSRecord) (params : positive)
    : gmap positive JSRecord * positive :=
  let executionParams := fresh (dom store) in
  let store := <[executionParams := default ∅ (store !! params)]> store in
  (alter (insert "_context" JUndefined) executionParams store, executionParams).

(** A character that is no angle bracket; a tag reference is an opening
    bracket, then such characters, then the closing bracket. *)
Definition no_bracket (c : ascii) : bool :=
  negb (Ascii.eqb c "<") && negb (Ascii.eqb c ">").

(** A call of [require] up to the quote that opens its argument. *)
Definition is_require_call (m : string) : Prop :=
  exists ws1 ws2 q,
    m = "require" +:+ ws1 +:+ "(" +:+ ws2 +:+ String q "" /\
    Str.forallb Str.is_space ws1 = true /\ Str.forallb Str.is_space ws2 = true /\
    Str.is_quote q = true.

(** ** The tool that calls the executor

    [functionExecuteTool] ([tools/function/execute]): its direct execution
    builds the request of [executeFunction] from the tool's parameters and
    turns the delegation signal into the error that makes the tool fall back
    on the HTTP route. *)

Module Tool.

(** [params.code]: a string, or an array of chunks of which the [content]
    fields are joined. *)
Inductive code_t :=
  | Text (s : string)
  | Chunks (contents : list string).

(** The fields of [CodeExecutionInput] that [directExecution] reads; [None]
    is an omitted field, and [context_workflowId] is
    [params._context?.workflowId]. *)
Record params := {
  code : code_t;
  language : option string;
  timeout : option Z;
  envVars : option JSRecord;
  workflowVariables : option (list (string * WorkflowVariable.t));
  blockData : option JSRecord;
  blockNameMapping : option JSRecord;
  context_workflowId : option string;
  isCustomTool : option bool
}.

(** What [directExecution] returns: the envelope without its timing; the
    promise resolves to it ([Result]) or rejects ([Failure]). *)
Record output := {
  success : bool;
  result : JSValue;
  stdout : string;
  error : option JSValue
}.

Inductive outcome :=
  | Result (out : output)
  | Failure (e : JSValue).

Definition SKIP_DIRECT_EXECUTION : string := "__SKIP_DIRECT_EXECUTION__".

(** [Array.isArray(params.code) ? params.code.map(c => c.content).join('\n')
    : params.code] *)
Definition codeContent (c : code_t) : string :=
  match c with
  | Text s => s
  | Chunks contents => Str.join LF contents
  end.

(** [params.language || DEFAULT_CODE_LANGUAGE]: an empty string is falsy. *)
Definition language_or_default (language : option string) : string :=
  match language with
  | Some l => if String.eqb l "" then DEFAULT_CODE_LANGUAGE else l
  | None => DEFAULT_CODE_LANGUAGE
  end.

(** [params.timeout || DEFAULT_EXECUTION_TIMEOUT_MS]: zero is falsy. *)
Definition timeout_or_default (cfg : Config) (timeout : option Z) : Z :=
  match timeout with
  | Some t => if Z.eqb t 0 then DEFAULT_EXECUTION_TIMEOUT_MS cfg else t
  | None => DEFAULT_EXECUTION_TIMEOUT_MS cfg
  end.

(** The argument [directExecution] hands to [executeFunction]; it gives no
    [params]. *)
Definition directInput (cfg : Config) (p : params) : Input.t :=
  {| Input.code := codeContent (code p);
     Input.params := None;
     Input.timeout := Some (timeout_or_default cfg (timeout p));
     Input.language := Some (language_or_default (language p));
     Input.envVars := Some (default ∅ (envVars p));
     Input.blockData := Some (default ∅ (blockData p));
     Input.blockNameMapping := Some (default ∅ (blockNameMapping p));
     Input.workflowVariables := Some (default [] (workflowVariables p));
     Input.workflowId := context_workflowId p;
     Input.isCustomTool := Some (default false (isCustomTool p)) |}.

(** [directExecution]: direct execution bypasses HTTP serialization for
    server-side calls, and falls back to the HTTP route for E2B execution. *)
Definition directExecution `{RT : Runtime} (cfg : Config) (p : params) : outcome :=
  match snd (executeFunction cfg (directInput cfg p)) with
  | Returned result =>
      Result
        {| success := Output.success result;
           result := Output.result (Output.output result);
           stdout := Output.stdout (Output.output result);
           error := Output.error result |}
  | Threw error =>
      match message_of error with
      | Throw fault => Failure fault
      | Normal message =>
          if is_str message USE_HTTP_ROUTE
          then Failure (new_Error SKIP_DIRECT_EXECUTION)
          else Failure error
      end
  end.

End Tool.

(** ** Vocabulary of the further properties *)

(** An identifier the resolver generates: one of its three prefixes, then
    word characters. *)
Definition generated_identifier (k : string) : Prop :=
  exists prefix suffix,
    In prefix ["__variable_"; "__var_"; "__tag_"] /\
    k = prefix +:+ suffix /\ Str.forallb Str.is_word suffix = true.

(** The request with another [isCustomTool]. *)
Definition with_isCustomTool (flag : option bool) (input : Input.t) : Input.t :=
  {| Input.code := Input.code input; Input.params := Input.params input;
     Input.timeout := Input.timeout input; Input.language := Input.language input;
     Input.envVars := Input.envVars input; Input.blockData := Input.blockData input;
     Input.blockNameMapping := Input.blockNameMapping input;
     Input.workflowVariables := Input.workflowVariables input;
     Input.workflowId := Input.workflowId input;
     Input.isCustomTool := flag |}.

(** The request with another [language]. *)
Definition with_language (language : option string) (input : Input.t) : Input.t :=
  {| Input.code := Input.code input; Input.params := Input.params input;
     Input.timeout := Input.timeout input; Input.language := language;
     Input.envVars := Input.envVars input; Input.blockData := Input.blockData input;
     Input.blockNameMapping := Input.blockNameMapping input;
     Input.workflowVariables := Input.workflowVariables input;
     Input.workflowId := Input.workflowId input;
     Input.isCustomTool := Input.isCustomTool input |}.

(** The number of characters of a class in a text. *)
Fixpoint count_chars (p : ascii -> bool) (s : string) : nat :=
  match s with
  | EmptyString => 0
  | String c s' => (if p c then 1 else 0) + count_chars p s'
  end.

(** Every key of the bindings is the prefix followed by word characters. *)
Definition bound_under (prefix : string) (b : JSRecord) : Prop :=
  forall k, is_Some (b !! k) ->
            exists suffix, k = prefix +:+ suffix /\ Str.forallb Str.is_word suffix = true.

(** The specification of block tags, as it is worded: every tag reference
    [<block.path>] of the code for which the direct lookups find nothing
    and whose block is mapped to an entry of [blockData] ends up bound to
    exactly the nested value at [path] in that entry, unless that value is
    [undefined] or empty. *)
Definition tag_bound_as_stated `{RT : Runtime} (code : string)
    (params blockData blockNameMapping : JSRecord) : Prop :=
  forall block path blockId data,
    let tagName := block +:+ "." +:+ path in
    In ("<" +:+ tagName +:+ ">") (Regex.match_all Regex.tag_ref code) ->
    Str.includes_char "." block = false ->
    truthy (getNestedValue (JObj params) tagName) = false ->
    truthy (getNestedValue (JObj blockData) tagName) = false ->
    blockNameMapping !! Str.toLowerCase block = Some (JStr blockId) ->
    blockData !! blockId = Some data ->
    getNestedValue data path <> JUndefined ->
    getNestedValue data path <> JStr "" ->
    snd (resolveTagVariables code params blockData blockNameMapping ∅)
      !! ("__tag_" +:+ Str.sanitize tagName)
    = Some (getNestedValue data path).

(** ** The engine on a fragment of JavaScript

    What [new Script] and [runInContext] do is fixed by the language, not by
    the executor. For the scripts the executor builds around a body made of
    [return], [throw] and calls of the console, over literals and [+], the
    language's semantics is written out here, so that what such a request
    yields can be computed instead of assumed. [run] is partial: [None]
    tells nothing about a script, which is then outside the fragment. *)

Module Engine.

Inductive Token :=
  | TWord (w : string)
  | TNumber (n : nat)
  | TString (s : string)
  | TPunct (c : ascii)
  | TLine.

Inductive Expr :=
  | ENumber (n : nat)
  | EString (s : string)
  | ENull
  | EBool (b : bool)
  | ENewError (message : string)
  | EAdd (a b : Expr).

Inductive Stmt :=
  | SReturn (e : option Expr)
  | SThrow (e : Expr)
  | SConsole (m : ConsoleMethod) (arguments : list Expr).

(** The punctuators of the fragment. *)
Definition is_punct (c : ascii) : bool := Str.includes_char c ";()+,.".

(** [IdentifierStart] and [IdentifierPart], below 128. *)
Definition is_name_start (c : ascii) : bool := Str.is_ident_start c || Ascii.eqb c "$".
Definition is_name_part (c : ascii) : bool := Str.is_word c || Ascii.eqb c "$".

(** A character of a string literal opened by [q] that stands for itself:
    not the closing quote, no escape, no line terminator. *)
Definition is_plain_in (q : ascii) (c : ascii) : bool :=
  negb (Ascii.eqb c q) && negb (Ascii.eqb c "\") && negb (Str.is_line_terminator c).

(** The tokens of a text: white space separates, line terminators are kept,
    since a statement of the fragment may not run over a line. A decimal
    literal has no leading zero, no fraction and no exponent; a string
    literal stands between two single or two double quotes and has no
    escape. *)
Fixpoint tokens (fuel : nat) (s : string) : option (list Token) :=
  match fuel with
  | O => None
  | S fuel =>
      match s with
      | EmptyString => Some []
      | String c rest =>
          if Str.is_line_terminator c then cons TLine <$> tokens fuel rest
          else if Str.is_space c then tokens fuel rest
          else if is_punct c then cons (TPunct c) <$> tokens fuel rest
          else if Ascii.eqb c "'" || Ascii.eqb c (ascii_of_nat 34) then
            let '(body, after) := Str.span (is_plain_in c) rest in
            match after with
            | String d after' =>
                if Ascii.eqb d c then cons (TString body) <$> tokens fuel after'
                else None
            | EmptyString => None
            end
          else if Str.is_digit c then
            let '(digits, after) := Str.span Str.is_digit s in
            match array_index digits with
            | Some n => cons (TNumber n) <$> tokens fuel after
            | None => None
            end
          else if is_name_start c then
            let '(w, after) := Str.span is_name_part s in
            cons (TWord w) <$> tokens fuel after
          else None
      end
  end.

(** A literal, or [new Error('...')]. *)
Definition term (ts : list Token) : option (Expr * list Token) :=
  match ts with
  | TNumber n :: ts => Some (ENumber n, ts)
  | TString s :: ts => Some (EString s, ts)
  | TWord "new" :: TWord "Error" :: TPunct "(" :: TString s :: TPunct ")" :: ts =>
      Some (ENewError s, ts)
  | TWord w :: ts =>
      if String.eqb w "null" then Some (ENull, ts)
      else if String.eqb w "true" then Some (EBool true, ts)
      else if String.eqb w "false" then Some (EBool false, ts)
      else None
  | _ => None
  end.

(** [term (+ term)*], associated to the left. *)
Fixpoint sum (fuel : nat) (acc : Expr) (ts : list Token) : option (Expr * list Token) :=
  match ts with
  | TPunct "+" :: ts =>
      match fuel, term ts with
      | S fuel, Some (e, ts) => sum fuel (EAdd acc e) ts
      | _, _ => None
      end
  | _ => Some (acc, ts)
  end.

Definition expression (ts : list Token) : option (Expr * list Token) :=
  '(e, ts') ← term ts; sum (length ts) e ts'.

(** The arguments of a call, after the first, up to the closing
    parenthesis. *)
Fixpoint more_arguments (fuel : nat) (ts : list Token) : option (list Expr * list Token) :=
  match ts with
  | TPunct ")" :: ts => Some ([], ts)
  | TPunct "," :: ts =>
      match fuel, expression ts with
      | S fuel, Some (e, ts) =>
          '(es, ts) ← more_arguments fuel ts; Some (e :: es, ts)
      | _, _ => None
      end
  | _ => None
  end.

Definition arguments (ts : list Token) : option (list Expr * list Token) :=
  match ts with
  | TPunct ")" :: ts => Some ([], ts)
  | _ =>
      '(e, ts') ← expression ts;
      '(es, ts'') ← more_arguments (length ts) ts';
      Some (e :: es, ts'')
  end.

(** The methods the console of the context has. *)
Definition console_method (w : string) : option ConsoleMethod :=
  if String.eqb w "log" then Some Log
  else if String.eqb w "error" then Some Error
  else if String.eqb w "warn" then Some Warn
  else None.

(** One statement, closed by its semicolon. *)
Definition statement (ts : list Token) : option (Stmt * list Token) :=
  match ts with
  | TWord "return" :: TPunct ";" :: ts => Some (SReturn None, ts)
  | TWord "return" :: ts =>
      match expression ts with
      | Some (e, TPunct ";" :: ts) => Some (SReturn (Some e), ts)
      | _ => None
      end
  | TWord "throw" :: ts =>
      match expression ts with
      | Some (e, TPunct ";" :: ts) => Some (SThrow e, ts)
      | _ => None
      end
  | TWord "console" :: TPunct "." :: TWord w :: TPunct "(" :: ts =>
      match console_method w, arguments ts with
      | Some m, Some (es, TPunct ";" :: ts) => Some (SConsole m es, ts)
      | _, _ => None
      end
  | _ => None
  end.

(** Statements, each on lines of its own. *)
Fixpoint statements (fuel : nat) (ts : list Token) : option (list Stmt) :=
  match fuel with
  | O => None
  | S fuel =>
      match ts with
      | [] => Some []
      | TLine :: ts => statements fuel ts
      | _ => '(s, ts) ← statement ts; cons s <$> statements fuel ts
      end
  end.

Definition parse (body : string) : option (list Stmt) :=
  ts ← tokens (S (String.length body)) body; statements (S (length ts)) ts.

(** The value of an expression: numbers are added as binary64 floats,
    strings are concatenated; [+] on other operands converts them, which is
    outside the fragment. *)
Fixpoint value (e : Expr) : option JSValue :=
  match e with
  | ENumber n => Some (JNum (num_of_nat n))
  | EString s => Some (JStr s)
  | ENull => Some JNull
  | EBool b => Some (JBool b)
  | ENewError message => Some (JErr "Error" message)
  | EAdd a b =>
      match value a, value b with
      | Some (JNum x), Some (JNum y) => Some (JNum (SFadd 53 1024 x y))
      | Some (JStr x), Some (JStr y) => Some (JStr (x +:+ y))
      | _, _ => None
      end
  end.

Fixpoint values (es : list Expr) : option (list JSValue) :=
  match es with
  | [] => Some []
  | e :: es => v ← value e; cons v <$> values es
  end.

(** The body runs inside [async () => { ... }], which the wrapper awaits
    inside [try]: [return] fulfils the promise of the script; what [throw]
    throws is caught by the wrapper, handed to [console.error] and thrown
    again, which rejects the promise; the end of the body fulfils it with
    [undefined]. *)
Fixpoint execute (body : list Stmt) (made : list ConsoleCall) : option Run :=
  match body with
  | [] => Some {| calls := made; settled := Fulfilled JUndefined |}
  | SReturn None :: _ => Some {| calls := made; settled := Fulfilled JUndefined |}
  | SReturn (Some e) :: _ =>
      v ← value e; Some {| calls := made; settled := Fulfilled v |}
  | SThrow e :: _ =>
      v ← value e;
      Some {| calls := (made ++ [ {| method := Error; args := [v] |} ])%list;
              settled := Rejected v |}
  | SConsole m es :: rest =>
      vs ← values es;
      execute rest (made ++ [ {| method := m; args := vs |} ])%list
  end.

(** The lines around the body of a script of the fragment. *)
Definition opening : list string :=
  [ ";(async () => {"; "  try {"; "    return await (async () => {" ].

Definition closing : list string :=
  [ "    })();"; "  } catch (error) {"; "    console.error(error);";
    "    throw error;"; "  }"; "})()" ].

Fixpoint same_lines (l1 l2 : list string) : bool :=
  match l1, l2 with
  | [], [] => true
  | x :: l1, y :: l2 => String.eqb x y && same_lines l1 l2
  | _, _ => false
  end.

(** The lines of the body, when the script is the opening lines, at least
    one line, and the closing lines. *)
Definition body_lines (script : string) : option (list string) :=
  let lines := Str.split (ascii_of_nat 10) script in
  let n := (length lines - length opening - length closing)%nat in
  let body := firstn n (skipn (length opening) lines) in
  if same_lines (firstn (length opening) lines) opening
     && same_lines (skipn (length opening + n) lines) closing
     && negb (Nat.eqb n 0)
  then Some body else None.

(** The names of the fragment mean what the executor put in the context:
    they are among its globals, and no binding stands in their place. *)
Definition provides (context : Context) (name : string) : bool :=
  existsb (String.eqb name) (capabilities context)
  && match bindings context !! name with Some _ => false | None => true end.

(** What compiling and running a script of the fragment in a context
    does. *)
Definition run (script : string) (context : Context) : option Run :=
  if provides context "console" && provides context "Error" then
    lines ← body_lines script;
    body ← parse (Str.join (String (ascii_of_nat 10) "") lines);
    execute body []
  else None.

End Engine.

(** The host runs the scripts of the fragment as the language says, under
    any positive timeout: they compile, and they run to what [Engine.run]
    computes. *)
Definition runs_the_fragment `{RT : Runtime} : Prop :=
  forall script context timeout outcome,
    (0 < timeout)%Z ->
    Engine.run script context = Some outcome ->
    Script_new script = None /\ runInContext script context timeout = outcome.

(** A runtime whose [vm] module is the fragment's semantics, and silent on
    every other script. *)
Definition fragment_runtime : Runtime := {|
  StringToNumber := @StringToNumber Sample.runtime;
  ObjectToNumber := @ObjectToNumber Sample.runtime;
  NumberToString := @NumberToString Sample.runtime;
  ObjectToString := @ObjectToString Sample.runtime;
  JSON_parse := @JSON_parse Sample.runtime;
  JSON_stringify := @JSON_stringify Sample.runtime;
  inherited := @inherited Sample.runtime;
  engine_message := @engine_message Sample.runtime;
  Script_new := fun _ => None;
  runInContext := fun script context _ =>
    default {| calls := []; settled := Fulfilled JUndefined |}
            (Engine.run script context);
  Date_now := @Date_now Sample.runtime
|}.

(** * Properties *)


Example variable_ref_ex :
  Regex.match_all Regex.variable_ref "a <variable.x> b <variable. y z >c<variable.>"
  = ["<variable.x>"; "<variable. y z >"].
Proof. reflexivity. Qed.

Example template_ref_ex :
  Regex.match_all Regex.template_ref "{{A}} {{}} {{ b }}} {{{c}}"
  = ["{{A}}"; "{{ b }}"; "{{{c}}"].
Proof. reflexivity. Qed.

Example tag_ref_ex :
  Regex.match_all Regex.tag_ref "<a> <ab> <a.b> <a.> <1a> <_x.y.z><p q>"
  = ["<ab>"; "<a.b>"; "<_x.y.z>"].
Proof. reflexivity. Qed.

Example fullScript_ex :
  fullScript "return 1+1;" =
  Str.join LF [ ";(async () => {"; "  try {"; "    return await (async () => {";
                "      return 1+1;";
                "    })();"; "  } catch (error) {"; "    console.error(error);";
                "    throw error;"; "  }"; "})()" ].
Proof. reflexivity. Qed.

Example run_return_ex :
  executeFunction (RT := Sample.runtime) Sample.e2b_off
    (Sample.request "return 1+1;" (Some "javascript"))
  = ([ResolverInvoked; ContextCreated; ScriptCompiled; ScriptRun],
     Returned {| Output.success := true;
                 Output.output := {| Output.result := JNum Sample.two;
                                     Output.stdout := "";
                                     Output.executionTime := 7 |};
                 Output.error := None |}).
Proof. vm_compute. reflexivity. Qed.

Example run_python_off_ex :
  executeFunction (RT := Sample.runtime) Sample.e2b_off
    (Sample.request "print(1)" (Some "python"))
  = ([ResolverInvoked], Sample.failure PYTHON_REQUIRES_E2B "").
Proof. vm_compute. reflexivity. Qed.

Example run_throw_ex :
  executeFunction (RT := Sample.runtime) Sample.e2b_off
    (Sample.request "console.log('before'); throw new Error('boom');" None)
  = ([ResolverInvoked; ContextCreated; ScriptCompiled; ScriptRun],
     Sample.failure "boom" ("before" +:+ LF +:+ "[ERROR] {}")).
Proof. vm_compute. reflexivity. Qed.

Example resolve_ex :
  resolveCodeVariables (RT := Sample.runtime)
    "return <variable.my var> + {{KEY}} + <start.out.n> + <nope.x>;"
    (<["KEY" := JStr "p"]> ∅) (<["KEY" := JStr "e"]> ∅)
    (<["b1" := JObj (<["out" := JObj (<["n" := JBool false]> ∅)]> ∅)]> ∅)
    (<["start" := JStr "b1"]> ∅)
    [("v", {| WorkflowVariable.name := JStr "myvar";
              WorkflowVariable.type := JStr "number";
              WorkflowVariable.value := JStr "2" |})]
  = Normal ("return  + __var_KEY + __tag_start_out_n + <nope.x>;",
            <["__tag_start_out_n" := JBool false]> (<["__var_KEY" := JStr "e"]> ∅)).
Proof. vm_compute. reflexivity. Qed.

(** ** Facts about strings *)

Section StringFacts.

Implicit Types (s p r : string) (c : ascii).

Lemma app_cons c s p : String c s +:+ p = String c (s +:+ p).
Proof. reflexivity. Qed.

Lemma app_empty_l s : "" +:+ s = s.
Proof. reflexivity. Qed.

Lemma app_empty_r s : s +:+ "" = s.
Proof. induction s as [|c s IH]; [done | by rewrite app_cons, IH]. Qed.

Lemma app_assoc s p r : (s +:+ p) +:+ r = s +:+ (p +:+ r).
Proof. induction s as [|c s IH]; [done | by rewrite !app_cons, IH]. Qed.

Lemma length_app s p : String.length (s +:+ p) = (String.length s + String.length p)%nat.
Proof. induction s as [|c s IH]; [done | rewrite app_cons; simpl; by rewrite IH]. Qed.

Lemma startsWith_spec s p : Str.startsWith s p = true <-> exists r, s = p +:+ r.
Proof.
  revert s. induction p as [|a p IH]; intros s; simpl.
  - split; [intros _; by exists s | reflexivity].
  - destruct s as [|b s].
    + split; [done | intros [r Hr]; discriminate].
    + rewrite andb_true_iff, IH. split.
      * intros [Hab [r ->]]. apply Ascii.eqb_eq in Hab as ->. by exists r.
      * intros [r Hr]. rewrite app_cons in Hr. injection Hr as -> ->.
        split; [apply Ascii.eqb_refl | by exists r].
Qed.

Lemma startsWith_app p r : Str.startsWith (p +:+ r) p = true.
Proof. apply startsWith_spec. by exists r. Qed.

Lemma drop_app p r : Str.drop (String.length p) (p +:+ r) = r.
Proof. induction p as [|a p IH]; [by destruct r | by rewrite app_cons]. Qed.

Lemma take_app p r : Str.take (String.length p) (p +:+ r) = p.
Proof.
  induction p as [|a p IH]; [by destruct r |].
  rewrite app_cons. simpl. by rewrite IH.
Qed.

(** [slice] recovers what stands between a prefix and a suffix of known
    lengths. *)
Lemma slice_between p s r :
  Str.slice (String.length p) (String.length r) (p +:+ s +:+ r) = s.
Proof.
  unfold Str.slice. rewrite drop_app, !length_app.
  replace (String.length p + (String.length s + String.length r)
           - String.length r - String.length p)%nat with (String.length s) by lia.
  apply take_app.
Qed.

Lemma span_spec (f : ascii -> bool) s a b :
  Str.span f s = (a, b) ->
  s = a +:+ b /\ Str.forallb f a = true /\
  match b with String c _ => f c = false | EmptyString => True end.
Proof.
  revert a b. induction s as [|c s IH]; intros a b; simpl.
  - intros [= <- <-]. done.
  - destruct (f c) eqn:Hc.
    + destruct (Str.span f s) as [a' b'] eqn:Hs. intros [= <- <-].
      destruct (IH _ _ eq_refl) as (-> & Ha & Hb). simpl. by rewrite Hc, Ha.
    + intros [= <- <-]. simpl. by rewrite Hc.
Qed.

(** The greedy run is the only way to split before a character outside the
    class. *)
Lemma span_app (f : ascii -> bool) a b :
  Str.forallb f a = true ->
  match b with String c _ => f c = false | EmptyString => True end ->
  Str.span f (a +:+ b) = (a, b).
Proof.
  intros Ha Hb. induction a as [|c a IH].
  - destruct b as [|c b]; simpl; [done | by rewrite Hb].
  - simpl in Ha. apply andb_true_iff in Ha as [Hc Ha].
    rewrite app_cons. simpl. by rewrite Hc, (IH Ha).
Qed.

Lemma last_app_char s c : Str.last (s +:+ String c "") = Some c.
Proof.
  induction s as [|a s IH]; [done |].
  rewrite app_cons. simpl. rewrite IH. by destruct s.
Qed.

Lemma dropLast_app_char s c : Str.dropLast (s +:+ String c "") = s.
Proof.
  unfold Str.dropLast. rewrite length_app. simpl.
  replace (String.length s + 1 - 1)%nat with (String.length s) by lia.
  apply take_app.
Qed.

(** [cleanStdout] removes exactly one trailing newline. *)
Lemma cleanStdout_newline s : cleanStdout (s +:+ LF) = s.
Proof.
  unfold cleanStdout, Str.endsWith_char, LF.
  rewrite last_app_char, Ascii.eqb_refl. apply dropLast_app_char.
Qed.

Lemma cleanStdout_other s :
  Str.endsWith_char s (ascii_of_nat 10) = false -> cleanStdout s = s.
Proof. unfold cleanStdout. by intros ->. Qed.

(** Escaping a text yields a pattern source that stands for that text. *)
Lemma literal_of_escapeRegExp s : literal_of_source (escapeRegExp s) = Some s.
Proof.
  induction s as [|c s IH]; [done |].
  cbn [escapeRegExp]. destruct (is_syntax_char c) eqn:Hc.
  - cbn [literal_of_source]. rewrite Ascii.eqb_refl, Hc, IH. done.
  - cbn [literal_of_source]. rewrite Hc.
    destruct (Ascii.eqb c "\") eqn:Hb.
    + apply Ascii.eqb_eq in Hb as ->. discriminate.
    + by rewrite IH.
Qed.

Lemma replace_escaped pat rep s :
  replace_RegExp_g (escapeRegExp pat) rep s = replaceAll pat rep s.
Proof. unfold replace_RegExp_g. by rewrite literal_of_escapeRegExp. Qed.

End StringFacts.

(** Appends with their parentheses to the right and their literal prefixes
    consumed. *)
Ltac string_norm :=
  repeat (rewrite app_assoc || rewrite app_cons || rewrite app_empty_l).

Section RegexFacts.

Implicit Types (s m : string) (rx : Regex.anchored).

Lemma variable_ref_exact : matches_exactly Regex.variable_ref is_variable_ref.
Proof.
  split.
  - intros s m. unfold Regex.variable_ref.
    destruct (Str.startsWith s "<variable.") eqn:Hp; [|done].
    apply startsWith_spec in Hp as [r ->].
    change (Str.drop 10 ("<variable." +:+ r)) with r.
    destruct (Str.span _ r) as [a b] eqn:Hs.
    apply span_spec in Hs as (-> & Ha & Hb).
    destruct a as [|c name]; [done |].
    destruct b as [|d rest]; [done |].
    destruct (Ascii.eqb d ">") eqn:Hd.
    + apply Ascii.eqb_eq in Hd as ->. intros [= <-]. split.
      * exists (String c name). done.
      * exists rest. by rewrite !app_assoc.
    + intros Hm. exfalso. revert Hm Hb Hd. clear.
      destruct d as [[] [] [] [] [] [] [] []]; simpl; try done.
  - intros m rest (name & -> & Hne & Hall). unfold Regex.variable_ref.
    rewrite app_assoc, startsWith_app.
    change (Str.drop 10 ("<variable." +:+ (name +:+ ">") +:+ rest))
      with ((name +:+ ">") +:+ rest).
    rewrite app_assoc.
    rewrite (span_app _ name (">" +:+ rest)) by done.
    destruct name as [|c name]; [done |]. eauto.
Qed.

Lemma template_ref_exact : matches_exactly Regex.template_ref is_template_ref.
Proof.
  split.
  - intros s m. unfold Regex.template_ref.
    destruct (Str.startsWith s "{{") eqn:Hp; [|done].
    apply startsWith_spec in Hp as [r ->].
    change (Str.drop 2 ("{{" +:+ r)) with r.
    destruct (Str.span _ r) as [a b] eqn:Hs.
    apply span_spec in Hs as (-> & Ha & Hb).
    destruct a as [|c name]; [done |].
    destruct b as [|d rest]; [done |].
    destruct (Ascii.eqb d "}") eqn:Hd.
    + apply Ascii.eqb_eq in Hd as ->.
      destruct rest as [|d2 rest]; [done |].
      destruct (Ascii.eqb d2 "}") eqn:Hd2.
      * apply Ascii.eqb_eq in Hd2 as ->. intros [= <-]. split.
        -- exists (String c name). done.
        -- exists rest. by rewrite !app_assoc.
      * intros Hm. exfalso. revert Hm Hd2. clear.
        destruct d2 as [[] [] [] [] [] [] [] []]; simpl; try done.
    + intros Hm. exfalso. revert Hm Hd. clear.
      destruct d as [[] [] [] [] [] [] [] []]; simpl; try done.
  - intros m rest (name & -> & Hne & Hall). unfold Regex.template_ref.
    rewrite app_assoc, startsWith_app.
    change (Str.drop 2 ("{{" +:+ (name +:+ "}}") +:+ rest))
      with ((name +:+ "}}") +:+ rest).
    rewrite app_assoc.
    rewrite (span_app _ name ("}}" +:+ rest)) by done.
    destruct name as [|c name]; [done |]. eauto.
Qed.

Lemma tag_ref_exact : matches_exactly Regex.tag_ref is_tag_ref.
Proof.
  split.
  - intros s m. unfold Regex.tag_ref.
    destruct s as [|lt s]; [done |].
    destruct (Ascii.eqb lt "<") eqn:Hlt; cycle 1.
    { intros Hm. exfalso. revert Hm Hlt. clear.
      destruct lt as [[] [] [] [] [] [] [] []]; simpl; try done. }
    apply Ascii.eqb_eq in Hlt as ->.
    destruct s as [|c0 s]; [done |].
    destruct (Str.is_ident_start c0) eqn:H0; [|done].
    destruct (Str.span _ s) as [a b] eqn:Hs.
    apply span_spec in Hs as (-> & Ha & Hb).
    destruct a as [|c run]; [done |].
    destruct b as [|d rest]; [done |].
    destruct (Ascii.eqb d ">") eqn:Hd.
    + apply Ascii.eqb_eq in Hd as ->.
      destruct (Str.last (String c run)) as [cl|] eqn:Hl; [|done].
      destruct (Str.is_word cl) eqn:Hw; [|done].
      intros [= <-]. split.
      * exists (String c0 (String c run)). split; [done |].
        unfold is_tag_path. by rewrite H0, Ha, Hl, Hw.
      * exists rest. by string_norm.
    + intros Hm. exfalso. revert Hm Hd. clear.
      destruct d as [[] [] [] [] [] [] [] []]; simpl; try done.
  - intros m rest (path & -> & Hp). unfold is_tag_path in Hp.
    destruct path as [|c0 run]; [done |].
    apply andb_true_iff in Hp as [Hp Hl]. apply andb_true_iff in Hp as [H0 Hall].
    string_norm. unfold Regex.tag_ref. cbv beta iota. rewrite H0.
    assert (Str.is_path_char ">" = false) as Hgt by done.
    rewrite (span_app _ run (String ">" rest)) by done.
    destruct run as [|c run]; [done |].
    destruct (Str.last (String c run)) as [cl|]; [|done].
    rewrite Hl. eauto.
Qed.

(** The scan finds nothing exactly when the expression matches at no
    position. *)
Lemma match_from_nil rx skip s :
  (forall pre post, s = pre +:+ post -> rx post = None) ->
  Regex.match_from rx skip s = [].
Proof.
  revert skip. induction s as [|c s IH]; intros skip H; [done |].
  simpl. destruct skip as [|k].
  - rewrite (H "" (String c s) eq_refl). apply IH.
    intros pre post ->. by apply (H (String c pre)).
  - apply IH. intros pre post ->. by apply (H (String c pre)).
Qed.

Lemma match_all_cons rx s pre post m :
  s = pre +:+ post -> rx post = Some m -> post <> "" ->
  Regex.match_all rx s <> [].
Proof.
  unfold Regex.match_all. revert s. induction pre as [|c pre IH]; intros s -> Hm Hne.
  - rewrite app_empty_l. destruct post as [|c post]; [done |].
    simpl. rewrite Hm. discriminate.
  - rewrite app_cons. simpl.
    destruct (rx (String c (pre +:+ post))); [discriminate |]. by apply IH.
Qed.

(** Every match of the scan is a match of the expression at some
    position. *)
Lemma match_from_In rx skip s m :
  In m (Regex.match_from rx skip s) ->
  exists pre post, s = pre +:+ post /\ rx post = Some m.
Proof.
  revert skip. induction s as [|c s IH]; intros skip; [done |].
  simpl. destruct skip as [|k].
  - destruct (rx (String c s)) as [m'|] eqn:Hm.
    + intros [-> | Hin].
      * by exists "", (String c s).
      * destruct (IH _ Hin) as (pre & post & -> & Hp). by exists (String c pre), post.
    + intros Hin. destruct (IH _ Hin) as (pre & post & -> & Hp).
      by exists (String c pre), post.
  - intros Hin. destruct (IH _ Hin) as (pre & post & -> & Hp).
    by exists (String c pre), post.
Qed.

Lemma match_all_exact rx P s m :
  matches_exactly rx P -> In m (Regex.match_all rx s) -> P m /\ occurs_in m s.
Proof.
  intros [Hsound _] Hin. apply match_from_In in Hin as (pre & post & -> & Hm).
  apply Hsound in Hm as [HP [rest ->]]. split; [done | by exists pre, rest].
Qed.

Lemma match_all_nil_iff rx P s :
  matches_exactly rx P -> (forall m, P m -> m <> "") ->
  Regex.match_all rx s = [] <-> (forall m, P m -> ~ occurs_in m s).
Proof.
  intros [Hsound Hcomplete] Hne. split.
  - intros Hnil m HP (pre & post & ->).
    destruct (Hcomplete m post HP) as [m' Hm'].
    refine (match_all_cons rx _ pre (m +:+ post) m' eq_refl Hm' _ Hnil).
    specialize (Hne m HP). by destruct m.
  - intros Hfree. apply match_from_nil. intros pre post -> .
    destruct (rx post) as [m|] eqn:Hm; [|done].
    apply Hsound in Hm as [HP [rest ->]]. destruct (Hfree m HP). by exists pre, rest.
Qed.

End RegexFacts.

Example trim_ex : Str.trim "  a b  " = "a b".
Proof. reflexivity. Qed.

(** ** Replacement and detection *)

Section Replacement.

Implicit Types (s pat rep : string).

Lemma replace_from_skip pat rep x rest :
  replace_from pat rep (String.length x) (x +:+ rest) = replaceAll pat rep rest.
Proof.
  induction x as [|c x IH]; [done |].
  rewrite app_cons. simpl. apply IH.
Qed.

(** An occurrence at the head is replaced, and the search resumes after
    it. *)
Lemma replaceAll_head pat rep rest :
  pat <> "" -> replaceAll pat rep (pat +:+ rest) = rep +:+ replaceAll pat rep rest.
Proof.
  intros Hne. destruct pat as [|c pat]; [done |].
  unfold replaceAll at 1. rewrite app_cons. cbn [replace_from].
  assert (Str.startsWith (String c (pat +:+ rest)) (String c pat) = true) as ->
    by (rewrite <- app_cons; apply startsWith_app).
  f_equal. cbn [String.length]. rewrite Nat.sub_1_r. cbn [Nat.pred].
  apply replace_from_skip.
Qed.

(** A character at which the text does not start is kept. *)
Lemma replaceAll_keep pat rep c s :
  Str.startsWith (String c s) pat = false ->
  replaceAll pat rep (String c s) = String c (replaceAll pat rep s).
Proof. intros H. unfold replaceAll. cbn [replace_from]. by rewrite H. Qed.

(** A text that does not occur is replaced nowhere. *)
Lemma replaceAll_absent pat rep s : ~ occurs_in pat s -> replaceAll pat rep s = s.
Proof.
  induction s as [|c s IH]; intros Hn; [done |].
  rewrite replaceAll_keep.
  - f_equal. apply IH. intros (pre & post & ->). apply Hn.
    by exists (String c pre), post.
  - destruct (Str.startsWith (String c s) pat) eqn:Hp; [|done].
    apply startsWith_spec in Hp as [r Hr]. destruct Hn. by exists "", r.
Qed.

(** [/^import\s+/m] matches exactly when [import] stands at the start of the
    code or right after a line terminator, and white space follows. *)
Lemma test_import_from_spec at_line_start s :
  test_import_from at_line_start s = true <->
  (at_line_start = true /\
   exists c post, s = "import" +:+ String c post /\ Str.is_space c = true) \/
  (exists pre t c post,
     s = pre +:+ String t ("import" +:+ String c post) /\
     Str.is_line_terminator t = true /\ Str.is_space c = true).
Proof.
  assert (forall b s,
            import_at b s = true <->
            b = true /\ exists c post, s = "import" +:+ String c post /\
                                       Str.is_space c = true) as Hat.
  { intros b s0. unfold import_at. rewrite !andb_true_iff, startsWith_spec. split.
    - intros [[-> [r ->]] Hc]. split; [done |].
      change (Str.drop 6 ("import" +:+ r)) with r in Hc.
      destruct r as [|c post]; [done |]. by exists c, post.
    - intros [-> (c & post & -> & Hc)]. split; [split; [done | eauto] |].
      exact Hc. }
  revert at_line_start. induction s as [|a s IH]; intros b.
  - cbn [test_import_from]. rewrite orb_false_r, Hat. split; [tauto |].
    intros [H | (pre & t & c & post & Hs & _)]; [done |]. by destruct pre.
  - cbn [test_import_from]. rewrite orb_true_iff, Hat, IH. split.
    + intros [H | [[Ha (c & post & -> & Hc)] | (pre & t & c & post & -> & Ht & Hc)]].
      * by left.
      * right. by exists "", a, c, post.
      * right. by exists (String a pre), t, c, post.
    + intros [H | (pre & t & c & post & Hs & Ht & Hc)]; [by left |].
      right. destruct pre as [|a' pre].
      * injection Hs as -> ->. left. eauto.
      * rewrite app_cons in Hs. injection Hs as -> ->. right. by exists pre, t, c, post.
Qed.

Lemma test_spec (rx : Regex.anchored) s :
  Regex.test rx s = true <-> exists pre post, s = pre +:+ post /\ rx post <> None.
Proof.
  induction s as [|a s IH].
  - cbn [Regex.test]. split.
    + destruct (rx "") eqn:H; [|done]. intros _. exists "", "". by rewrite H.
    + intros (pre & post & Hs & Hp). destruct pre, post; try done.
      by destruct (rx "").
  - cbn [Regex.test]. destruct (rx (String a s)) eqn:H.
    + split; [|done]. intros _. exists "", (String a s). by rewrite H.
    + rewrite IH. split.
      * intros (pre & post & -> & Hp). by exists (String a pre), post.
      * intros (pre & post & Hs & Hp). destruct pre as [|a' pre].
        -- rewrite app_empty_l in Hs. by rewrite <- Hs, H in Hp.
        -- rewrite app_cons in Hs. injection Hs as -> ->. by exists pre, post.
Qed.

Lemma quote_not_space q : Str.is_quote q = true -> Str.is_space q = false.
Proof. by destruct q as [[] [] [] [] [] [] [] []]. Qed.

Lemma require_call_exact : matches_exactly require_call is_require_call.
Proof.
  split.
  - intros s m. unfold require_call.
    destruct (Str.startsWith s "require") eqn:Hp; [|done].
    apply startsWith_spec in Hp as [r ->].
    change (Str.drop 7 ("require" +:+ r)) with r.
    destruct (Str.span Str.is_space r) as [ws1 s1] eqn:H1.
    apply span_spec in H1 as (-> & Hws1 & _).
    destruct s1 as [|p s2]; [done |].
    destruct (Ascii.eqb p "(") eqn:Hparen; cycle 1.
    { intros Hm. exfalso. revert Hm Hparen. clear.
      destruct p as [[] [] [] [] [] [] [] []]; simpl; try done. }
    apply Ascii.eqb_eq in Hparen as ->.
    destruct (Str.span Str.is_space s2) as [ws2 s3] eqn:H2.
    apply span_spec in H2 as (-> & Hws2 & _).
    destruct s3 as [|q rest]; [done |].
    destruct (Str.is_quote q) eqn:Hq; [|done].
    intros [= <-]. split.
    + by exists ws1, ws2, q.
    + exists rest. by string_norm.
  - intros m rest (ws1 & ws2 & q & -> & Hws1 & Hws2 & Hq). unfold require_call.
    rewrite app_assoc, startsWith_app.
    change (Str.drop 7 ("require" +:+ (ws1 +:+ "(" +:+ ws2 +:+ String q "") +:+ rest))
      with ((ws1 +:+ "(" +:+ ws2 +:+ String q "") +:+ rest).
    string_norm.
    rewrite (span_app _ ws1 (String "(" (ws2 +:+ String q rest))) by done.
    rewrite (span_app _ ws2 (String q rest)) by (done || by apply quote_not_space).
    rewrite Hq. eauto.
Qed.

(** [/require\s*\(\s*[q]/.test(s)] tells whether a call of [require] with a
    quoted argument occurs in [s]. *)
Lemma test_require_spec s :
  test_require s = true <-> exists m, is_require_call m /\ occurs_in m s.
Proof.
  unfold test_require. rewrite test_spec. destruct require_call_exact as [Hs Hc].
  split.
  - intros (pre & post & -> & Hp).
    destruct (require_call post) as [m|] eqn:Hm; [|done].
    destruct (Hs _ _ Hm) as [Him [rest ->]]. exists m. split; [done |].
    by exists pre, rest.
  - intros (m & Him & pre & post & ->). exists pre, (m +:+ post). split; [done |].
    destruct (Hc m post Him) as [m' ->]. done.
Qed.

End Replacement.

(** ** Reference-free code *)

Section ReferenceFree.

Context `{RT : Runtime}.

Lemma variable_ref_nonempty m : is_variable_ref m -> m <> "".
Proof. by intros (name & -> & _). Qed.

Lemma template_ref_nonempty m : is_template_ref m -> m <> "".
Proof. by intros (name & -> & _). Qed.

Lemma tag_ref_nonempty m : is_tag_ref m -> m <> "".
Proof. by intros (path & -> & _). Qed.

(** Code is reference-free exactly when none of the three scans finds a
    match. *)
Lemma reference_free_iff code :
  reference_free code <->
  Regex.match_all Regex.variable_ref code = [] /\
  Regex.match_all Regex.template_ref code = [] /\
  Regex.match_all Regex.tag_ref code = [].
Proof.
  rewrite (match_all_nil_iff _ _ code variable_ref_exact variable_ref_nonempty).
  rewrite (match_all_nil_iff _ _ code template_ref_exact template_ref_nonempty).
  rewrite (match_all_nil_iff _ _ code tag_ref_exact tag_ref_nonempty).
  unfold reference_free. split.
  - intros H. repeat split; intros m Hm; apply H; tauto.
  - intros (Hv & He & Ht) m [Hm | [Hm | Hm]]; eauto.
Qed.

Lemma resolve_reference_free code params envVars blockData blockNameMapping
    workflowVariables :
  reference_free code ->
  resolveCodeVariables code params envVars blockData blockNameMapping
                       workflowVariables = Normal (code, ∅).
Proof.
  intros (Hv & He & Ht)%reference_free_iff.
  unfold resolveCodeVariables, resolveWorkflowVariables. rewrite Hv. simpl.
  unfold resolveEnvironmentVariables. rewrite He. simpl.
  unfold resolveTagVariables. rewrite Ht. done.
Qed.

End ReferenceFree.

(** C8: on code that holds no [<variable.NAME>], no [{{NAME}}] and no tag
    reference, [resolveCodeVariables] returns the code unchanged with an
    empty bindings mapping; hence resolving the result of a resolution that
    holds no reference any more changes nothing. *)
Theorem resolution_identity_without_references `{RT : Runtime}
    (params envVars blockData blockNameMapping : JSRecord)
    (workflowVariables : list (string * WorkflowVariable.t)) :
  (forall code,
     reference_free code ->
     resolveCodeVariables code params envVars blockData blockNameMapping
                          workflowVariables = Normal (code, ∅)) /\
  (forall code resolvedCode contextVariables,
     resolveCodeVariables code params envVars blockData blockNameMapping
                          workflowVariables = Normal (resolvedCode, contextVariables) ->
     reference_free resolvedCode ->
     resolveCodeVariables resolvedCode params envVars blockData blockNameMapping
                          workflowVariables = Normal (resolvedCode, ∅)).
Proof.
  split.
  - intros code. apply resolve_reference_free.
  - intros code resolvedCode contextVariables _. apply resolve_reference_free.
Qed.

(** On ["return 1+1;"], and on the result of resolving ["return {{A}};"]. *)
Lemma resolution_identity_witness :
  resolveCodeVariables (RT := Sample.runtime) "return 1+1;" ∅ ∅ ∅ ∅ []
  = Normal ("return 1+1;", ∅)
  /\ resolveCodeVariables (RT := Sample.runtime) "return __var_A;" ∅ ∅ ∅ ∅ []
     = Normal ("return __var_A;", ∅).
Proof.
  split.
  - apply (proj1 (resolution_identity_without_references
                    (RT := Sample.runtime) ∅ ∅ ∅ ∅ [])).
    apply reference_free_iff. vm_compute. tauto.
  - apply (proj2 (resolution_identity_without_references
                    (RT := Sample.runtime) ∅ ∅ ∅ ∅ [])
             "return {{A}};" "return __var_A;" {["__var_A" := JStr ""]}).
    + vm_compute. reflexivity.
    + apply reference_free_iff. vm_compute. tauto.
Defined.

(** ** What the loops bind *)

Section Bindings.

Context `{RT : Runtime}.

Implicit Types (binds : string -> option (string * JSValue)) (b : JSRecord).

Lemma bind_all_snoc binds ms m b :
  bind_all binds (ms ++ [m]) b =
  match binds m with
  | Some (k, v) => <[k := v]> (bind_all binds ms b)
  | None => bind_all binds ms b
  end.
Proof. unfold bind_all. by rewrite fold_left_app. Qed.

(** A key some iteration binds is bound in the end, to the value of an
    iteration that binds this key. *)
Lemma bind_all_bound binds ms b m k v :
  In m ms -> binds m = Some (k, v) ->
  exists m' v', In m' ms /\ binds m' = Some (k, v') /\
                bind_all binds ms b !! k = Some v'.
Proof.
  induction ms as [|x ms IH] using rev_ind; [done |].
  intros Hin Hm. rewrite bind_all_snoc.
  destruct (binds x) as [[k' v']|] eqn:Hx.
  - destruct (decide (k' = k)) as [-> | Hne].
    + exists x, v'. rewrite lookup_insert_eq, in_app_iff. simpl. tauto.
    + apply in_app_iff in Hin as [Hin | [-> | []]]; [|congruence].
      destruct (IH Hin Hm) as (m' & w & Hin' & Hm' & Hl).
      exists m', w. rewrite lookup_insert_ne, in_app_iff by done. tauto.
  - apply in_app_iff in Hin as [Hin | [-> | []]]; [|congruence].
    destruct (IH Hin Hm) as (m' & w & Hin' & Hm' & Hl).
    exists m', w. rewrite in_app_iff. tauto.
Qed.

(** A key no iteration binds keeps what it had. *)
Lemma bind_all_unbound binds ms b k :
  (forall m v, In m ms -> binds m <> Some (k, v)) ->
  bind_all binds ms b !! k = b !! k.
Proof.
  induction ms as [|x ms IH] using rev_ind; [done |].
  intros H. rewrite bind_all_snoc.
  assert (bind_all binds ms b !! k = b !! k) as Hrec.
  { apply IH. intros m v Hin. apply H. rewrite in_app_iff. tauto. }
  destruct (binds x) as [[k' v']|] eqn:Hx; [|done].
  rewrite lookup_insert_ne; [done |].
  intros ->. apply (H x v'); [|done]. rewrite in_app_iff. simpl. tauto.
Qed.

(** The last iteration that binds a key decides its value. *)
Lemma bind_all_last binds before m after b k v :
  binds m = Some (k, v) ->
  (forall m' v', In m' after -> binds m' <> Some (k, v')) ->
  bind_all binds (before ++ m :: after)%list b !! k = Some v.
Proof.
  intros Hm Hafter.
  transitivity (bind_all binds after (<[k := v]> (bind_all binds before b)) !! k).
  { unfold bind_all. rewrite fold_left_app. cbn [fold_left]. by rewrite Hm. }
  rewrite bind_all_unbound by done. apply lookup_insert_eq.
Qed.

(** The bindings of pass 2 do not depend on the text. *)
Lemma environment_bindings params envVars ms c b :
  snd (fold_left (environmentStep params envVars) ms (c, b)) =
  bind_all
    (fun m =>
       let varName := Str.trim (Str.slice 2 2 m) in
       Some ("__var_" +:+ Str.sanitize varName,
             js_or (js_or (record_get envVars varName) (record_get params varName))
                   (JStr "")))
    ms b.
Proof.
  revert c b. induction ms as [|m ms IH]; intros c b; [done |].
  simpl. apply IH.
Qed.

(** The bindings of pass 3 do not depend on the text. *)
Lemma tag_bindings params blockData blockNameMapping ms c b :
  snd (fold_left (tagStep params blockData blockNameMapping) ms (c, b)) =
  bind_all
    (fun m =>
       let tagName := Str.trim (Str.slice 1 1 m) in
       let tagValue := tagValueOf params blockData blockNameMapping tagName in
       if negb (is_undefined tagValue) && negb (is_str tagValue "")
       then Some ("__tag_" +:+ Str.sanitize tagName, tagValue)
       else None)
    ms b.
Proof.
  revert c b. induction ms as [|m ms IH]; intros c b; [done |].
  unfold bind_all in *. cbn [fold_left].
  destruct (tagStep params blockData blockNameMapping (c, b) m) as [c' b'] eqn:Hs.
  rewrite IH. f_equal. unfold tagStep in Hs.
  destruct (negb _ && negb _); by injection Hs as <- <-.
Qed.

Lemma slice_template name : Str.slice 2 2 ("{{" +:+ name +:+ "}}") = name.
Proof. apply (slice_between "{{" name "}}"). Qed.

Lemma slice_variable name : Str.slice 10 1 ("<variable." +:+ name +:+ ">") = name.
Proof. apply (slice_between "<variable." name ">"). Qed.

Lemma slice_tag path : Str.slice 1 1 ("<" +:+ path +:+ ">") = path.
Proof. apply (slice_between "<" path ">"). Qed.

Lemma environmentStep_eq params envVars c b name :
  environmentStep params envVars (c, b) ("{{" +:+ name +:+ "}}") =
  (replaceAll ("{{" +:+ name +:+ "}}") ("__var_" +:+ Str.sanitize (Str.trim name)) c,
   <["__var_" +:+ Str.sanitize (Str.trim name) :=
       js_or (js_or (record_get envVars (Str.trim name))
                    (record_get params (Str.trim name))) (JStr "")]> b).
Proof. unfold environmentStep. by rewrite slice_template, replace_escaped. Qed.

End Bindings.

(** ** Pass 2: template references *)

(** C5, as the code has it: every match of the template pattern is a
    reference [{{NAME}}] of the code, and its name is NAME trimmed; its
    iteration replaces every occurrence of the reference in the current text
    by the identifier [__var_] plus the sanitized name, and binds that
    identifier to [envVars[NAME] || params[NAME] || ''], the first truthy of
    the two lookups and the empty string when neither is truthy, where a
    lookup reads the entry of the object when it has one and what the object
    inherits under that name when it has none; the binding is always there
    in the end, with the value of the last reference of the code that
    sanitizes to this identifier; and [{{FOO}}] with [envVars.FOO = "bar"]
    is bound to exactly ["bar"]. *)
Theorem template_reference_bound `{RT : Runtime}
    (params envVars : JSRecord) (code : string) (contextVariables : JSRecord) :
  let step := environmentStep params envVars in
  let matches := Regex.match_all Regex.template_ref code in
  let varName m := Str.trim (Str.slice 2 2 m) in
  let identifier m := "__var_" +:+ Str.sanitize (varName m) in
  let value m :=
    js_or (js_or (record_get envVars (varName m)) (record_get params (varName m)))
          (JStr "") in
  let final := resolveEnvironmentVariables code params envVars contextVariables in
  (forall m, In m matches ->
     occurs_in m code /\
     exists name,
       m = "{{" +:+ name +:+ "}}" /\ name <> "" /\ varName m = Str.trim name) /\
  (forall before m after c b,
     matches = (before ++ m :: after)%list ->
     fold_left step before (code, contextVariables) = (c, b) ->
     final =
     fold_left step after
       (replaceAll m (identifier m) c, <[identifier m := value m]> b)) /\
  (forall m,
     In m matches ->
     exists m', In m' matches /\ identifier m' = identifier m /\
                snd final !! identifier m = Some (value m')) /\
  (forall m,
     In m matches ->
     (forall m', In m' matches -> identifier m' = identifier m -> value m' = value m) ->
     snd final !! identifier m = Some (value m)) /\
  (envVars !! "FOO" = Some (JStr "bar") ->
   resolveEnvironmentVariables "{{FOO}}" params envVars ∅
   = ("__var_FOO", {["__var_FOO" := JStr "bar"]})) /\
  (forall before m after,
     matches = (before ++ m :: after)%list ->
     (forall m', In m' after -> identifier m' <> identifier m) ->
     snd final !! identifier m = Some (value m)) /\
  (forall m,
     let fromEnvVars := record_get envVars (varName m) in
     let fromParams := record_get params (varName m) in
     (truthy fromEnvVars = true -> value m = fromEnvVars) /\
     (truthy fromEnvVars = false -> truthy fromParams = true -> value m = fromParams) /\
     (truthy fromEnvVars = false -> truthy fromParams = false -> value m = JStr "") /\
     (forall v, envVars !! varName m = Some v -> fromEnvVars = v) /\
     (envVars !! varName m = None ->
      fromEnvVars = inherited (JObj envVars) (varName m)) /\
     (forall v, params !! varName m = Some v -> fromParams = v) /\
     (params !! varName m = None ->
      fromParams = inherited (JObj params) (varName m))).
Proof.
  intros step matches varName identifier value final.
  assert (forall m,
            In m matches ->
            exists m', In m' matches /\ identifier m' = identifier m /\
                       snd final !! identifier m = Some (value m')) as Hbound.
  { intros m Hin. unfold final, resolveEnvironmentVariables.
    rewrite environment_bindings. fold matches.
    match goal with
    | |- context [bind_all ?f _ _] =>
        destruct (bind_all_bound f matches contextVariables m
                    (identifier m) (value m) Hin eq_refl)
          as (m' & v' & Hin' & Hm' & Hl)
    end.
    exists m'. split; [done |].
    assert (Some (identifier m', value m') = Some (identifier m, v')) as Heq
      by exact Hm'.
    pose proof (f_equal (from_option fst "") Heq) as Hid.
    pose proof (f_equal (from_option snd JUndefined) Heq) as Hv.
    simpl in Hid, Hv. rewrite Hv. split; [exact Hid | exact Hl]. }
  split; [|split; [|split; [|split; [|split; [|split]]]]].
  - intros m Hin.
    destruct (match_all_exact _ _ _ _ template_ref_exact Hin)
      as [(name & -> & Hne & _) Hocc].
    split; [done |]. exists name. unfold varName. by rewrite slice_template.
  - intros before m after c b Hms Hbefore.
    unfold final, resolveEnvironmentVariables. fold matches. rewrite Hms.
    subst step. rewrite fold_left_app, Hbefore. cbn [fold_left].
    unfold environmentStep at 2. by rewrite replace_escaped.
  - exact Hbound.
  - intros m Hin Hsame. destruct (Hbound m Hin) as (m' & Hin' & Hid & ->).
    f_equal. by apply Hsame.
  - intros Hfoo.
    unfold resolveEnvironmentVariables.
    change (Regex.match_all Regex.template_ref "{{FOO}}") with ["{{FOO}}"].
    cbn [fold_left]. unfold environmentStep. rewrite replace_escaped.
    change (Str.trim (Str.slice 2 2 "{{FOO}}")) with "FOO".
    unfold record_get at 1. rewrite Hfoo. reflexivity.
  - intros before m after Hms Hafter.
    unfold final, resolveEnvironmentVariables. rewrite environment_bindings.
    fold matches. rewrite Hms.
    apply bind_all_last; [reflexivity |].
    intros m' v' Hin Heq. apply (Hafter m' Hin).
    exact (f_equal (from_option fst "") Heq).
  - intros m fromEnvVars fromParams. subst fromEnvVars fromParams.
    unfold value, js_or. repeat split.
    + intros He. rewrite He. cbv beta iota. by rewrite He.
    + intros He Hp. rewrite He. cbv beta iota. by rewrite Hp.
    + intros He Hp. rewrite He. cbv beta iota. by rewrite Hp.
    + intros v Hv. unfold record_get. by rewrite Hv.
    + intros Hv. unfold record_get. by rewrite Hv.
    + intros v Hv. unfold record_get. by rewrite Hv.
    + intros Hv. unfold record_get. by rewrite Hv.
Qed.

(** On [{{FOO}}] with [envVars = {FOO: "bar"}] and no [params.FOO]. *)
Lemma template_reference_bound_witness :
  resolveEnvironmentVariables (RT := Sample.runtime) "{{FOO}}"
    (<["_context" := JUndefined]> ∅) (<["FOO" := JStr "bar"]> ∅) ∅
  = ("__var_FOO", {["__var_FOO" := JStr "bar"]})
  /\ snd (resolveEnvironmentVariables (RT := Sample.runtime) "a {{FOO}} b"
            (<["_context" := JUndefined]> ∅) (<["FOO" := JStr "bar"]> ∅) ∅)
       !! "__var_FOO" = Some (JStr "bar").
Proof.
  split.
  - apply (template_reference_bound (RT := Sample.runtime)
             (<["_context" := JUndefined]> ∅) (<["FOO" := JStr "bar"]> ∅) "" ∅).
    reflexivity.
  - refine (proj1 (proj2 (proj2 (proj2
             (template_reference_bound (RT := Sample.runtime)
                (<["_context" := JUndefined]> ∅) (<["FOO" := JStr "bar"]> ∅)
                "a {{FOO}} b" ∅)))) "{{FOO}}" _ _).
    + vm_compute. tauto.
    + intros m' Hin _. vm_compute in Hin. destruct Hin as [<- | []]. reflexivity.
Defined.

(** C5 as worded fails on a falsy parameter: [{{count}}] with
    [params.count = 0] is bound to the empty string, not to 0. *)
Lemma template_falsy_counterexample :
  ~ template_bound_as_stated (RT := Sample.runtime) "return {{count}};"
      (<["count" := JNum (S754_zero false)]> ∅) ∅.
Proof.
  intros H. specialize (H "count"). vm_compute in H.
  specialize (H (or_introl eq_refl)). discriminate.
Qed.

(** ** Pass 3: tag references *)

Section Tags.

Context `{RT : Runtime}.

Lemma split_nonempty sep s : Str.split sep s <> [].
Proof.
  destruct s as [|c s]; simpl; [done |].
  destruct (Ascii.eqb c sep); [done |]. by destruct (Str.split sep s).
Qed.

Lemma join_split sep s : Str.join (String sep "") (Str.split sep s) = s.
Proof.
  induction s as [|c s IH]; [done |].
  simpl. destruct (Ascii.eqb c sep) eqn:Hc.
  - apply Ascii.eqb_eq in Hc as ->.
    pose proof (split_nonempty sep s) as Hne.
    destruct (Str.split sep s) as [|w ws]; [done |].
    change (Str.join (String sep "") ("" :: w :: ws))
      with (String sep (Str.join (String sep "") (w :: ws))).
    by rewrite IH.
  - pose proof (split_nonempty sep s) as Hne.
    destruct (Str.split sep s) as [|w ws]; [done |].
    destruct ws as [|w' ws].
    + simpl in *. by rewrite IH.
    + change (Str.join (String sep "") (String c w :: w' :: ws))
        with (String c (Str.join (String sep "") (w :: w' :: ws))).
      by rewrite IH.
Qed.

Lemma split_first sep block rest :
  Str.includes_char sep block = false ->
  Str.split sep (block +:+ String sep rest) = block :: Str.split sep rest.
Proof.
  induction block as [|c block IH]; intros Hb.
  - rewrite app_empty_l. simpl. by rewrite Ascii.eqb_refl.
  - simpl in Hb. apply orb_false_iff in Hb as [Hc Hb].
    rewrite app_cons. simpl. rewrite Ascii.eqb_sym, Hc, (IH Hb). done.
Qed.

Lemma includes_separator sep block rest :
  Str.includes_char sep (block +:+ String sep rest) = true.
Proof.
  induction block as [|c block IH].
  - rewrite app_empty_l. simpl. by rewrite Ascii.eqb_refl.
  - rewrite app_cons. simpl. rewrite IH. apply orb_true_r.
Qed.

Lemma trimEnd_id s c :
  Str.last s = Some c -> Str.is_space c = false -> Str.trimEnd s = s.
Proof.
  induction s as [|a s IH]; [done |].
  intros Hl Hc. simpl. destruct s as [|d t].
  - injection Hl as ->. simpl. by rewrite Hc.
  - rewrite (IH Hl Hc). done.
Qed.

Lemma word_not_space c : Str.is_word c = true -> Str.is_space c = false.
Proof. by destruct c as [[] [] [] [] [] [] [] []]. Qed.

Lemma ident_start_not_space c : Str.is_ident_start c = true -> Str.is_space c = false.
Proof. by destruct c as [[] [] [] [] [] [] [] []]. Qed.

(** A tag path has no white space to trim. *)
Lemma trim_tag_path path : is_tag_path path = true -> Str.trim path = path.
Proof.
  unfold is_tag_path. destruct path as [|c0 run]; [done |].
  intros H. apply andb_true_iff in H as [H Hl]. apply andb_true_iff in H as [H0 _].
  destruct (Str.last run) as [cl|] eqn:Hlast; [|done].
  unfold Str.trim, Str.trimStart. simpl.
  rewrite (ident_start_not_space _ H0).
  apply (trimEnd_id _ cl); [|by apply word_not_space].
  simpl. rewrite Hlast. by destruct run.
Qed.

Lemma tagStep_unresolved params blockData blockNameMapping c b path :
  is_tag_path path = true ->
  tagValueOf params blockData blockNameMapping path = JUndefined \/
  tagValueOf params blockData blockNameMapping path = JStr "" ->
  tagStep params blockData blockNameMapping (c, b) ("<" +:+ path +:+ ">") = (c, b).
Proof.
  intros Hp Hv. unfold tagStep. rewrite slice_tag, (trim_tag_path _ Hp).
  by destruct Hv as [-> | ->].
Qed.

Lemma tagStep_resolved params blockData blockNameMapping c b path :
  is_tag_path path = true ->
  tagValueOf params blockData blockNameMapping path <> JUndefined ->
  tagValueOf params blockData blockNameMapping path <> JStr "" ->
  tagStep params blockData blockNameMapping (c, b) ("<" +:+ path +:+ ">") =
  (replaceAll ("<" +:+ path +:+ ">") ("__tag_" +:+ Str.sanitize path) c,
   <["__tag_" +:+ Str.sanitize path :=
       tagValueOf params blockData blockNameMapping path]> b).
Proof.
  intros Hp Hu He. unfold tagStep. rewrite slice_tag, (trim_tag_path _ Hp).
  rewrite replace_escaped.
  destruct (tagValueOf params blockData blockNameMapping path) as [| | | |s| | | |];
    try done.
  destruct s; [done |]. done.
Qed.

(** The value of a tag resolved through the name of a block. *)
Lemma tagValueOf_block params blockData blockNameMapping block path blockId data :
  Str.includes_char "." block = false ->
  truthy (getNestedValue (JObj params) (block +:+ "." +:+ path)) = false ->
  truthy (getNestedValue (JObj blockData) (block +:+ "." +:+ path)) = false ->
  blockNameMapping !! Str.toLowerCase block = Some (JStr blockId) ->
  blockId <> "" ->
  blockData !! blockId = Some data ->
  tagValueOf params blockData blockNameMapping (block +:+ "." +:+ path)
  = getNestedValue data path.
Proof.
  change (block +:+ "." +:+ path) with (block +:+ String "." path).
  intros Hb Hp Hd Hmap Hid Hdata. unfold tagValueOf.
  unfold js_or at 2. rewrite Hp. unfold js_or at 1. rewrite Hd.
  change (truthy (JStr "")) with false. cbn [negb andb].
  rewrite includes_separator, (split_first "." block path Hb).
  cbn [hd tl]. rewrite (join_split "." path).
  unfold record_get. rewrite Hmap.
  assert (truthy (JStr blockId) = true) as -> by (by destruct blockId).
  cbn [ToPropertyKey]. by rewrite Hdata.
Qed.

End Tags.

(** ** Pass 1: workflow variables *)

Section WorkflowVariables.

Context `{RT : Runtime}.

Implicit Types (wv : list (string * WorkflowVariable.t)).

Lemma nameMatches_declares variableName entry :
  is_Some (declared_name (snd entry)) ->
  nameMatches variableName (snd entry) = Normal (declares variableName entry).
Proof.
  unfold nameMatches, declares, declared_name. intros [n Hn].
  by destruct (js_or _ _).
Qed.

(** When every name is a string, the search of [find] does not throw and
    returns the first entry that declares the name. *)
Lemma find_entry_find variableName wv :
  names_are_strings wv ->
  find_entry variableName wv = Normal (List.find (declares variableName) wv).
Proof.
  induction 1 as [|entry wv Hentry Hwv IH]; [done |].
  cbn [find_entry List.find]. rewrite (nameMatches_declares _ _ Hentry).
  cbn. by destruct (declares variableName entry).
Qed.

Lemma workflowStep_iteration wv m c b :
  names_are_strings wv ->
  workflowStep wv m (c, b) = Normal (workflow_iteration wv (c, b) m).
Proof.
  intros Hwv. unfold workflowStep, workflow_iteration, first_named.
  rewrite (find_entry_find _ _ Hwv). cbn.
  destruct (List.find _ wv) as [[key variable]|]; cbn; by rewrite replace_escaped.
Qed.

Lemma for_of_iterations wv ms st :
  names_are_strings wv ->
  for_of (workflowStep wv) ms st = Normal (fold_left (workflow_iteration wv) ms st).
Proof.
  intros Hwv. revert st. induction ms as [|m ms IH]; intros [c b]; [done |].
  cbn [for_of fold_left]. rewrite (workflowStep_iteration _ _ _ _ Hwv). cbn. apply IH.
Qed.

Lemma workflow_bindings wv ms c b :
  snd (fold_left (workflow_iteration wv) ms (c, b)) = bind_all (workflow_binds wv) ms b.
Proof.
  revert c b. induction ms as [|m ms IH]; intros c b; [done |].
  unfold bind_all in *. cbn [fold_left].
  destruct (workflow_iteration wv (c, b) m) as [c' b'] eqn:Hs.
  rewrite IH. f_equal. unfold workflow_iteration in Hs. unfold workflow_binds.
  destruct (first_named _ wv); by injection Hs as <- <-.
Qed.

(** The coercion table. *)
Lemma coerced_table variable :
  let v := WorkflowVariable.value variable in
  let t := WorkflowVariable.type variable in
  (v = JUndefined \/ v = JNull -> coerced variable = v) /\
  (v <> JUndefined -> v <> JNull ->
   (t = JStr "string" -> coerced variable = v) /\
   (t = JStr "number" -> coerced variable = JNum (Number v)) /\
   (t = JStr "boolean" ->
    (v = JStr "true" \/ v = JBool true -> coerced variable = JBool true) /\
    (v <> JStr "true" -> v <> JBool true -> coerced variable = JBool false)) /\
   (t = JStr "json" ->
    (forall s parsed, v = JStr s -> JSON_parse s = Some parsed ->
                      coerced variable = parsed) /\
    (forall s, v = JStr s -> JSON_parse s = None -> coerced variable = v) /\
    ((forall s, v <> JStr s) -> coerced variable = v))).
Proof.
  destruct variable as [n t v]. cbn. unfold coerced. cbn. split.
  - by intros [-> | ->].
  - intros Hu Hn.
    assert (negb (is_undefined v) && negb (is_null v) = true) as ->
      by (by destruct v).
    split; [|split; [|split]].
    + intros ->. cbn. by destruct v.
    + intros ->. reflexivity.
    + intros ->. split.
      * intros [-> | ->]; reflexivity.
      * intros Hs Hb. cbn. f_equal.
        destruct v as [| | [] | | s | | | |]; try done.
        unfold is_str. destruct (String.eqb_spec s "true") as [-> | Hne]; done.
    + intros ->. split; [|split].
      * intros s parsed -> Hp. cbn. by rewrite Hp.
      * intros s -> Hp. cbn. by rewrite Hp.
      * intros Hs. cbn. destruct v; try done. by destruct (Hs s).
Qed.

End WorkflowVariables.

Lemma for_of_app {S : Type} (body : string -> S -> Completion S) l1 l2 st :
  for_of body (l1 ++ l2) st = (st' ← for_of body l1 st; for_of body l2 st').
Proof.
  revert st. induction l1 as [|x l1 IH]; intros st; [done |].
  cbn [app for_of]. destruct (body x st) as [st'|e]; cbn; [apply IH | done].
Qed.




(** ** The phases of [executeFunction] *)

(** Case analysis on the conditions the policy checks combine, for a
    hypothesis [Hp] on what the checks yield. *)
Ltac policy_cases Hp :=
  cbv zeta in *;
  repeat match type of Hp with
         | context [isTruthy ?x] => destruct (isTruthy x)
         | context [String.eqb ?a ?b] => destruct (String.eqb a b)
         | context [test_import ?c || test_require ?c] =>
             destruct (test_import c || test_require c)
         | context [default false ?o] => destruct (default false o)
         end;
  cbn [andb orb negb] in *; try congruence.

Section Phases.

Context `{RT : Runtime}.

Implicit Types (cfg : Config) (input : Input.t) (e : JSValue).

Lemma try_block_resolution_throws cfg input e :
  resolve_request input = Throw e ->
  try_block cfg input
  = {| events := [ResolverInvoked]; captured := ""; completion := Throw e |}.
Proof. unfold resolve_request, try_block. by intros ->. Qed.

Lemma try_block_policy_throws cfg input resolvedCode contextVariables e :
  resolve_request input = Normal (resolvedCode, contextVariables) ->
  policy cfg input resolvedCode = Some e ->
  try_block cfg input
  = {| events := [ResolverInvoked]; captured := ""; completion := Throw e |}.
Proof.
  unfold resolve_request, try_block, policy, hasImports_of, requested_language.
  intros -> Hp. policy_cases Hp.
Qed.

Lemma try_block_compile_throws cfg input resolvedCode contextVariables e :
  resolve_request input = Normal (resolvedCode, contextVariables) ->
  policy cfg input resolvedCode = None ->
  Script_new (fullScript resolvedCode) = Some e ->
  try_block cfg input
  = {| events := [ResolverInvoked; ContextCreated; ScriptCompiled];
       captured := ""; completion := Throw e |}.
Proof.
  unfold resolve_request, try_block, policy, hasImports_of, requested_language.
  intros -> Hp Hc. policy_cases Hp; by rewrite Hc.
Qed.

Lemma try_block_runs cfg input resolvedCode contextVariables :
  resolve_request input = Normal (resolvedCode, contextVariables) ->
  policy cfg input resolvedCode = None ->
  Script_new (fullScript resolvedCode) = None ->
  try_block cfg input
  = {| events := [ResolverInvoked; ContextCreated; ScriptCompiled; ScriptRun];
       captured :=
         fold_left console (calls (local_run cfg input resolvedCode contextVariables)) "";
       completion :=
         match settled (local_run cfg input resolvedCode contextVariables) with
         | Fulfilled result => Normal result
         | Rejected e => Throw e
         end |}.
Proof.
  unfold resolve_request, try_block, policy, hasImports_of, requested_language.
  intros -> Hp Hc. policy_cases Hp; by rewrite Hc.
Qed.

Lemma is_str_false v lit : v <> JStr lit -> is_str v lit = false.
Proof.
  destruct v as [| | | |s| | | |]; try done.
  intros Hne. simpl. destruct (String.eqb_spec s lit); congruence.
Qed.

(** The handler turns a caught error whose message is not the sentinel into
    a failure envelope. *)
Lemma handler_envelopes cfg input e message :
  completion (try_block cfg input) = Throw e ->
  message_of e = Normal message ->
  message <> JStr USE_HTTP_ROUTE ->
  snd (executeFunction cfg input)
  = Returned (failure_envelope (cleanStdout (captured (try_block cfg input))) elapsed
                               (js_or message (JStr "Function execution failed"))).
Proof.
  intros Hc Hm Hne. unfold executeFunction. cbn [snd]. rewrite Hc, Hm.
  by rewrite (is_str_false _ _ Hne).
Qed.

(** The handler rethrows a caught error whose message is the sentinel. *)
Lemma handler_rethrows cfg input e :
  completion (try_block cfg input) = Throw e ->
  message_of e = Normal (JStr USE_HTTP_ROUTE) ->
  snd (executeFunction cfg input) = Threw e.
Proof.
  intros Hc Hm. unfold executeFunction. cbn [snd]. by rewrite Hc, Hm.
Qed.

Lemma handler_returns cfg input result :
  completion (try_block cfg input) = Normal result ->
  snd (executeFunction cfg input)
  = Returned (success_envelope result (cleanStdout (captured (try_block cfg input)))
                               elapsed).
Proof. intros Hc. unfold executeFunction. cbn [snd]. by rewrite Hc. Qed.

(** With string names the resolution completes. *)
Lemma resolution_completes code params envVars blockData blockNameMapping
    (wv : list (string * WorkflowVariable.t)) :
  names_are_strings wv ->
  exists resolvedCode contextVariables,
    resolveCodeVariables code params envVars blockData blockNameMapping wv
    = Normal (resolvedCode, contextVariables).
Proof.
  intros Hwv. unfold resolveCodeVariables, resolveWorkflowVariables.
  rewrite (for_of_iterations _ _ _ Hwv).
  destruct (fold_left _ _ _) as [c1 b1]. cbn.
  destruct (resolveEnvironmentVariables _ _ _ _) as [c2 b2].
  destruct (resolveTagVariables _ _ _ _ _) as [c3 b3]. eauto.
Qed.

Lemma execute_events cfg input :
  fst (executeFunction cfg input) = events (try_block cfg input).
Proof. reflexivity. Qed.

End Phases.

(** ** The policy checks *)

(** C1, as the code has it: for a Python request the resolver runs first,
    and no context is built and no script compiled or run as long as E2B is
    disabled or the request is no custom tool; the resolution completes
    whenever the names of the workflow variables are strings or falsy; once
    it has completed, the request is refused with a failure envelope when
    E2B is disabled, and delegation is signalled when E2B is enabled and the
    request is no custom tool; when the resolution throws instead, what
    comes back is the failure envelope of the error it threw. *)
Theorem python_request_gated `{RT : Runtime} (cfg : Config) (input : Input.t) :
  requested_language input = CodeLanguage.Python ->
  let e2bEnabled := isTruthy (E2B_ENABLED cfg) in
  let isCustomTool := default false (Input.isCustomTool input) in
  (e2bEnabled = false \/ isCustomTool = false ->
   fst (executeFunction cfg input) = [ResolverInvoked]) /\
  (forall resolvedCode contextVariables,
     resolve_request input = Normal (resolvedCode, contextVariables) ->
     (e2bEnabled = false ->
      snd (executeFunction cfg input)
      = Returned (failure_envelope "" elapsed (JStr PYTHON_REQUIRES_E2B))) /\
     (e2bEnabled = true -> isCustomTool = false ->
      snd (executeFunction cfg input) = Threw delegation_signal)) /\
  (names_are_strings (default [] (Input.workflowVariables input)) ->
   exists resolvedCode contextVariables,
     resolve_request input = Normal (resolvedCode, contextVariables)) /\
  (forall e message,
     resolve_request input = Throw e ->
     message_of e = Normal message ->
     message <> JStr USE_HTTP_ROUTE ->
     executeFunction cfg input
     = ([ResolverInvoked],
        Returned (failure_envelope "" elapsed
                    (js_or message (JStr "Function execution failed"))))).
Proof.
  intros Hlang e2bEnabled isCustomTool.
  assert (forall resolvedCode,
            e2bEnabled = false ->
            policy cfg input resolvedCode = Some (new_Error PYTHON_REQUIRES_E2B)) as Hoff.
  { intros resolvedCode He. unfold policy. fold e2bEnabled. by rewrite Hlang, He. }
  assert (forall resolvedCode,
            e2bEnabled = true -> isCustomTool = false ->
            policy cfg input resolvedCode = Some delegation_signal) as Hon.
  { intros resolvedCode He Hc. unfold policy. fold e2bEnabled isCustomTool.
    rewrite Hlang, He, Hc. cbn [negb]. by rewrite !andb_false_r. }
  split; [|split; [|split]].
  - intros Hgate. rewrite execute_events.
    destruct (resolve_request input) as [[resolvedCode contextVariables]|e] eqn:Hr.
    + destruct e2bEnabled eqn:He.
      * destruct Hgate as [? | Hc]; [done |].
        by rewrite (try_block_policy_throws _ _ _ _ _ Hr (Hon resolvedCode eq_refl Hc)).
      * by rewrite (try_block_policy_throws _ _ _ _ _ Hr (Hoff resolvedCode eq_refl)).
    + by rewrite (try_block_resolution_throws _ _ _ Hr).
  - intros resolvedCode contextVariables Hr. split.
    + intros He.
      pose proof (try_block_policy_throws _ _ _ _ _ Hr (Hoff resolvedCode He)) as Ht.
      rewrite (handler_envelopes cfg input (new_Error PYTHON_REQUIRES_E2B)
                 (JStr PYTHON_REQUIRES_E2B)); rewrite ?Ht; done.
    + intros He Hc.
      pose proof (try_block_policy_throws _ _ _ _ _ Hr (Hon resolvedCode He Hc)) as Ht.
      apply handler_rethrows; by rewrite ?Ht.
  - intros Hwv. unfold resolve_request. by apply resolution_completes.
  - intros e message Hr Hm Hne.
    pose proof (try_block_resolution_throws cfg input e Hr) as Ht.
    rewrite (surjective_pairing (executeFunction cfg input)), execute_events.
    rewrite (handler_envelopes cfg input e message); rewrite ?Ht; done.
Qed.

(** On the Python request ["print(1)"], with E2B disabled and enabled, and
    on a Python request whose variable has the number 7 for its name. *)
Lemma python_request_gated_witness :
  let input := Sample.request "print(1)" (Some "python") in
  let malformed :=
    {| Input.code := "return <variable.x>"; Input.params := None;
       Input.timeout := None; Input.language := Some "python";
       Input.envVars := None; Input.blockData := None;
       Input.blockNameMapping := None;
       Input.workflowVariables :=
         Some [("id", {| WorkflowVariable.name := JNum (num_of_nat 7);
                         WorkflowVariable.type := JStr "plain";
                         WorkflowVariable.value := JStr "v" |})];
       Input.workflowId := None; Input.isCustomTool := None |} in
  executeFunction (RT := Sample.runtime) Sample.e2b_off input
  = ([ResolverInvoked], Sample.failure PYTHON_REQUIRES_E2B "") /\
  executeFunction (RT := Sample.runtime) Sample.e2b_on input
  = ([ResolverInvoked], Threw delegation_signal) /\
  executeFunction (RT := Sample.runtime) Sample.e2b_on malformed
  = ([ResolverInvoked],
     Sample.failure "(intermediate value).replace is not a function" "").
Proof.
  intros input malformed.
  destruct (python_request_gated (RT := Sample.runtime) Sample.e2b_off input eq_refl)
    as (Hev_off & Hout_off & _).
  destruct (python_request_gated (RT := Sample.runtime) Sample.e2b_on input eq_refl)
    as (Hev_on & Hout_on & Hcompletes & _).
  destruct (python_request_gated (RT := Sample.runtime) Sample.e2b_on malformed eq_refl)
    as (_ & _ & _ & Hthrows).
  split; [|split].
  - rewrite (surjective_pairing (executeFunction _ _)).
    rewrite Hev_off by (left; reflexivity).
    by rewrite (proj1 (Hout_off "print(1)" ∅ eq_refl) eq_refl).
  - destruct (Hcompletes (List.Forall_nil _)) as (resolvedCode & contextVariables & Hr).
    rewrite (surjective_pairing (executeFunction _ _)).
    rewrite Hev_on by (right; reflexivity).
    by rewrite (proj2 (Hout_on resolvedCode contextVariables Hr) eq_refl eq_refl).
  - rewrite (Hthrows (TypeError (RT := Sample.runtime) NotAFunction)
               (JStr "(intermediate value).replace is not a function")
               eq_refl eq_refl); [reflexivity |].
    intros Heq. cbv in Heq. discriminate Heq.
Defined.

(** C1 as worded fails with E2B disabled: the resolver has run and the
    request comes back as a failure envelope, not as a delegation. *)
Lemma python_refused_counterexample :
  ~ python_delegated_as_stated (RT := Sample.runtime) Sample.e2b_off
      (Sample.request "print(1)" (Some "python")).
Proof. intros H. specialize (H eq_refl). vm_compute in H. discriminate. Qed.

Example import_detected :
  test_import "import fs from 'fs';" = true /\
  test_import (LF +:+ "import x from 'y'") = true /\
  test_import "const a = 1; import x from 'y'" = false /\
  test_import "  import x from 'y'" = false /\
  test_require "const fs = require ( 'fs' )" = true /\
  test_require "require(name)" = false.
Proof. repeat split. Qed.

(** C2, as the code has it: for a JavaScript request whose resolved code
    matches the import or the [require] pattern, no context is built and no
    script compiled or run as long as E2B is disabled or the request is no
    custom tool; the request is refused with a failure envelope when E2B is
    disabled, and the delegation signal, an error whose message is
    [__USE_HTTP_ROUTE__] and which carries no reason, is thrown when E2B is
    enabled and the request is no custom tool; on reference-free code the
    resolved code is the source text. *)
Theorem import_request_gated `{RT : Runtime} (cfg : Config) (input : Input.t)
    (resolvedCode : string) (contextVariables : JSRecord) :
  requested_language input = CodeLanguage.JavaScript ->
  resolve_request input = Normal (resolvedCode, contextVariables) ->
  test_import resolvedCode || test_require resolvedCode = true ->
  let e2bEnabled := isTruthy (E2B_ENABLED cfg) in
  let isCustomTool := default false (Input.isCustomTool input) in
  (e2bEnabled = false ->
   executeFunction cfg input
   = ([ResolverInvoked],
      Returned (failure_envelope "" elapsed (JStr IMPORTS_REQUIRE_E2B)))) /\
  (e2bEnabled = true -> isCustomTool = false ->
   executeFunction cfg input = ([ResolverInvoked], Threw delegation_signal)) /\
  (reference_free (Input.code input) -> resolvedCode = Input.code input).
Proof.
  intros Hlang Hr Himp e2bEnabled isCustomTool.
  assert (hasImports_of input resolvedCode = true) as Hhas.
  { unfold hasImports_of. by rewrite Hlang, Himp. }
  assert (String.eqb (requested_language input) CodeLanguage.Python = false) as Hpy.
  { by rewrite Hlang. }
  split; [|split].
  - intros He.
    assert (policy cfg input resolvedCode = Some (new_Error IMPORTS_REQUIRE_E2B)) as Hp.
    { unfold policy. fold e2bEnabled. by rewrite Hpy, Hhas, He. }
    pose proof (try_block_policy_throws _ _ _ _ _ Hr Hp) as Ht.
    rewrite (surjective_pairing (executeFunction cfg input)), execute_events.
    rewrite (handler_envelopes cfg input (new_Error IMPORTS_REQUIRE_E2B)
               (JStr IMPORTS_REQUIRE_E2B)); rewrite ?Ht; done.
  - intros He Hc.
    assert (policy cfg input resolvedCode = Some delegation_signal) as Hp.
    { unfold policy. fold e2bEnabled isCustomTool. rewrite Hpy, Hhas, He, Hc.
      reflexivity. }
    pose proof (try_block_policy_throws _ _ _ _ _ Hr Hp) as Ht.
    rewrite (surjective_pairing (executeFunction cfg input)), execute_events.
    rewrite (handler_rethrows cfg input delegation_signal); rewrite ?Ht; done.
  - intros Hfree. unfold resolve_request in Hr.
    rewrite (resolve_reference_free _ _ _ _ _ _ Hfree) in Hr. by injection Hr as <- _.
Qed.

(** On ["import fs from 'fs';"], with E2B disabled and enabled. *)
Lemma import_request_gated_witness :
  let input := Sample.request "import fs from 'fs';" (Some "javascript") in
  executeFunction (RT := Sample.runtime) Sample.e2b_off input
  = ([ResolverInvoked], Sample.failure IMPORTS_REQUIRE_E2B "") /\
  executeFunction (RT := Sample.runtime) Sample.e2b_on input
  = ([ResolverInvoked], Threw delegation_signal).
Proof.
  intros input. split.
  - apply (import_request_gated (RT := Sample.runtime) Sample.e2b_off input
             "import fs from 'fs';" ∅ eq_refl eq_refl eq_refl).
    reflexivity.
  - apply (import_request_gated (RT := Sample.runtime) Sample.e2b_on input
             "import fs from 'fs';" ∅ eq_refl eq_refl eq_refl); reflexivity.
Defined.

(** C2 as worded fails with E2B disabled: the request comes back as a normal
    failure envelope. *)
Lemma import_refused_counterexample :
  ~ imports_delegated_as_stated (RT := Sample.runtime) Sample.e2b_off
      (Sample.request "import fs from 'fs';" (Some "javascript")).
Proof.
  intros H. destruct (H eq_refl eq_refl) as [[e He] _].
  vm_compute in He. discriminate.
Qed.

(** ** The result envelope *)

Example console_ex :
  fold_left (console (RT := Sample.runtime))
    [ {| method := Log; args := [JStr "a"; JBool true; JNull] |};
      {| method := Warn; args := [JUndefined] |} ] ""
  = "a true null" +:+ LF +:+ "[WARN] undefined" +:+ LF.
Proof. reflexivity. Qed.

(** C3, as the code has it: an error thrown by the resolution, by the
    compilation or by the run, when it has a message other than
    [__USE_HTTP_ROUTE__], comes back as a failure envelope whose error is the
    message (or a default when the message is falsy) and whose stdout is
    what the console calls made before the failure printed, less one
    trailing newline; nothing is captured before the script runs. An error
    whose message is [__USE_HTTP_ROUTE__] is rethrown, whether the
    resolution, the policy checks, the compilation or the run threw it. *)
Theorem failure_enveloped `{RT : Runtime} (cfg : Config) (input : Input.t)
    (e message : JSValue) :
  message_of e = Normal message ->
  let error := js_or message (JStr "Function execution failed") in
  (message <> JStr USE_HTTP_ROUTE ->
   (resolve_request input = Throw e ->
    snd (executeFunction cfg input) = Returned (failure_envelope "" elapsed error)) /\
   (forall resolvedCode contextVariables,
      resolve_request input = Normal (resolvedCode, contextVariables) ->
      policy cfg input resolvedCode = None ->
      (Script_new (fullScript resolvedCode) = Some e ->
       snd (executeFunction cfg input) = Returned (failure_envelope "" elapsed error)) /\
      (Script_new (fullScript resolvedCode) = None ->
       let run := local_run cfg input resolvedCode contextVariables in
       settled run = Rejected e ->
       snd (executeFunction cfg input)
       = Returned (failure_envelope (cleanStdout (fold_left console (calls run) ""))
                                    elapsed error)))) /\
  (message = JStr USE_HTTP_ROUTE ->
   (resolve_request input = Throw e ->
    executeFunction cfg input = ([ResolverInvoked], Threw e)) /\
   (forall resolvedCode contextVariables,
      resolve_request input = Normal (resolvedCode, contextVariables) ->
      (policy cfg input resolvedCode = Some e ->
       executeFunction cfg input = ([ResolverInvoked], Threw e)) /\
      (policy cfg input resolvedCode = None ->
       (Script_new (fullScript resolvedCode) = Some e ->
        executeFunction cfg input
        = ([ResolverInvoked; ContextCreated; ScriptCompiled], Threw e)) /\
       (Script_new (fullScript resolvedCode) = None ->
        settled (local_run cfg input resolvedCode contextVariables) = Rejected e ->
        executeFunction cfg input
        = ([ResolverInvoked; ContextCreated; ScriptCompiled; ScriptRun], Threw e)))) /\
   (completion (try_block cfg input) = Throw e ->
    snd (executeFunction cfg input) = Threw e)) /\
  (forall stdout, cleanStdout (stdout +:+ LF) = stdout).
Proof.
  intros Hm error. split; [|split].
  - intros Hne. split.
    + intros Hr. pose proof (try_block_resolution_throws cfg input e Hr) as Ht.
      rewrite (handler_envelopes cfg input e message); rewrite ?Ht; done.
    + intros resolvedCode contextVariables Hr Hp. split.
      * intros Hc. pose proof (try_block_compile_throws _ _ _ _ _ Hr Hp Hc) as Ht.
        rewrite (handler_envelopes cfg input e message); rewrite ?Ht; done.
      * intros Hc run Hs. pose proof (try_block_runs _ _ _ _ Hr Hp Hc) as Ht.
        fold run in Ht. rewrite Hs in Ht.
        rewrite (handler_envelopes cfg input e message); rewrite ?Ht; done.
  - intros ->.
    assert (forall trace stdout,
              try_block cfg input
              = {| events := trace; captured := stdout; completion := Throw e |} ->
              executeFunction cfg input = (trace, Threw e)) as Hrethrown.
    { intros trace stdout Ht.
      rewrite (surjective_pairing (executeFunction cfg input)), execute_events.
      rewrite (handler_rethrows cfg input e); rewrite ?Ht; done. }
    split; [|split].
    + intros Hr. by eapply Hrethrown, try_block_resolution_throws.
    + intros resolvedCode contextVariables Hr. split.
      * intros Hp. by eapply Hrethrown, try_block_policy_throws.
      * intros Hp. split.
        -- intros Hc. by eapply Hrethrown, try_block_compile_throws.
        -- intros Hc Hs. pose proof (try_block_runs _ _ _ _ Hr Hp Hc) as Ht.
           rewrite Hs in Ht. by eapply Hrethrown.
    + intros Hc. by apply handler_rethrows.
  - apply cleanStdout_newline.
Qed.

(** On a script that logs and then throws an error with the message
    [boom], and on one that throws an error with the message
    [__USE_HTTP_ROUTE__]. *)
Lemma failure_enveloped_witness :
  snd (executeFunction (RT := Sample.runtime) Sample.e2b_off
         (Sample.request "console.log('before'); throw new Error('boom');" None))
  = Sample.failure "boom" ("before" +:+ LF +:+ "[ERROR] {}") /\
  executeFunction (RT := Sample.runtime) Sample.e2b_off
    (Sample.request "throw new Error('__USE_HTTP_ROUTE__');" None)
  = ([ResolverInvoked; ContextCreated; ScriptCompiled; ScriptRun],
     Threw Sample.sentinel_error).
Proof.
  split.
  - destruct (failure_enveloped (RT := Sample.runtime) Sample.e2b_off
                (Sample.request "console.log('before'); throw new Error('boom');" None)
                Sample.boom (JStr "boom") eq_refl) as [Henveloped _].
    destruct Henveloped as [_ Hphase]; [discriminate |].
    destruct (Hphase "console.log('before'); throw new Error('boom');" ∅
                eq_refl eq_refl) as [_ Hrun].
    exact (Hrun eq_refl eq_refl).
  - destruct (failure_enveloped (RT := Sample.runtime) Sample.e2b_off
                (Sample.request "throw new Error('__USE_HTTP_ROUTE__');" None)
                Sample.sentinel_error (JStr USE_HTTP_ROUTE) eq_refl)
      as (_ & Hrethrown & _).
    destruct (Hrethrown eq_refl) as (_ & Hphase & _).
    destruct (Hphase "throw new Error('__USE_HTTP_ROUTE__');" ∅ eq_refl)
      as [_ Hlocal].
    destruct (Hlocal eq_refl) as [_ Hrun].
    exact (Hrun eq_refl eq_refl).
Defined.

(** C3 as worded fails on a script that throws an error whose message is
    [__USE_HTTP_ROUTE__]: the error reaches the caller. *)
Lemma failure_escapes_counterexample :
  ~ failures_enveloped_as_stated (RT := Sample.runtime) Sample.e2b_off
      (Sample.request "throw new Error('__USE_HTTP_ROUTE__');" None).
Proof.
  intros H. destruct (H Sample.sentinel_error) as (executionTime & error & He).
  - right. split; [vm_compute; tauto | reflexivity].
  - vm_compute in He. discriminate.
Qed.

(** What a script that throws [null] leads to: the handler itself throws,
    reading the message of [null]. *)
Example throw_null_ex :
  snd (executeFunction (RT := Sample.runtime) Sample.e2b_off
         (Sample.request "throw null;" None))
  = Threw (JErr "TypeError" "Cannot read properties of null (reading 'message')").
Proof. reflexivity. Qed.

(** The runs of the example runtime are what the fragment's semantics
    computes, for every script of its table that the fragment covers. *)
Example sample_behaviours_computed :
  Forall (fun entry =>
            fst entry = "print(1)" \/
            Engine.run (fullScript (fst entry))
                       {| capabilities := capabilityNames; bindings := ∅ |}
            = Some (snd entry))
         Sample.behaviours.
Proof. repeat constructor; vm_compute; tauto. Qed.

(** C7: a local run that fulfils with a value comes back as a success
    envelope with that value and with what the console calls printed, less
    exactly one trailing newline; on a host that runs the scripts of the
    fragment as the language says, and with a positive default timeout, the
    request with the code ["return 1+1;"] comes back with the result 2 and an
    empty stdout, and the request with the code
    ["console.log('hi'); return 42;"] with the result 42 and the stdout
    ["hi"], both after the script was compiled and run. *)
Theorem local_run_returned `{RT : Runtime} (cfg : Config) :
  runs_the_fragment ->
  (0 < DEFAULT_EXECUTION_TIMEOUT_MS cfg)%Z ->
  (forall input resolvedCode contextVariables result,
     resolve_request input = Normal (resolvedCode, contextVariables) ->
     policy cfg input resolvedCode = None ->
     Script_new (fullScript resolvedCode) = None ->
     let run := local_run cfg input resolvedCode contextVariables in
     settled run = Fulfilled result ->
     executeFunction cfg input
     = ([ResolverInvoked; ContextCreated; ScriptCompiled; ScriptRun],
        Returned (success_envelope result
                    (cleanStdout (fold_left console (calls run) "")) elapsed))) /\
  (forall input resolvedCode contextVariables outcome result,
     resolve_request input = Normal (resolvedCode, contextVariables) ->
     policy cfg input resolvedCode = None ->
     (0 < default (DEFAULT_EXECUTION_TIMEOUT_MS cfg) (Input.timeout input))%Z ->
     Engine.run (fullScript resolvedCode)
                {| capabilities := capabilityNames; bindings := contextVariables |}
     = Some outcome ->
     settled outcome = Fulfilled result ->
     executeFunction cfg input
     = ([ResolverInvoked; ContextCreated; ScriptCompiled; ScriptRun],
        Returned (success_envelope result
                    (cleanStdout (fold_left console (calls outcome) "")) elapsed))) /\
  (forall stdout, cleanStdout (stdout +:+ LF) = stdout) /\
  executeFunction cfg (Sample.request "return 1+1;" (Some CodeLanguage.JavaScript))
  = ([ResolverInvoked; ContextCreated; ScriptCompiled; ScriptRun],
     Returned (success_envelope (JNum (num_of_nat 2)) "" elapsed)) /\
  executeFunction cfg
    (Sample.request "console.log('hi'); return 42;" (Some CodeLanguage.JavaScript))
  = ([ResolverInvoked; ContextCreated; ScriptCompiled; ScriptRun],
     Returned (success_envelope (JNum (num_of_nat 42)) "hi" elapsed)).
Proof.
  intros Hfragment Htimeout.
  assert (forall input resolvedCode contextVariables result,
            resolve_request input = Normal (resolvedCode, contextVariables) ->
            policy cfg input resolvedCode = None ->
            Script_new (fullScript resolvedCode) = None ->
            settled (local_run cfg input resolvedCode contextVariables)
            = Fulfilled result ->
            executeFunction cfg input
            = ([ResolverInvoked; ContextCreated; ScriptCompiled; ScriptRun],
               Returned
                 (success_envelope result
                    (cleanStdout
                       (fold_left console
                          (calls (local_run cfg input resolvedCode contextVariables)) ""))
                    elapsed))) as Hrun.
  { intros input resolvedCode contextVariables result Hr Hp Hc Hs.
    pose proof (try_block_runs _ _ _ _ Hr Hp Hc) as Ht. rewrite Hs in Ht.
    rewrite (surjective_pairing (executeFunction cfg input)), execute_events.
    rewrite (handler_returns cfg input result); rewrite ?Ht; done. }
  assert (forall input resolvedCode contextVariables outcome result,
            resolve_request input = Normal (resolvedCode, contextVariables) ->
            policy cfg input resolvedCode = None ->
            (0 < default (DEFAULT_EXECUTION_TIMEOUT_MS cfg) (Input.timeout input))%Z ->
            Engine.run (fullScript resolvedCode)
                       {| capabilities := capabilityNames; bindings := contextVariables |}
            = Some outcome ->
            settled outcome = Fulfilled result ->
            executeFunction cfg input
            = ([ResolverInvoked; ContextCreated; ScriptCompiled; ScriptRun],
               Returned (success_envelope result
                           (cleanStdout (fold_left console (calls outcome) ""))
                           elapsed))) as Hcomputed.
  { intros input resolvedCode contextVariables outcome result Hr Hp Ht He Hs.
    destruct (Hfragment _ _ _ _ Ht He) as [Hc Hran].
    rewrite (Hrun input resolvedCode contextVariables result Hr Hp Hc);
      unfold local_run; by rewrite Hran. }
  assert (forall code,
            test_import code || test_require code = false ->
            policy cfg (Sample.request code (Some CodeLanguage.JavaScript)) code = None)
    as Hlocal.
  { intros code Hno. unfold policy, hasImports_of. rewrite Hno.
    change (requested_language (Sample.request code (Some CodeLanguage.JavaScript)))
      with CodeLanguage.JavaScript.
    cbn. by rewrite andb_false_r. }
  split; [|split; [|split; [|split]]].
  - intros input resolvedCode contextVariables result Hr Hp Hc run. by apply Hrun.
  - exact Hcomputed.
  - apply cleanStdout_newline.
  - apply (Hcomputed _ "return 1+1;" ∅
             {| calls := []; settled := Fulfilled (JNum (num_of_nat 2)) |});
      [reflexivity | by apply Hlocal | exact Htimeout | vm_compute; reflexivity
      | reflexivity].
  - apply (Hcomputed _ "console.log('hi'); return 42;" ∅
             {| calls := [ {| method := Log; args := [JStr "hi"] |} ];
                settled := Fulfilled (JNum (num_of_nat 42)) |});
      [reflexivity | by apply Hlocal | exact Htimeout | vm_compute; reflexivity
      | reflexivity].
Qed.

(** On the runtime whose [vm] module is the fragment's semantics, with the
    default timeout of five seconds. *)
Lemma local_run_returned_witness :
  executeFunction (RT := fragment_runtime) Sample.e2b_off
    (Sample.request "return 1+1;" (Some "javascript"))
  = ([ResolverInvoked; ContextCreated; ScriptCompiled; ScriptRun],
     Returned (success_envelope (JNum Sample.two) "" 7)) /\
  executeFunction (RT := fragment_runtime) Sample.e2b_off
    (Sample.request "console.log('hi'); return 42;" (Some "javascript"))
  = ([ResolverInvoked; ContextCreated; ScriptCompiled; ScriptRun],
     Returned (success_envelope (JNum Sample.forty_two) "hi" 7)).
Proof.
  assert (runs_the_fragment (RT := fragment_runtime)) as Hfragment.
  { intros script context timeout outcome _ Hrun. split; [reflexivity |].
    cbn [runInContext fragment_runtime]. by rewrite Hrun. }
  pose proof (local_run_returned (RT := fragment_runtime) Sample.e2b_off
                Hfragment eq_refl) as (_ & _ & _ & Hsum & Hlog).
  split; [exact Hsum | exact Hlog].
Defined.

(** ** The delegation signal *)

(** C9: the signal of the policy checks is the error whose message is
    [__USE_HTTP_ROUTE__]; the handler rethrows every caught error with
    exactly that message; so a script that throws such an error itself
    reaches the caller with the very outcome of a delegation, although it
    has been run; and no other exception reaches the caller, but for the
    fault of reading the message of a thrown [null] or [undefined]. *)
Theorem sentinel_message_is_the_signal `{RT : Runtime} (cfg : Config) (input : Input.t) :
  delegation_signal = JErr "Error" "__USE_HTTP_ROUTE__" /\
  (forall resolvedCode contextVariables,
     resolve_request input = Normal (resolvedCode, contextVariables) ->
     policy cfg input resolvedCode = Some delegation_signal ->
     executeFunction cfg input = ([ResolverInvoked], Threw delegation_signal)) /\
  (forall e,
     completion (try_block cfg input) = Throw e ->
     message_of e = Normal (JStr USE_HTTP_ROUTE) ->
     snd (executeFunction cfg input) = Threw e) /\
  (forall resolvedCode contextVariables,
     resolve_request input = Normal (resolvedCode, contextVariables) ->
     policy cfg input resolvedCode = None ->
     Script_new (fullScript resolvedCode) = None ->
     settled (local_run cfg input resolvedCode contextVariables)
     = Rejected (JErr "Error" USE_HTTP_ROUTE) ->
     executeFunction cfg input
     = ([ResolverInvoked; ContextCreated; ScriptCompiled; ScriptRun],
        Threw delegation_signal)) /\
  (forall e,
     snd (executeFunction cfg input) = Threw e ->
     message_of e = Normal (JStr USE_HTTP_ROUTE) \/
     exists thrown,
       completion (try_block cfg input) = Throw thrown /\
       (thrown = JNull \/ thrown = JUndefined) /\ e = TypeError ReadOfNullish).
Proof.
  split; [reflexivity |]. split; [|split; [|split]].
  - intros resolvedCode contextVariables Hr Hp.
    pose proof (try_block_policy_throws _ _ _ _ _ Hr Hp) as Ht.
    rewrite (surjective_pairing (executeFunction cfg input)), execute_events.
    rewrite (handler_rethrows cfg input delegation_signal); rewrite ?Ht; done.
  - apply handler_rethrows.
  - intros resolvedCode contextVariables Hr Hp Hc Hs.
    pose proof (try_block_runs _ _ _ _ Hr Hp Hc) as Ht. rewrite Hs in Ht.
    rewrite (surjective_pairing (executeFunction cfg input)), execute_events.
    rewrite (handler_rethrows cfg input delegation_signal); rewrite ?Ht; done.
  - intros e. unfold executeFunction. cbn [snd].
    destruct (completion (try_block cfg input)) as [result|thrown]; [done |].
    destruct (message_of thrown) as [message|fault] eqn:Hm.
    + destruct (is_str message USE_HTTP_ROUTE) eqn:Hs; [|done].
      intros [= <-]. left. rewrite Hm. f_equal.
      destruct message as [| | | |s| | | |]; try done.
      simpl in Hs. by apply String.eqb_eq in Hs as ->.
    + intros [= <-]. right. exists thrown. split; [done |].
      destruct thrown; try done; injection Hm as <-; auto.
Qed.

(** On a script that throws an error whose message is the sentinel, with
    E2B disabled, next to an import request with E2B enabled. *)
Lemma sentinel_message_witness :
  executeFunction (RT := Sample.runtime) Sample.e2b_off
    (Sample.request "throw new Error('__USE_HTTP_ROUTE__');" None)
  = ([ResolverInvoked; ContextCreated; ScriptCompiled; ScriptRun],
     Threw delegation_signal) /\
  executeFunction (RT := Sample.runtime) Sample.e2b_on
    (Sample.request "import fs from 'fs';" None)
  = ([ResolverInvoked], Threw delegation_signal) /\
  snd (executeFunction (RT := Sample.runtime) Sample.e2b_off
         (Sample.request "throw new Error('__USE_HTTP_ROUTE__');" None))
  = snd (executeFunction (RT := Sample.runtime) Sample.e2b_on
           (Sample.request "import fs from 'fs';" None)) /\
  (message_of (RT := Sample.runtime) delegation_signal = Normal (JStr USE_HTTP_ROUTE) \/
   exists thrown,
     completion (try_block (RT := Sample.runtime) Sample.e2b_off
                   (Sample.request "throw new Error('__USE_HTTP_ROUTE__');" None))
     = Throw thrown /\
     (thrown = JNull \/ thrown = JUndefined) /\
     delegation_signal = TypeError (RT := Sample.runtime) ReadOfNullish).
Proof.
  pose proof (sentinel_message_is_the_signal (RT := Sample.runtime) Sample.e2b_off
                (Sample.request "throw new Error('__USE_HTTP_ROUTE__');" None))
    as (_ & _ & Hrethrow & Hscript & Hsolely).
  pose proof (sentinel_message_is_the_signal (RT := Sample.runtime) Sample.e2b_on
                (Sample.request "import fs from 'fs';" None))
    as (_ & Hgate & _).
  assert (executeFunction (RT := Sample.runtime) Sample.e2b_off
            (Sample.request "throw new Error('__USE_HTTP_ROUTE__');" None)
          = ([ResolverInvoked; ContextCreated; ScriptCompiled; ScriptRun],
             Threw delegation_signal)) as H1.
  { apply (Hscript "throw new Error('__USE_HTTP_ROUTE__');" ∅); reflexivity. }
  assert (executeFunction (RT := Sample.runtime) Sample.e2b_on
            (Sample.request "import fs from 'fs';" None)
          = ([ResolverInvoked], Threw delegation_signal)) as H2.
  { apply (Hgate "import fs from 'fs';" ∅); reflexivity. }
  split; [exact H1 |]. split; [exact H2 |]. split; [by rewrite H1, H2 |].
  apply Hsolely. apply (Hrethrow delegation_signal); reflexivity.
Defined.

(** ** The [_context] parameter *)

(** C10: two requests that differ only in [params._context] get the same
    resolution, that is the same resolved code and the same bindings, and
    the same outcome from [executeFunction]; and the copy the executor
    overwrites is a record of its own, so the record the caller holds is
    left as it was. *)
Theorem context_parameter_ignored `{RT : Runtime} (cfg : Config)
    (input1 input2 : Input.t) :
  differ_only_in_context input1 input2 ->
  resolve_request input1 = resolve_request input2 /\
  executeFunction cfg input1 = executeFunction cfg input2 /\
  (forall (store : gmap positive JSRecord) params record,
     store !! params = Some record ->
     let '(store', executionParams) := copy_params store params in
     store' !! params = Some record /\
     store' !! executionParams = Some (<["_context" := JUndefined]> record) /\
     forall other, other <> executionParams -> store' !! other = store !! other).
Proof.
  intros (Hcode & Htimeout & Hlanguage & HenvVars & HblockData & Hmapping &
          Hvariables & HworkflowId & HisCustomTool & Hparams).
  assert (<["_context" := JUndefined]> (default ∅ (Input.params input1))
          = <["_context" := JUndefined]> (default ∅ (Input.params input2)) :> JSRecord)
    as Hcopy.
  { rewrite <- (insert_delete_eq (default ∅ (Input.params input1))).
    rewrite <- (insert_delete_eq (default ∅ (Input.params input2))).
    by rewrite Hparams. }
  assert (resolve_request input1 = resolve_request input2) as Hresolve.
  { unfold resolve_request.
    by rewrite Hcopy, Hcode, HenvVars, HblockData, Hmapping, Hvariables. }
  assert (try_block cfg input1 = try_block cfg input2) as Htry.
  { unfold try_block.
    by rewrite Hcopy, Hcode, Htimeout, Hlanguage, HenvVars, HblockData, Hmapping,
         Hvariables, HisCustomTool. }
  split; [exact Hresolve |]. split.
  - unfold executeFunction. by rewrite Htry.
  - intros store params record Hstore. unfold copy_params.
    set (executionParams := fresh (dom store)).
    assert (executionParams <> params) as Hfresh.
    { intros Heq. apply (is_fresh (dom store)). fold executionParams.
      rewrite Heq. apply elem_of_dom. by exists record. }
    split; [|split].
    + by rewrite lookup_alter_ne, lookup_insert_ne.
    + by rewrite lookup_alter_eq, lookup_insert_eq, Hstore.
    + intros other Hother. by rewrite lookup_alter_ne, lookup_insert_ne.
Qed.

(** On two requests whose [params] are [{a: "x", _context: {workflowId: "w"}}]
    and [{a: "x"}]. *)
Lemma context_parameter_ignored_witness :
  let with_context : JSRecord :=
    <["a" := JStr "x"]> (<["_context" := JObj (<["workflowId" := JStr "w"]> ∅)]> ∅) in
  let without_context : JSRecord := <["a" := JStr "x"]> ∅ in
  let request params :=
    {| Input.code := "return {{a}};"; Input.params := Some params;
       Input.timeout := None; Input.language := None; Input.envVars := None;
       Input.blockData := None; Input.blockNameMapping := None;
       Input.workflowVariables := None; Input.workflowId := None;
       Input.isCustomTool := None |} in
  resolve_request (RT := Sample.runtime) (request with_context)
  = resolve_request (RT := Sample.runtime) (request without_context) /\
  executeFunction (RT := Sample.runtime) Sample.e2b_off (request with_context)
  = executeFunction (RT := Sample.runtime) Sample.e2b_off (request without_context) /\
  fst (copy_params (<[5%positive := with_context]> ∅) 5%positive) !! 5%positive
  = Some with_context.
Proof.
  intros with_context without_context request.
  destruct (context_parameter_ignored (RT := Sample.runtime) Sample.e2b_off
              (request with_context) (request without_context))
    as (Hresolve & Hexecute & Hstore).
  { repeat split. }
  split; [exact Hresolve |]. split; [exact Hexecute |].
  specialize (Hstore (<[5%positive := with_context]> ∅) 5%positive with_context
                     eq_refl).
  destruct (copy_params (<[5%positive := with_context]> ∅) 5%positive)
    as [store' executionParams].
  exact (proj1 Hstore).
Defined.

(** ** Tags that stay *)

Section TagsStay.

Context `{RT : Runtime}.

Implicit Types (s m r : string).

Lemma app_eq_app_string (a b c d : string) :
  a +:+ b = c +:+ d ->
  (exists e, a = c +:+ e /\ d = e +:+ b) \/ (exists e, c = a +:+ e /\ b = e +:+ d).
Proof.
  revert c. induction a as [|x a IH]; intros c H.
  - right. by exists c.
  - destruct c as [|y c].
    + left. by exists (String x a).
    + rewrite !app_cons in H. injection H as -> H.
      destruct (IH c H) as [(e & -> & ->) | (e & -> & ->)]; [left | right]; by exists e.
Qed.

Lemma path_char_no_bracket c : Str.is_path_char c = true -> no_bracket c = true.
Proof. by destruct c as [[] [] [] [] [] [] [] []]. Qed.

Lemma forallb_impl (f g : ascii -> bool) s :
  (forall c, f c = true -> g c = true) ->
  Str.forallb f s = true -> Str.forallb g s = true.
Proof.
  intros Hfg. induction s as [|c s IH]; [done |]. simpl.
  rewrite !andb_true_iff. intros [Hc Hs]. auto.
Qed.

Lemma tag_ref_bracketed m :
  is_tag_ref m -> exists body, m = String "<" (body +:+ ">") /\
                               Str.forallb no_bracket body = true.
Proof.
  intros (path & -> & Hp). exists path. split; [done |].
  unfold is_tag_path in Hp. destruct path as [|c0 run]; [done |].
  apply andb_true_iff in Hp as [Hp _]. apply andb_true_iff in Hp as [H0 Hrun].
  simpl. rewrite (forallb_impl _ _ _ path_char_no_bracket Hrun), andb_true_r.
  revert H0. clear. by destruct c0 as [[] [] [] [] [] [] [] []].
Qed.

Lemma forallb_app f s r :
  Str.forallb f (s +:+ r) = Str.forallb f s && Str.forallb f r.
Proof.
  induction s as [|c s IH]; [done |].
  rewrite app_cons. simpl. by rewrite IH, andb_assoc.
Qed.

(** Two bracketed texts of which one is a prefix of a text the other starts
    are the same text. *)
Lemma bracketed_prefix_eq body body' rest rest' :
  Str.forallb no_bracket body = true ->
  Str.forallb no_bracket body' = true ->
  body +:+ String ">" rest = body' +:+ String ">" rest' ->
  body = body'.
Proof.
  revert body'. induction body as [|c body IH]; intros body' Hb Hb' H.
  - destruct body' as [|c' body']; [done |].
    rewrite app_cons, app_empty_l in H. injection H as <- _. done.
  - destruct body' as [|c' body'].
    + rewrite app_cons, app_empty_l in H. injection H as -> _. done.
    + rewrite !app_cons in H. injection H as -> H. simpl in Hb, Hb'.
      apply andb_true_iff in Hb as [_ Hb]. apply andb_true_iff in Hb' as [_ Hb'].
      by rewrite (IH body' Hb Hb' H).
Qed.

(** Replacing a text that starts with a character the text [x] lacks leaves
    [x] alone, when no occurrence is pending. *)
Lemma replace_from_without_first pat c0 pat' rep x rest :
  pat = String c0 pat' ->
  Str.forallb (not_char c0) x = true ->
  replace_from pat rep 0 (x +:+ rest) = x +:+ replace_from pat rep 0 rest.
Proof.
  intros -> Hx. induction x as [|c x IH]; [done |].
  simpl in Hx. apply andb_true_iff in Hx as [Hc Hx].
  rewrite !app_cons. cbn [replace_from Str.startsWith].
  unfold not_char in Hc. apply negb_true_iff in Hc.
  rewrite Ascii.eqb_sym, Hc. cbn [andb]. by rewrite (IH Hx).
Qed.

Lemma no_bracket_not_open s :
  Str.forallb no_bracket s = true -> Str.forallb (not_char "<") (s +:+ ">") = true.
Proof.
  intros H. rewrite forallb_app, andb_true_iff. split; [|done].
  apply (forallb_impl no_bracket); [|done].
  intros c Hc. unfold no_bracket in Hc. by apply andb_true_iff in Hc as [Hc _].
Qed.

(** The replacement of a tag reference steps over an occurrence of another
    one. *)
Lemma replace_over_tag m m' rep post :
  is_tag_ref m -> is_tag_ref m' -> m <> m' ->
  replace_from m' rep 0 (m +:+ post) = m +:+ replace_from m' rep 0 post.
Proof.
  intros (body & -> & Hb)%tag_ref_bracketed (body' & -> & Hb')%tag_ref_bracketed Hne.
  rewrite !app_cons. cbn [replace_from].
  destruct (Str.startsWith (String "<" ((body +:+ ">") +:+ post))
                           (String "<" (body' +:+ ">"))) eqn:Hp.
  - apply startsWith_spec in Hp as [r Hr]. rewrite app_cons in Hr.
    injection Hr as Hr. rewrite !app_assoc in Hr.
    change (">" +:+ post) with (String ">" post) in Hr.
    change (">" +:+ r) with (String ">" r) in Hr.
    by rewrite (bracketed_prefix_eq _ _ _ _ Hb Hb' Hr) in Hne.
  - f_equal.
    apply (replace_from_without_first _ "<" (body' +:+ ">") rep (body +:+ ">") post eq_refl).
    by apply no_bracket_not_open.
Qed.

(** No occurrence of a tag reference runs from before an occurrence of
    another into it. *)
Lemma tag_no_straddle m m' x post :
  is_tag_ref m -> is_tag_ref m' -> x <> "" ->
  Str.startsWith (x +:+ m +:+ post) m' = true ->
  (String.length m' <= String.length x)%nat.
Proof.
  intros (body & -> & Hb)%tag_ref_bracketed (body' & -> & Hb')%tag_ref_bracketed Hx Hp.
  apply startsWith_spec in Hp as [r Hr].
  apply app_eq_app_string in Hr as [(e & -> & He) | (e & He & Hm)].
  - rewrite length_app. lia.
  - destruct e as [|c e].
    + rewrite app_empty_r in He. rewrite He. lia.
    + exfalso. rewrite !app_cons in Hm. injection Hm as <- _.
      destruct x as [|c x]; [done |]. rewrite app_cons in He. injection He as <- He.
      pose proof (no_bracket_not_open _ Hb') as Hall. rewrite He, forallb_app in Hall.
      apply andb_true_iff in Hall as [_ Hall]. done.
Qed.

(** Scanning up to an occurrence of another tag reference. *)
Lemma replace_up_to_tag m m' rep post :
  is_tag_ref m -> is_tag_ref m' ->
  forall x skip,
    (skip <= String.length x)%nat ->
    exists out, replace_from m' rep skip (x +:+ m +:+ post)
                = out +:+ replace_from m' rep 0 (m +:+ post).
Proof.
  intros Hm Hm'. induction x as [|c x IH]; intros skip Hskip.
  - exists "". simpl in Hskip. by replace skip with 0%nat by lia.
  - rewrite app_cons. cbn [replace_from]. destruct skip as [|k].
    + destruct (Str.startsWith (String c (x +:+ m +:+ post)) m') eqn:Hp.
      * rewrite <- app_cons in Hp.
        pose proof (tag_no_straddle m m' (String c x) post Hm Hm' ltac:(done) Hp) as Hlen.
        destruct (IH (String.length m' - 1)%nat) as [out Hout].
        { simpl in Hlen. lia. }
        exists (rep +:+ out). by rewrite Hout, app_assoc.
      * destruct (IH 0%nat) as [out Hout]; [lia |].
        exists (String c out). by rewrite Hout.
    + destruct (IH k) as [out Hout]; [simpl in Hskip; lia |].
      exists out. exact Hout.
Qed.

(** Replacing a tag reference keeps the occurrences of the others. *)
Lemma replaceAll_keeps_tag m m' rep c :
  is_tag_ref m -> is_tag_ref m' -> m <> m' ->
  occurs_in m c -> occurs_in m (replaceAll m' rep c).
Proof.
  intros Hm Hm' Hne (pre & post & ->). unfold replaceAll.
  destruct (replace_up_to_tag m m' rep post Hm Hm' pre 0%nat) as [out Hout]; [lia |].
  rewrite Hout, (replace_over_tag m m' rep post Hm Hm' Hne).
  by exists out, (replace_from m' rep 0 post).
Qed.

(** Through the whole pass, a tag reference that resolves to [undefined] or
    to the empty string keeps occurring. *)
Lemma unresolved_tag_stays params blockData blockNameMapping path ms c b :
  is_tag_path path = true ->
  tagValueOf params blockData blockNameMapping path = JUndefined \/
  tagValueOf params blockData blockNameMapping path = JStr "" ->
  Forall is_tag_ref ms ->
  occurs_in ("<" +:+ path +:+ ">") c ->
  occurs_in ("<" +:+ path +:+ ">")
            (fst (fold_left (tagStep params blockData blockNameMapping) ms (c, b))).
Proof.
  intros Hp Hv Hms. revert c b.
  induction Hms as [|m' ms Hm' Hms IH]; intros c b Hocc; [done |].
  cbn [fold_left].
  destruct (tagStep params blockData blockNameMapping (c, b) m') as [c' b'] eqn:Hs.
  apply IH. unfold tagStep in Hs.
  destruct (negb _ && negb _) eqn:Hres.
  - injection Hs as <- _. rewrite replace_escaped.
    apply replaceAll_keeps_tag; [by exists path | done | | done].
    intros <-. rewrite slice_tag, (trim_tag_path _ Hp) in Hres.
    by destruct Hv as [Hv | Hv]; rewrite Hv in Hres.
  - by injection Hs as <- _.
Qed.

End TagsStay.

(** C6, as the code has it: every match of the tag pattern is a reference
    [<PATH>] of the code; a tag reference [<block.path>] for which the
    direct lookups in [params] and [blockData] yield nothing truthy, and
    whose block name, lower-cased, is mapped by [blockNameMapping] to the id
    of an entry of [blockData], resolves to exactly the nested value at
    [path] in that entry; the pass takes the references in their order, and
    the iteration of one that resolves to a value other than [undefined] and
    the empty string replaces every occurrence of the reference in the
    current text by the identifier [__tag_] plus the sanitized name and binds
    the identifier to the value, which stays bound in the end unless a later
    reference with the same identifier resolves; the iteration of a tag
    reference that resolves to [undefined] or the empty string leaves text
    and bindings as they are; such a reference still occurs in the code the
    pass returns, whatever other tags are substituted, and its identifier is
    left unbound when every reference with this identifier resolves so; code
    whose tag references all resolve so comes out of the pass unchanged,
    with the bindings it came in with. *)
Theorem tag_reference_resolved `{RT : Runtime}
    (params blockData blockNameMapping : JSRecord) :
  let unresolved tagName :=
    tagValueOf params blockData blockNameMapping tagName = JUndefined \/
    tagValueOf params blockData blockNameMapping tagName = JStr "" in
  let tagName m := Str.trim (Str.slice 1 1 m) in
  (forall block path blockId data c b,
     let tagName := block +:+ "." +:+ path in
     let safeVarName := "__tag_" +:+ Str.sanitize tagName in
     is_tag_path tagName = true ->
     Str.includes_char "." block = false ->
     truthy (getNestedValue (JObj params) tagName) = false ->
     truthy (getNestedValue (JObj blockData) tagName) = false ->
     blockNameMapping !! Str.toLowerCase block = Some (JStr blockId) ->
     blockId <> "" ->
     blockData !! blockId = Some data ->
     tagValueOf params blockData blockNameMapping tagName = getNestedValue data path /\
     (getNestedValue data path <> JUndefined ->
      getNestedValue data path <> JStr "" ->
      tagStep params blockData blockNameMapping (c, b) ("<" +:+ tagName +:+ ">")
      = (replaceAll ("<" +:+ tagName +:+ ">") safeVarName c,
         <[safeVarName := getNestedValue data path]> b))) /\
  (forall path c b,
     is_tag_path path = true ->
     unresolved path ->
     tagStep params blockData blockNameMapping (c, b) ("<" +:+ path +:+ ">") = (c, b)) /\
  (forall code contextVariables path,
     is_tag_path path = true ->
     unresolved path ->
     occurs_in ("<" +:+ path +:+ ">") code ->
     let final :=
       resolveTagVariables code params blockData blockNameMapping contextVariables in
     occurs_in ("<" +:+ path +:+ ">") (fst final) /\
     ((forall m, In m (Regex.match_all Regex.tag_ref code) ->
                 Str.sanitize (tagName m) = Str.sanitize path -> unresolved (tagName m)) ->
      snd final !! ("__tag_" +:+ Str.sanitize path)
      = contextVariables !! ("__tag_" +:+ Str.sanitize path))) /\
  (forall code contextVariables,
     (forall m, In m (Regex.match_all Regex.tag_ref code) -> unresolved (tagName m)) ->
     resolveTagVariables code params blockData blockNameMapping contextVariables
     = (code, contextVariables)) /\
  (forall code m,
     In m (Regex.match_all Regex.tag_ref code) ->
     occurs_in m code /\
     exists path, m = "<" +:+ path +:+ ">" /\ is_tag_path path = true /\ tagName m = path) /\
  (forall code contextVariables before m after c b,
     let step := tagStep params blockData blockNameMapping in
     let safeVarName := "__tag_" +:+ Str.sanitize (tagName m) in
     Regex.match_all Regex.tag_ref code = (before ++ m :: after)%list ->
     fold_left step before (code, contextVariables) = (c, b) ->
     (unresolved (tagName m) ->
      resolveTagVariables code params blockData blockNameMapping contextVariables
      = fold_left step after (c, b)) /\
     (~ unresolved (tagName m) ->
      resolveTagVariables code params blockData blockNameMapping contextVariables
      = fold_left step after
          (replaceAll m safeVarName c,
           <[safeVarName := tagValueOf params blockData blockNameMapping (tagName m)]> b))) /\
  (forall code contextVariables before m after,
     Regex.match_all Regex.tag_ref code = (before ++ m :: after)%list ->
     ~ unresolved (tagName m) ->
     (forall m', In m' after ->
                 Str.sanitize (tagName m') = Str.sanitize (tagName m) ->
                 unresolved (tagName m')) ->
     snd (resolveTagVariables code params blockData blockNameMapping contextVariables)
       !! ("__tag_" +:+ Str.sanitize (tagName m))
     = Some (tagValueOf params blockData blockNameMapping (tagName m))).
Proof.
  intros unresolved tagName.
  assert (forall v,
            ~ (v = JUndefined \/ v = JStr "") ->
            negb (is_undefined v) && negb (is_str v "") = true) as Hbool.
  { intros v Hv. destruct v as [| | | |s| | | |]; try done.
    - destruct Hv. by left.
    - destruct s; [|done]. destruct Hv. by right. }
  assert (forall code m,
            In m (Regex.match_all Regex.tag_ref code) ->
            occurs_in m code /\
            exists path, m = "<" +:+ path +:+ ">" /\ is_tag_path path = true /\
                         tagName m = path) as Href.
  { intros code m Hin.
    destruct (match_all_exact _ _ _ _ tag_ref_exact Hin) as [(path & -> & Hp) Hocc].
    split; [done |]. exists path. unfold tagName.
    by rewrite slice_tag, (trim_tag_path _ Hp). }
  split; [|split; [|split; [|split; [|split; [|split]]]]].
  - intros block path blockId data c b tagName' safeVarName Htag Hb Hp Hd Hmap Hid Hdata.
    pose proof (tagValueOf_block params blockData blockNameMapping block path
                  blockId data Hb Hp Hd Hmap Hid Hdata) as Hv.
    split; [exact Hv |]. intros Hu He.
    unfold tagName', safeVarName in *.
    rewrite tagStep_resolved by (rewrite ?Hv; done). by rewrite Hv.
  - intros path c b. apply tagStep_unresolved.
  - intros code contextVariables path Hp Hv Hocc final. split.
    + apply unresolved_tag_stays; try done.
      apply Forall_forall. intros m Hin. apply list_elem_of_In in Hin.
      by apply (match_all_exact _ _ _ _ tag_ref_exact Hin).
    + intros Hsame. unfold final, resolveTagVariables. rewrite tag_bindings.
      apply bind_all_unbound. intros m v Hin. cbv zeta. fold (tagName m).
      destruct (negb _ && negb _) eqn:Hres; [|done].
      intros Heq.
      assert (Str.sanitize (tagName m) = Str.sanitize path) as Hid.
      { apply (inj (String.append "__tag_")).
        exact (f_equal (from_option fst "") Heq). }
      destruct (Hsame m Hin Hid) as [Hu | Hu]; by rewrite Hu in Hres.
  - intros code contextVariables Hall. unfold resolveTagVariables.
    assert (forall ms,
              (forall m, In m ms -> In m (Regex.match_all Regex.tag_ref code)) ->
              fold_left (tagStep params blockData blockNameMapping) ms
                        (code, contextVariables) = (code, contextVariables)) as Hfold.
    { induction ms as [|m ms IH]; intros Hsub; [done |].
      cbn [fold_left].
      destruct (match_all_exact _ _ _ _ tag_ref_exact (Hsub m (or_introl eq_refl)))
        as [(path & Hm & Hp) _].
      rewrite Hm, tagStep_unresolved; [| done |].
      - apply IH. intros m' Hin. apply Hsub. by right.
      - specialize (Hall m (Hsub m (or_introl eq_refl))). unfold tagName in Hall.
        by rewrite Hm, slice_tag, (trim_tag_path _ Hp) in Hall. }
    by apply Hfold.
  - exact Href.
  - intros code contextVariables before m after c b step safeVarName Hms Hbefore.
    destruct (Href code m) as [_ (path & Hm & Hp & Hname)].
    { rewrite Hms, in_app_iff. right. by left. }
    unfold safeVarName. rewrite Hname. subst m.
    unfold resolveTagVariables. rewrite Hms. fold step.
    rewrite fold_left_app, Hbefore. cbn [fold_left]. split.
    + intros Hu. unfold step at 2. by rewrite tagStep_unresolved.
    + intros Hu. unfold step at 2. rewrite tagStep_resolved; [done | done | |].
      * intros Hv. apply Hu. by left.
      * intros Hv. apply Hu. by right.
  - intros code contextVariables before m after Hms Hu Hafter.
    unfold resolveTagVariables. rewrite tag_bindings, Hms.
    apply bind_all_last.
    + cbv zeta. fold (tagName m). by rewrite (Hbool _ Hu).
    + intros m' v' Hin. cbv zeta. fold (tagName m').
      destruct (negb _ && negb _) eqn:Hb; [|done].
      intros Heq.
      assert (Str.sanitize (tagName m') = Str.sanitize (tagName m)) as Hid.
      { apply (inj (String.append "__tag_")).
        exact (f_equal (from_option fst "") Heq). }
      destruct (Hafter m' Hin Hid) as [Hv | Hv]; by rewrite Hv in Hb.
Qed.

(** On [<Start.out.n>] with [blockNameMapping = {start: "b1"}] and
    [blockData = {b1: {out: {n: false}}}], and on [<nope.x>], which nothing
    resolves. *)
Lemma tag_reference_resolved_witness :
  let params : JSRecord := <["_context" := JUndefined]> ∅ in
  let data := JObj (<["out" := JObj (<["n" := JBool false]> ∅)]> ∅) in
  let blockData : JSRecord := <["b1" := data]> ∅ in
  let blockNameMapping : JSRecord := <["start" := JStr "b1"]> ∅ in
  (tagValueOf (RT := Sample.runtime) params blockData blockNameMapping "Start.out.n"
   = JBool false /\
   tagStep (RT := Sample.runtime) params blockData blockNameMapping
     ("return <Start.out.n>;", ∅) "<Start.out.n>"
   = ("return __tag_Start_out_n;", {["__tag_Start_out_n" := JBool false]})) /\
  tagStep (RT := Sample.runtime) params blockData blockNameMapping
    ("return <nope.x>;", ∅) "<nope.x>" = ("return <nope.x>;", ∅) /\
  (let final :=
     resolveTagVariables (RT := Sample.runtime) "return <Start.out.n> + <nope.x>;"
       params blockData blockNameMapping ∅ in
   occurs_in "<nope.x>" (fst final) /\ snd final !! "__tag_nope_x" = None) /\
  resolveTagVariables (RT := Sample.runtime) "return <nope.x>;" params blockData
    blockNameMapping ∅ = ("return <nope.x>;", ∅) /\
  resolveTagVariables (RT := Sample.runtime) "return <Start.out.n> + <nope.x>;"
    params blockData blockNameMapping ∅
  = ("return __tag_Start_out_n + <nope.x>;", {["__tag_Start_out_n" := JBool false]}) /\
  snd (resolveTagVariables (RT := Sample.runtime) "return <Start.out.n> + <nope.x>;"
         params blockData blockNameMapping ∅) !! "__tag_Start_out_n"
  = Some (JBool false).
Proof.
  intros params data blockData blockNameMapping.
  pose proof (tag_reference_resolved (RT := Sample.runtime)
                params blockData blockNameMapping)
    as (Hblock & Hleft & Hstays & Hall & _ & Hpass & Hlast).
  split; [|split; [|split; [|split; [|split]]]].
  - destruct (Hblock "Start" "out.n" "b1" data "return <Start.out.n>;" ∅)
      as [Hv Hs]; try (vm_compute; congruence).
    split; [exact Hv |]. apply Hs; vm_compute; congruence.
  - apply (Hleft "nope.x"); [reflexivity | right; reflexivity].
  - destruct (Hstays "return <Start.out.n> + <nope.x>;" ∅ "nope.x" eq_refl
                (or_intror eq_refl)) as [Hocc Hunbound].
    + by exists "return <Start.out.n> + ", ";".
    + split; [exact Hocc |]. apply Hunbound.
      intros m Hin Hid. vm_compute in Hin. destruct Hin as [<- | [<- | []]].
      * vm_compute in Hid. discriminate.
      * right. reflexivity.
  - apply Hall. intros m Hin. vm_compute in Hin. destruct Hin as [<- | []].
    right. reflexivity.
  - destruct (Hpass "return <Start.out.n> + <nope.x>;" ∅ [] "<Start.out.n>"
                ["<nope.x>"] "return <Start.out.n> + <nope.x>;" ∅ eq_refl eq_refl)
      as [_ Hresolved].
    rewrite Hresolved; [reflexivity |].
    intros [Hu | Hu]; vm_compute in Hu; discriminate Hu.
  - refine (Hlast "return <Start.out.n> + <nope.x>;" ∅ [] "<Start.out.n>"
              ["<nope.x>"] eq_refl _ _).
    + intros [Hu | Hu]; vm_compute in Hu; discriminate Hu.
    + intros m' Hin Hid. destruct Hin as [<- | []]. right. reflexivity.
Defined.

(** C6 as worded fails when two references share an identifier:
    [<Start.a.b>] and [<Start.a_b>] both become [__tag_Start_a_b], which ends
    up bound to the value of the second, so the first is not bound to the
    nested value at [a.b]. *)
Lemma tag_collision_counterexample :
  ~ tag_bound_as_stated (RT := Sample.runtime) "return <Start.a.b> + <Start.a_b>;" ∅
      (<["b1" := JObj (<["a" := JObj (<["b" := JStr "one"]> ∅)]>
                         (<["a_b" := JStr "two"]> ∅))]> ∅)
      (<["start" := JStr "b1"]> ∅).
Proof.
  intros H.
  specialize (H "Start" "a.b" "b1"
                (JObj (<["a" := JObj (<["b" := JStr "one"]> ∅)]>
                         (<["a_b" := JStr "two"]> ∅)))).
  cbv zeta in H.
  assert (snd (resolveTagVariables (RT := Sample.runtime)
                 "return <Start.a.b> + <Start.a_b>;" ∅
                 (<["b1" := JObj (<["a" := JObj (<["b" := JStr "one"]> ∅)]>
                                    (<["a_b" := JStr "two"]> ∅))]> ∅)
                 (<["start" := JStr "b1"]> ∅) ∅) !! "__tag_Start_a_b"
          = Some (JStr "two")) as Hfinal by (vm_compute; reflexivity).
  assert (Some (JStr "two") = Some (JStr "one")) as Habs; [|discriminate Habs].
  rewrite <- Hfinal. apply H; try (vm_compute; congruence).
  vm_compute. tauto.
Qed.

(** Without the proviso that no reference syntax remains, a second
    resolution can change the code again: deleting an undeclared workflow
    variable may bring the two halves of another reference together. *)
Example second_resolution_changes :
  resolveCodeVariables (RT := Sample.runtime) "<variab<variable.x>le.y>" ∅ ∅ ∅ ∅ []
  = Normal ("<variable.y>", ∅) /\
  resolveCodeVariables (RT := Sample.runtime) "<variable.y>" ∅ ∅ ∅ ∅ []
  = Normal ("", ∅).
Proof. split; vm_compute; reflexivity. Qed.

(** A Python request flagged as a custom tool, with E2B enabled, passes the
    policy checks and is run as JavaScript. *)
Example python_custom_tool_ex :
  executeFunction (RT := Sample.runtime) Sample.e2b_on
    {| Input.code := "print(1)"; Input.params := None; Input.timeout := None;
       Input.language := Some "python"; Input.envVars := None;
       Input.blockData := None; Input.blockNameMapping := None;
       Input.workflowVariables := None; Input.workflowId := None;
       Input.isCustomTool := Some true |}
  = ([ResolverInvoked; ContextCreated; ScriptCompiled; ScriptRun],
     Sample.failure "print is not defined" "[ERROR] {}").
Proof. vm_compute. reflexivity. Qed.

(** A reference that holds another one is no longer in the text when its
    turn comes: its identifier is bound, and substituted nowhere. *)
Example template_overlap_ex :
  Regex.match_all Regex.template_ref "{{a}} {{b{{a}}" = ["{{a}}"; "{{b{{a}}"] /\
  resolveEnvironmentVariables (RT := Sample.runtime) "{{a}} {{b{{a}}" ∅ ∅ ∅
  = ("__var_a {{b__var_a", <["__var_b__a" := JStr ""]> {["__var_a" := JStr ""]}).
Proof. split; vm_compute; reflexivity. Qed.

(** * Further properties of the executor *)

(** ** Escaping, trimming of the output, nested values *)

Section Helpers.

Context `{RT : Runtime}.

Implicit Types (s p q : string).

Lemma escapeRegExp_length s :
  String.length (escapeRegExp s)
  = (String.length s + count_chars is_syntax_char s)%nat.
Proof.
  induction s as [|c s IH]; [done |].
  cbn [escapeRegExp count_chars String.length].
  destruct (is_syntax_char c); cbn [String.length]; rewrite IH; lia.
Qed.

Lemma escapeRegExp_plain s :
  count_chars is_syntax_char s = 0%nat -> escapeRegExp s = s.
Proof.
  induction s as [|c s IH]; [done |].
  cbn [escapeRegExp count_chars]. destruct (is_syntax_char c); [done |].
  intros H. by rewrite IH.
Qed.

Lemma last_split s c : Str.last s = Some c -> exists p, s = p +:+ String c "".
Proof.
  induction s as [|a s IH]; [done |].
  destruct s as [|b s].
  - intros [= ->]. by exists "".
  - intros H. destruct (IH H) as [p Hp]. exists (String a p).
    by rewrite app_cons, <- Hp.
Qed.

Lemma split_app_sep sep p q :
  Str.split sep (p +:+ String sep q) = (Str.split sep p ++ Str.split sep q)%list.
Proof.
  induction p as [|c p IH].
  - rewrite app_empty_l. simpl. by rewrite Ascii.eqb_refl.
  - rewrite app_cons. simpl. rewrite IH.
    destruct (Ascii.eqb c sep); [done |].
    pose proof (split_nonempty sep p) as Hne.
    by destruct (Str.split sep p).
Qed.

(** One step of the traversal of [getNestedValue]. *)
Lemma nested_undefined keys :
  fold_left
    (fun current key =>
       if truthy current && typeof_object current then get current key
       else JUndefined)
    keys JUndefined = JUndefined.
Proof. induction keys as [|k keys IH]; [done | exact IH]. Qed.

Lemma nested_off_data keys v :
  keys <> [] -> truthy v && typeof_object v = false ->
  fold_left
    (fun current key =>
       if truthy current && typeof_object current then get current key
       else JUndefined)
    keys v = JUndefined.
Proof.
  destruct keys as [|k keys]; [done |]. intros _ Hv.
  cbn [fold_left]. rewrite Hv. apply nested_undefined.
Qed.

Lemma getNestedValue_dotted obj p q :
  p <> "" ->
  getNestedValue obj (p +:+ "." +:+ q)
  = if truthy obj
    then fold_left
           (fun current key =>
              if truthy current && typeof_object current then get current key
              else JUndefined)
           (Str.split "." q) (getNestedValue obj p)
    else JUndefined.
Proof.
  intros Hp. unfold getNestedValue.
  change (p +:+ "." +:+ q) with (p +:+ String "." q).
  destruct p as [|c p]; [done |]. rewrite app_cons.
  cbn [String.eqb]. destruct (truthy obj); [|done].
  cbn [negb orb]. rewrite <- app_cons, split_app_sep. apply fold_left_app.
Qed.

End Helpers.

(** X1: escaping a text yields a pattern source that stands for exactly that
    text, so distinct texts have distinct escapes; the escape is longer than
    the text by the number of its syntax characters, and a text without
    syntax characters is its own escape. *)
Theorem escapeRegExp_reversible (s t : string) :
  literal_of_source (escapeRegExp s) = Some s /\
  (escapeRegExp s = escapeRegExp t -> s = t) /\
  String.length (escapeRegExp s)
  = (String.length s + count_chars is_syntax_char s)%nat /\
  (count_chars is_syntax_char s = 0%nat -> escapeRegExp s = s).
Proof.
  split; [apply literal_of_escapeRegExp |]. split; [|split].
  - intros H. pose proof (literal_of_escapeRegExp s) as Hs.
    rewrite H, literal_of_escapeRegExp in Hs. by injection Hs.
  - apply escapeRegExp_length.
  - apply escapeRegExp_plain.
Qed.

(** On the reference [<a.b>], which has one syntax character, and on
    [__tag_a_b], which has none. *)
Lemma escapeRegExp_reversible_witness :
  ("<a.b>" = "<a.b>") /\ escapeRegExp "__tag_a_b" = "__tag_a_b".
Proof.
  split.
  - apply (proj1 (proj2 (escapeRegExp_reversible "<a.b>" "<a.b>"))). reflexivity.
  - apply (proj2 (proj2 (proj2 (escapeRegExp_reversible "__tag_a_b" "")))).
    reflexivity.
Defined.

(** X2: [cleanStdout] either finds a trailing newline and returns the text
    before it, or finds none and returns the text as it is; so it removes at
    most one character, and only a newline. *)
Theorem cleanStdout_characterised (stdout : string) :
  (Str.endsWith_char stdout (ascii_of_nat 10) = true /\
   stdout = cleanStdout stdout +:+ LF) \/
  (Str.endsWith_char stdout (ascii_of_nat 10) = false /\ cleanStdout stdout = stdout).
Proof.
  destruct (Str.endsWith_char stdout (ascii_of_nat 10)) eqn:He.
  - left. split; [done |]. unfold Str.endsWith_char in He.
    destruct (Str.last stdout) as [c|] eqn:Hl; [|done].
    apply Ascii.eqb_eq in He. subst c.
    destruct (last_split _ _ Hl) as [p ->].
    change (String (ascii_of_nat 10) "") with LF.
    by rewrite (cleanStdout_newline p).
  - right. split; [done |]. by apply cleanStdout_other.
Qed.

(** X3: [getNestedValue] composes along the dots of a path: the value at
    [p.q] is the value at [q] of the value at [p], for non-empty [p] and
    [q]. *)
Theorem getNestedValue_composes `{RT : Runtime} (obj : JSValue) (p q : string) :
  p <> "" -> q <> "" ->
  getNestedValue obj (p +:+ "." +:+ q) = getNestedValue (getNestedValue obj p) q.
Proof.
  intros Hp Hq. rewrite (getNestedValue_dotted obj p q Hp).
  destruct (truthy obj) eqn:Ho.
  - unfold getNestedValue at 2.
    destruct (String.eqb_spec q "") as [-> | _]; [done |].
    destruct (truthy (getNestedValue obj p)) eqn:Hv; [done |].
    cbn [negb orb]. apply nested_off_data; [apply split_nonempty |].
    by rewrite Hv.
  - assert (getNestedValue obj p = JUndefined) as -> by (unfold getNestedValue; by rewrite Ho).
    by destruct q.
Qed.

(** On [{out: {n: false}}] and the path [out.n]. *)
Lemma getNestedValue_composes_witness :
  let data := JObj (<["out" := JObj (<["n" := JBool false]> ∅)]> ∅) in
  getNestedValue (RT := Sample.runtime) data "out.n"
  = getNestedValue (RT := Sample.runtime)
      (getNestedValue (RT := Sample.runtime) data "out") "n".
Proof.
  intros data.
  exact (getNestedValue_composes (RT := Sample.runtime) data "out" "n"
           ltac:(discriminate) ltac:(discriminate)).
Defined.

(** X4: [getNestedValue] yields [undefined] on an empty path, on a falsy
    root, and on every path that goes on below a value that is not an
    object, be it a string, a number, a boolean, [null] or a missing key. *)
Theorem getNestedValue_off_the_data `{RT : Runtime} (obj : JSValue) :
  getNestedValue obj "" = JUndefined /\
  (forall path, truthy obj = false -> getNestedValue obj path = JUndefined) /\
  (forall p q,
     p <> "" -> q <> "" ->
     truthy (getNestedValue obj p) && typeof_object (getNestedValue obj p) = false ->
     getNestedValue obj (p +:+ "." +:+ q) = JUndefined).
Proof.
  split; [|split].
  - unfold getNestedValue. by rewrite orb_true_r.
  - intros path Ho. unfold getNestedValue. by rewrite Ho.
  - intros p q Hp Hq Hv. rewrite (getNestedValue_dotted obj p q Hp).
    destruct (truthy obj); [|done].
    apply nested_off_data; [apply split_nonempty | done].
Qed.

(** On [{name: "x"}]: below the string at [name], and below the missing key
    [gone]. *)
Lemma getNestedValue_off_the_data_witness :
  let data := JObj (<["name" := JStr "x"]> ∅) in
  getNestedValue (RT := Sample.runtime) JNull "name" = JUndefined /\
  getNestedValue (RT := Sample.runtime) data "name.length" = JUndefined /\
  getNestedValue (RT := Sample.runtime) data "gone.deeper" = JUndefined.
Proof.
  intros data.
  pose proof (getNestedValue_off_the_data (RT := Sample.runtime) data)
    as (_ & _ & Hoff).
  split; [|split].
  - apply (proj1 (proj2 (getNestedValue_off_the_data (RT := Sample.runtime) JNull))).
    reflexivity.
  - apply (Hoff "name" "length"); [discriminate | discriminate | reflexivity].
  - apply (Hoff "gone" "deeper"); [discriminate | discriminate | reflexivity].
Defined.

(** ** The wrapped script and the captured output *)

Section Lines.

Context `{RT : Runtime}.

Implicit Types (s w : string) (l : list string).

Lemma split_plain sep s : Str.includes_char sep s = false -> Str.split sep s = [s].
Proof.
  induction s as [|c s IH]; [done |]. simpl.
  intros H. apply orb_false_iff in H as [Hc Hs].
  rewrite Ascii.eqb_sym in Hc. by rewrite Hc, (IH Hs).
Qed.

(** No item of a split holds the separator. *)
Lemma split_items_plain sep s :
  Forall (fun w => Str.includes_char sep w = false) (Str.split sep s).
Proof.
  induction s as [|c s IH]; simpl; [by constructor |].
  destruct (Ascii.eqb c sep) eqn:Hc; [by constructor |].
  assert (Ascii.eqb sep c = false) as Hc' by (by rewrite Ascii.eqb_sym).
  destruct (Str.split sep s) as [|w ws].
  - constructor; [|done]. simpl. by rewrite Hc'.
  - inversion IH as [|? ? Hw Hws]; subst. constructor; [|done].
    simpl. by rewrite Hc', Hw.
Qed.

Lemma split_join sep l :
  l <> [] -> Forall (fun w => Str.includes_char sep w = false) l ->
  Str.split sep (Str.join (String sep "") l) = l.
Proof.
  induction l as [|w l IH]; [done |]. intros _ H.
  inversion H as [|? ? Hw Hl]; subst.
  destruct l as [|w2 ws]; [by apply split_plain |].
  change (Str.join (String sep "") (w :: w2 :: ws))
    with (w +:+ String sep (Str.join (String sep "") (w2 :: ws))).
  rewrite (split_first _ _ _ Hw). f_equal. by apply IH.
Qed.

Lemma join_app sep l1 l2 :
  l1 <> [] -> l2 <> [] ->
  Str.join sep (l1 ++ l2)%list = Str.join sep l1 +:+ sep +:+ Str.join sep l2.
Proof.
  induction l1 as [|w l1 IH]; [done |]. intros _ H2.
  destruct l1 as [|w2 ws].
  - by destruct l2.
  - change (Str.join sep ((w :: w2 :: ws) ++ l2)%list)
      with (w +:+ sep +:+ Str.join sep ((w2 :: ws) ++ l2)%list).
    rewrite IH by done.
    change (Str.join sep (w :: w2 :: ws)) with (w +:+ sep +:+ Str.join sep (w2 :: ws)).
    by rewrite !app_assoc.
Qed.

(** Joining a list one of whose items is itself a join. *)
Lemma join_nested sep l1 l l2 :
  l1 <> [] -> l <> [] -> l2 <> [] ->
  Str.join sep (l1 ++ [Str.join sep l] ++ l2)%list = Str.join sep (l1 ++ l ++ l2)%list.
Proof.
  intros H1 H H2.
  rewrite (join_app sep l1 ([Str.join sep l] ++ l2)) by done.
  rewrite (join_app sep [Str.join sep l] l2) by done.
  rewrite (join_app sep l1 (l ++ l2)) by (by destruct l).
  by rewrite (join_app sep l l2) by done.
Qed.

Lemma indented_plain sep l :
  Str.includes_char sep "      " = false ->
  Forall (fun w => Str.includes_char sep w = false) l ->
  Forall (fun w => Str.includes_char sep w = false)
         (List.map (fun line => "      " +:+ line) l).
Proof.
  intros Hsep. induction 1 as [|w l Hw Hl IH]; [by constructor |].
  constructor; [|done].
  change ("      " +:+ w)
    with (String " " (String " " (String " " (String " " (String " " (String " " w)))))).
  cbn [Str.includes_char] in *.
  repeat (apply orb_false_iff in Hsep as [-> Hsep]). exact Hw.
Qed.

Lemma fullScript_split code :
  Str.split (ascii_of_nat 10) (fullScript code)
  = (wrapperLines
     ++ List.map (fun line => "      " +:+ line) (Str.split (ascii_of_nat 10) code)
     ++ wrapperTail)%list.
Proof.
  unfold fullScript, indentedCode.
  pose proof (split_nonempty (ascii_of_nat 10) code) as Hne.
  pose proof (split_items_plain (ascii_of_nat 10) code) as Hplain.
  rewrite join_nested; [| done | by destruct (Str.split _ code) | done].
  apply split_join; [done |].
  apply Forall_app. split; [repeat constructor |].
  apply Forall_app. split; [by apply indented_plain | repeat constructor].
Qed.

Lemma console_from stdout call : console stdout call = stdout +:+ console "" call.
Proof. unfold console. destruct (method call); by rewrite app_empty_l. Qed.

Lemma console_fold calls stdout :
  fold_left console calls stdout = stdout +:+ fold_left console calls "".
Proof.
  revert stdout. induction calls as [|c calls IH]; intros stdout.
  - by rewrite app_empty_r.
  - cbn [fold_left]. rewrite IH, (IH (console "" c)), (console_from stdout c).
    by rewrite app_assoc.
Qed.

Lemma console_ends_line call : exists line, console "" call = line +:+ LF.
Proof.
  unfold console. destruct (method call); rewrite app_empty_l.
  - by eexists.
  - exists ("[ERROR] " +:+ console_output (args call)). by rewrite app_assoc.
  - exists ("[WARN] " +:+ console_output (args call)). by rewrite app_assoc.
Qed.

End Lines.

(** X5: the script handed to the compiler, split at newlines, is the three
    opening lines of the wrapper, the lines of the resolved code in their
    order, each indented by six spaces, and the six closing lines; so line
    [k] of the code, counting from zero, is line [3 + k] of the script, and
    the script has nine lines more than the code. *)
Theorem fullScript_lines (resolvedCode : string) :
  Str.split (ascii_of_nat 10) (fullScript resolvedCode)
  = (wrapperLines
     ++ List.map (fun line => "      " +:+ line)
                 (Str.split (ascii_of_nat 10) resolvedCode)
     ++ wrapperTail)%list /\
  length (Str.split (ascii_of_nat 10) (fullScript resolvedCode))
  = (9 + length (Str.split (ascii_of_nat 10) resolvedCode))%nat /\
  (forall k line,
     nth_error (Str.split (ascii_of_nat 10) resolvedCode) k = Some line ->
     nth_error (Str.split (ascii_of_nat 10) (fullScript resolvedCode)) (3 + k)
     = Some ("      " +:+ line)).
Proof.
  rewrite fullScript_split. split; [done |]. split.
  - rewrite !List.length_app, List.length_map. cbn [wrapperLines wrapperTail length]. lia.
  - intros k line Hk. cbn [wrapperLines app Nat.add nth_error].
    rewrite nth_error_app1 by (rewrite List.length_map; apply nth_error_Some; congruence).
    by rewrite nth_error_map, Hk.
Qed.

(** On a code of two lines: its second line is the fifth of the script. *)
Lemma fullScript_lines_witness :
  nth_error (Str.split (ascii_of_nat 10) (fullScript ("const a = 1" +:+ LF +:+ "return a")))
            4
  = Some "      return a".
Proof.
  apply (proj2 (proj2 (fullScript_lines ("const a = 1" +:+ LF +:+ "return a"))) 1%nat
               "return a").
  reflexivity.
Defined.

(** X6: the console shim only appends: what a sequence of calls captures is
    what its first part captures followed by what the rest captures on its
    own, whatever was captured before; and as every call ends its line, the
    output of a script that made a call ends with a newline, which is the
    one character [cleanStdout] removes from it. *)
Theorem console_appends_lines `{RT : Runtime} :
  (forall calls1 calls2 stdout,
     fold_left console (calls1 ++ calls2)%list stdout
     = fold_left console calls1 stdout +:+ fold_left console calls2 "") /\
  (forall calls,
     calls <> [] ->
     fold_left console calls "" = cleanStdout (fold_left console calls "") +:+ LF).
Proof.
  split.
  - intros calls1 calls2 stdout. rewrite fold_left_app. apply console_fold.
  - intros calls Hne.
    destruct (exists_last Hne) as (calls' & call & ->).
    rewrite fold_left_app. cbn [fold_left].
    rewrite console_from. destruct (console_ends_line call) as [line ->].
    by rewrite <- app_assoc, cleanStdout_newline.
Qed.

(** On [console.log(true)] followed by [console.warn("slow")]. *)
Lemma console_appends_lines_witness :
  let calls := [ {| method := Log; args := [JBool true] |};
                 {| method := Warn; args := [JStr "slow"] |} ] in
  fold_left (console (RT := Sample.runtime)) calls ""
  = cleanStdout (fold_left (console (RT := Sample.runtime)) calls "") +:+ LF.
Proof.
  intros calls.
  apply (proj2 (console_appends_lines (RT := Sample.runtime)) calls). discriminate.
Defined.

(** ** The identifiers the resolver generates *)

Section Namespaces.

Context `{RT : Runtime}.

Implicit Types (b vars envs tags : JSRecord) (wv : list (string * WorkflowVariable.t)).

Lemma sanitize_word s : Str.forallb Str.is_word (Str.sanitize s) = true.
Proof.
  unfold Str.sanitize. induction s as [|c s IH]; [done |].
  cbn [Str.map Str.forallb]. rewrite IH, andb_true_r.
  by destruct (Str.is_word c) eqn:Hc.
Qed.

Lemma bound_under_empty prefix : bound_under prefix ∅.
Proof. intros k Hk. rewrite lookup_empty in Hk. by destruct Hk. Qed.

Lemma bound_under_insert prefix name v b :
  bound_under prefix b -> bound_under prefix (<[prefix +:+ Str.sanitize name := v]> b).
Proof.
  intros Hb k Hk. apply lookup_insert_is_Some in Hk as [<- | [_ Hk]]; [|by apply Hb].
  eexists. split; [done | apply sanitize_word].
Qed.

Lemma workflowStep_keys wv m c b c' b' :
  workflowStep wv m (c, b) = Normal (c', b') ->
  bound_under "__variable_" b -> bound_under "__variable_" b'.
Proof.
  unfold workflowStep.
  destruct (find_entry _ wv) as [[[key variable]|]|e]; cbn; [| |done].
  - intros [= <- <-]. apply bound_under_insert.
  - by intros [= <- <-].
Qed.

Lemma for_of_keys wv ms st st' :
  for_of (workflowStep wv) ms st = Normal st' ->
  bound_under "__variable_" (snd st) -> bound_under "__variable_" (snd st').
Proof.
  revert st. induction ms as [|m ms IH]; intros [c b]; cbn [for_of].
  - by intros [= <-].
  - destruct (workflowStep wv m (c, b)) as [[c1 b1]|e] eqn:Hs; cbn; [|done].
    intros Hf Hb. apply (IH _ Hf). cbn. by eapply workflowStep_keys.
Qed.

Lemma bind_all_keys prefix binds ms b :
  (forall m k v, binds m = Some (k, v) ->
                 exists name, k = prefix +:+ Str.sanitize name) ->
  bound_under prefix b -> bound_under prefix (bind_all binds ms b).
Proof.
  intros Hbinds Hb. induction ms as [|x ms IH] using rev_ind; [done |].
  rewrite bind_all_snoc. destruct (binds x) as [[k v]|] eqn:Hx; [|done].
  destruct (Hbinds _ _ _ Hx) as [name ->]. by apply bound_under_insert.
Qed.

(** What a loop binds on top of earlier bindings is what it binds on its
    own, laid over them. *)
Lemma bind_all_over binds ms b : bind_all binds ms b = bind_all binds ms ∅ ∪ b.
Proof.
  induction ms as [|x ms IH] using rev_ind.
  - unfold bind_all. cbn. by rewrite (left_id_L ∅ (∪)).
  - rewrite !bind_all_snoc. destruct (binds x) as [[k v]|]; [|done].
    by rewrite IH, insert_union_l.
Qed.

Lemma environment_text params envVars ms c b b' :
  fst (fold_left (environmentStep params envVars) ms (c, b))
  = fst (fold_left (environmentStep params envVars) ms (c, b')).
Proof.
  revert c b b'. induction ms as [|m ms IH]; intros c b b'; [done |].
  simpl. apply IH.
Qed.

Lemma tag_text params blockData blockNameMapping ms c b b' :
  fst (fold_left (tagStep params blockData blockNameMapping) ms (c, b))
  = fst (fold_left (tagStep params blockData blockNameMapping) ms (c, b')).
Proof.
  revert c b b'. induction ms as [|m ms IH]; intros c b b'; [done |].
  cbn [fold_left]. unfold tagStep at 2 4.
  destruct (negb _ && negb _); apply IH.
Qed.

Lemma environment_over code params envVars b c2 envs :
  resolveEnvironmentVariables code params envVars ∅ = (c2, envs) ->
  resolveEnvironmentVariables code params envVars b = (c2, envs ∪ b) /\
  bound_under "__var_" envs.
Proof.
  unfold resolveEnvironmentVariables. intros H. split.
  - pose proof (f_equal fst H) as Hf. pose proof (f_equal snd H) as Hs.
    cbn [fst snd] in Hf, Hs. rewrite environment_bindings in Hs.
    rewrite (surjective_pairing (fold_left _ _ (code, b))).
    rewrite (environment_text _ _ _ _ b ∅), environment_bindings, bind_all_over.
    by rewrite Hf, Hs.
  - apply (f_equal snd) in H. cbn [snd] in H. rewrite environment_bindings in H.
    subst envs. apply bind_all_keys; [|apply bound_under_empty].
    intros m k v [= <- _]. by eexists.
Qed.

Lemma tag_over code params blockData blockNameMapping b c3 tags :
  resolveTagVariables code params blockData blockNameMapping ∅ = (c3, tags) ->
  resolveTagVariables code params blockData blockNameMapping b = (c3, tags ∪ b) /\
  bound_under "__tag_" tags.
Proof.
  unfold resolveTagVariables. intros H. split.
  - pose proof (f_equal fst H) as Hf. pose proof (f_equal snd H) as Hs.
    cbn [fst snd] in Hf, Hs. rewrite tag_bindings in Hs.
    rewrite (surjective_pairing (fold_left _ _ (code, b))).
    rewrite (tag_text _ _ _ _ _ b ∅), tag_bindings, bind_all_over.
    by rewrite Hf, Hs.
  - apply (f_equal snd) in H. cbn [snd] in H. rewrite tag_bindings in H.
    subst tags. apply bind_all_keys; [|apply bound_under_empty].
    intros m k v. cbv zeta. destruct (negb _ && negb _); [|done].
    intros [= <- _]. by eexists.
Qed.

Lemma bound_apart p1 p2 b1 b2 :
  (forall s1 s2, p1 +:+ s1 <> p2 +:+ s2) ->
  bound_under p1 b1 -> bound_under p2 b2 -> b1 ##ₘ b2.
Proof.
  intros Hp H1 H2. apply map_disjoint_spec. intros k x y Hx Hy.
  destruct (H1 k) as (s1 & -> & _); [by eexists |].
  destruct (H2 _ (mk_is_Some _ _ Hy)) as (s2 & Heq & _).
  by apply (Hp s1 s2).
Qed.

Lemma variable_not_var s1 s2 : "__variable_" +:+ s1 <> "__var_" +:+ s2.
Proof. intros H. cbv in H. discriminate H. Qed.

Lemma variable_not_tag s1 s2 : "__variable_" +:+ s1 <> "__tag_" +:+ s2.
Proof. intros H. cbv in H. discriminate H. Qed.

Lemma var_not_tag s1 s2 : "__var_" +:+ s1 <> "__tag_" +:+ s2.
Proof. intros H. cbv in H. discriminate H. Qed.

Lemma generated_not_capability k : generated_identifier k -> ~ In k capabilityNames.
Proof.
  intros (prefix & suffix & Hp & -> & _) Hin.
  assert (Str.startsWith (prefix +:+ suffix) "__" = true) as Hs.
  { apply startsWith_spec. cbn in Hp.
    destruct Hp as [<- | [<- | [<- | []]]]; by eexists. }
  assert (List.forallb (fun n => negb (Str.startsWith n "__")) capabilityNames = true)
    as Hcap by reflexivity.
  rewrite List.forallb_forall in Hcap. specialize (Hcap _ Hin). by rewrite Hs in Hcap.
Qed.

Lemma find_entry_malformed n good key variable rest :
  names_are_strings good -> List.find (declares n) good = None ->
  declared_name variable = None ->
  find_entry n (good ++ (key, variable) :: rest)%list = Throw (TypeError NotAFunction).
Proof.
  intros Hgood Hfind Hbad. induction Hgood as [|entry good Hentry Hgood IH].
  - cbn. unfold nameMatches. unfold declared_name in Hbad.
    by destruct (js_or _ _).
  - cbn [app find_entry]. rewrite (nameMatches_declares _ _ Hentry). cbn.
    cbn [List.find] in Hfind. destruct (declares n entry); [done |]. by apply IH.
Qed.

Lemma find_entry_declared n good entry more :
  names_are_strings good -> List.find (declares n) good = Some entry ->
  find_entry n (good ++ more)%list = Normal (Some entry).
Proof.
  intros Hgood. induction Hgood as [|first good Hfirst Hgood IH]; [done |].
  cbn [app find_entry List.find]. rewrite (nameMatches_declares _ _ Hfirst). cbn.
  destruct (declares n first); [by intros [= ->] | exact IH].
Qed.

(** Among the references, either one is declared by no entry of the list, or
    each is declared by one. *)
Lemma undeclared_or_declared (good : list (string * WorkflowVariable.t)) ms :
  (exists m, In m ms /\ List.find (declares (Str.trim (Str.slice 10 1 m))) good = None) \/
  (forall m, In m ms ->
             List.find (declares (Str.trim (Str.slice 10 1 m))) good <> None).
Proof.
  induction ms as [|m ms IH]; [by right |].
  destruct (List.find (declares (Str.trim (Str.slice 10 1 m))) good) eqn:Hf.
  - destruct IH as [(m' & Hin & Hm') | Hall].
    + left. exists m'. split; [by right | done].
    + right. intros m' [<- | Hin]; [by rewrite Hf | by apply Hall].
  - left. exists m. split; [by left | done].
Qed.

(** The workflow pass over entries with string names followed by one whose
    name is truthy and no string. *)
Lemma workflow_pass_malformed good key variable rest ms st :
  names_are_strings good -> declared_name variable = None ->
  ((exists m, In m ms /\
              List.find (declares (Str.trim (Str.slice 10 1 m))) good = None) ->
   for_of (workflowStep (good ++ (key, variable) :: rest)%list) ms st
   = Throw (TypeError NotAFunction)) /\
  ((forall m, In m ms ->
              List.find (declares (Str.trim (Str.slice 10 1 m))) good <> None) ->
   exists st', for_of (workflowStep (good ++ (key, variable) :: rest)%list) ms st
               = Normal st').
Proof.
  intros Hgood Hbad. revert st. induction ms as [|m ms IH]; intros [c b].
  - split; [by intros (m & [] & _) | by eexists].
  - cbn [for_of].
    destruct (List.find (declares (Str.trim (Str.slice 10 1 m))) good)
      as [[key' found]|] eqn:Hf.
    + assert (exists st', workflowStep (good ++ (key, variable) :: rest)%list m (c, b)
                          = Normal st') as [st' ->].
      { unfold workflowStep.
        change (String.length "<variable.") with 10%nat.
        rewrite (find_entry_declared _ _ _ _ Hgood Hf). cbn. by eexists. }
      cbn. destruct (IH st') as [IH1 IH2]. split.
      * intros (m' & [<- | Hin] & Hm'); [congruence |]. apply IH1. by exists m'.
      * intros Hall. apply IH2. intros m' Hin. apply Hall. by right.
    + assert (workflowStep (good ++ (key, variable) :: rest)%list m (c, b)
              = Throw (TypeError NotAFunction)) as ->.
      { unfold workflowStep.
        change (String.length "<variable.") with 10%nat.
        by rewrite (find_entry_malformed _ good key variable rest Hgood). }
      split; [done |]. intros Hall. by destruct (Hall m (or_introl eq_refl)).
Qed.

End Namespaces.

(** X7: every name the resolver binds is a generated identifier: one of the
    prefixes [__variable_], [__var_] and [__tag_] followed by word
    characters only; so no name supplied by a request is bound as it is, and
    no binding takes the place of [console], [fetch] or any other global of
    the execution context, over which the bindings are spread. *)
Theorem bindings_are_generated_identifiers `{RT : Runtime}
    (code : string) (params envVars blockData blockNameMapping : JSRecord)
    (workflowVariables : list (string * WorkflowVariable.t))
    (resolvedCode : string) (contextVariables : JSRecord) (k : string) :
  resolveCodeVariables code params envVars blockData blockNameMapping workflowVariables
  = Normal (resolvedCode, contextVariables) ->
  is_Some (contextVariables !! k) ->
  generated_identifier k /\ ~ In k capabilityNames.
Proof.
  intros Hr Hk.
  destruct (resolveWorkflowVariables code workflowVariables ∅) as [[c1 vars]|e] eqn:H1;
    cycle 1.
  { unfold resolveCodeVariables in Hr. by rewrite H1 in Hr. }
  assert (bound_under "__variable_" vars) as Hvars.
  { apply (for_of_keys _ _ _ _ H1). apply bound_under_empty. }
  destruct (resolveEnvironmentVariables c1 params envVars ∅) as [c2 envs] eqn:H2.
  destruct (environment_over _ _ _ vars _ _ H2) as [H2' Henvs].
  destruct (resolveTagVariables c2 params blockData blockNameMapping ∅) as [c3 tags] eqn:H3.
  destruct (tag_over _ _ _ _ (envs ∪ vars) _ _ H3) as [H3' Htags].
  unfold resolveCodeVariables in Hr. rewrite H1 in Hr. cbn in Hr.
  rewrite H2', H3' in Hr. injection Hr as _ <-.
  assert (generated_identifier k) as Hgen.
  { apply lookup_union_is_Some in Hk as [Hk | Hk];
      [|apply lookup_union_is_Some in Hk as [Hk | Hk]].
    - destruct (Htags _ Hk) as (suffix & -> & Hw).
      exists "__tag_", suffix. cbn. auto.
    - destruct (Henvs _ Hk) as (suffix & -> & Hw).
      exists "__var_", suffix. cbn. auto.
    - destruct (Hvars _ Hk) as (suffix & -> & Hw).
      exists "__variable_", suffix. cbn. auto. }
  split; [done | by apply generated_not_capability].
Qed.

(** On a template reference to an environment variable named [console]. *)
Lemma bindings_are_generated_identifiers_witness :
  generated_identifier "__var_console" /\ ~ In "__var_console" capabilityNames.
Proof.
  refine (bindings_are_generated_identifiers (RT := Sample.runtime)
            "return {{console}}" ∅ (<["console" := JStr "x"]> ∅) ∅ ∅ []
            "return __var_console" (<["__var_console" := JStr "x"]> ∅)
            "__var_console" _ _).
  - reflexivity.
  - by eexists.
Defined.

(** X8: the three passes bind apart: the bindings of a resolution are the
    bindings of the workflow pass together with what the environment pass
    and the tag pass bind when each is run on its own from no bindings; the
    three sets of names lie under their own prefixes and are disjoint, so no
    pass overwrites a binding of another. *)
Theorem passes_bind_apart `{RT : Runtime}
    (code : string) (params envVars blockData blockNameMapping : JSRecord)
    (workflowVariables : list (string * WorkflowVariable.t))
    (c1 c2 c3 : string) (vars envs tags : JSRecord) :
  resolveWorkflowVariables code workflowVariables ∅ = Normal (c1, vars) ->
  resolveEnvironmentVariables c1 params envVars ∅ = (c2, envs) ->
  resolveTagVariables c2 params blockData blockNameMapping ∅ = (c3, tags) ->
  resolveCodeVariables code params envVars blockData blockNameMapping workflowVariables
  = Normal (c3, vars ∪ envs ∪ tags) /\
  bound_under "__variable_" vars /\ bound_under "__var_" envs /\
  bound_under "__tag_" tags /\
  vars ##ₘ envs /\ vars ##ₘ tags /\ envs ##ₘ tags.
Proof.
  intros H1 H2 H3.
  assert (bound_under "__variable_" vars) as Hvars.
  { apply (for_of_keys _ _ _ _ H1). apply bound_under_empty. }
  destruct (environment_over _ _ _ vars _ _ H2) as [H2' Henvs].
  destruct (tag_over _ _ _ _ (envs ∪ vars) _ _ H3) as [H3' Htags].
  pose proof (bound_apart _ _ _ _ variable_not_var Hvars Henvs) as Hve.
  pose proof (bound_apart _ _ _ _ variable_not_tag Hvars Htags) as Hvt.
  pose proof (bound_apart _ _ _ _ var_not_tag Henvs Htags) as Het.
  split; [|done].
  unfold resolveCodeVariables. rewrite H1. cbn. rewrite H2', H3'. do 2 f_equal.
  rewrite (map_union_comm vars envs) by done.
  apply map_union_comm. symmetry. by apply map_disjoint_union_l.
Qed.

(** On a code with one reference of each kind, all three named [ab]. *)
Lemma passes_bind_apart_witness :
  let wv := [("id", {| WorkflowVariable.name := JStr "ab";
                       WorkflowVariable.type := JStr "plain";
                       WorkflowVariable.value := JStr "v" |})] in
  let vars : JSRecord := <["__variable_ab" := JStr "v"]> ∅ in
  let envs : JSRecord := <["__var_ab" := JStr "e"]> ∅ in
  let tags : JSRecord := <["__tag_ab" := JStr "e"]> ∅ in
  resolveCodeVariables (RT := Sample.runtime) "<variable.ab> {{ab}} <ab>"
    ∅ (<["ab" := JStr "e"]> ∅) (<["ab" := JStr "e"]> ∅) ∅ wv
  = Normal ("__variable_ab __var_ab __tag_ab", vars ∪ envs ∪ tags) /\
  vars ##ₘ envs /\ vars ##ₘ tags /\ envs ##ₘ tags.
Proof.
  intros wv vars envs tags.
  pose proof (passes_bind_apart (RT := Sample.runtime) "<variable.ab> {{ab}} <ab>"
                ∅ (<["ab" := JStr "e"]> ∅) (<["ab" := JStr "e"]> ∅) ∅ wv
                "__variable_ab {{ab}} <ab>" "__variable_ab __var_ab <ab>"
                "__variable_ab __var_ab __tag_ab" vars envs tags
                eq_refl eq_refl eq_refl) as (H & _ & _ & _ & Hve & Hvt & Het).
  done.
Defined.

(** X9: when entries of [workflowVariables] whose names are strings or
    falsy are followed by an entry whose name is truthy and no string, the
    resolution throws the engine's [TypeError] exactly when the code holds
    some workflow reference, wherever it stands, that none of the entries
    before the malformed one declares, and it completes otherwise; when it
    throws, the request comes back as a failure envelope with the engine's
    message and no output, nothing having been compiled or run. The entries
    are objects, as everywhere in the embedding. *)
Theorem malformed_variable_name_fails `{RT : Runtime}
    (code : string) (params envVars blockData blockNameMapping : JSRecord)
    (good rest : list (string * WorkflowVariable.t)) (key : string)
    (variable : WorkflowVariable.t) :
  names_are_strings good ->
  declared_name variable = None ->
  let workflowVariables := (good ++ (key, variable) :: rest)%list in
  let met :=
    exists m, In m (Regex.match_all Regex.variable_ref code) /\
              first_named (Str.trim (Str.slice 10 1 m)) good = None in
  (met <->
   resolveCodeVariables code params envVars blockData blockNameMapping workflowVariables
   = Throw (TypeError NotAFunction)) /\
  (~ met ->
   exists resolvedCode contextVariables,
     resolveCodeVariables code params envVars blockData blockNameMapping
                          workflowVariables
     = Normal (resolvedCode, contextVariables)) /\
  (forall cfg input,
     Input.code input = code ->
     Input.workflowVariables input = Some workflowVariables ->
     met ->
     engine_message NotAFunction <> USE_HTTP_ROUTE ->
     executeFunction cfg input
     = ([ResolverInvoked],
        Returned (failure_envelope "" elapsed
                    (js_or (JStr (engine_message NotAFunction))
                           (JStr "Function execution failed"))))).
Proof.
  intros Hgood Hbad workflowVariables met. subst workflowVariables.
  assert (forall n, first_named n good = None <-> List.find (declares n) good = None)
    as Hnamed.
  { intros n. unfold first_named. by destruct (List.find _ good). }
  assert (forall params0 envVars0 blockData0 blockNameMapping0,
            met ->
            resolveCodeVariables code params0 envVars0 blockData0 blockNameMapping0
                                 (good ++ (key, variable) :: rest)%list
            = Throw (TypeError NotAFunction)) as Hthrows.
  { intros params0 envVars0 blockData0 blockNameMapping0 (m & Hin & Hm).
    unfold resolveCodeVariables, resolveWorkflowVariables.
    rewrite (proj1 (workflow_pass_malformed good key variable rest _ _ Hgood Hbad));
      [done |].
    exists m. split; [done |]. by apply Hnamed. }
  assert (~ met ->
          exists resolvedCode contextVariables,
            resolveCodeVariables code params envVars blockData blockNameMapping
                                 (good ++ (key, variable) :: rest)%list
            = Normal (resolvedCode, contextVariables)) as Hcompletes.
  { intros Hnot. unfold resolveCodeVariables, resolveWorkflowVariables.
    destruct (proj2 (workflow_pass_malformed good key variable rest
                       (Regex.match_all Regex.variable_ref code) (code, ∅)
                       Hgood Hbad)) as [[c1 b1] ->].
    - intros m Hin Hnone. apply Hnot. exists m. split; [done |]. by apply Hnamed.
    - cbn. destruct (resolveEnvironmentVariables _ _ _ _) as [c2 b2].
      destruct (resolveTagVariables _ _ _ _ _) as [c3 b3]. eauto. }
  split; [|split].
  - split; [apply Hthrows |]. intros Hthrown.
    destruct (undeclared_or_declared good (Regex.match_all Regex.variable_ref code))
      as [(m & Hin & Hm) | Hall].
    + exists m. split; [done |]. by apply Hnamed.
    + destruct Hcompletes as (resolvedCode & contextVariables & Hr); [|congruence].
      intros (m & Hin & Hm). apply (Hall m Hin). by apply Hnamed.
  - exact Hcompletes.
  - intros cfg input Hcode Hwv Hmet Hmsg.
    assert (resolve_request input = Throw (TypeError NotAFunction)) as Hr.
    { unfold resolve_request. rewrite Hcode, Hwv. by apply Hthrows. }
    pose proof (try_block_resolution_throws cfg _ _ Hr) as Ht.
    rewrite (surjective_pairing (executeFunction cfg input)), execute_events.
    rewrite (handler_envelopes cfg input (TypeError NotAFunction)
               (JStr (engine_message NotAFunction))); rewrite ?Ht; try done.
    congruence.
Qed.

(** On a variable [a] followed by a variable whose name is the number 7:
    the reference to [a] is resolved, the reference to [x] after it meets
    the malformed entry. *)
Lemma malformed_variable_name_fails_witness :
  let declared := {| WorkflowVariable.name := JStr "a";
                     WorkflowVariable.type := JStr "plain";
                     WorkflowVariable.value := JStr "v" |} in
  let variable := {| WorkflowVariable.name := JNum (num_of_nat 7);
                     WorkflowVariable.type := JStr "plain";
                     WorkflowVariable.value := JStr "v" |} in
  let input :=
    {| Input.code := "<variable.a> <variable.x>"; Input.params := None;
       Input.timeout := None; Input.language := None; Input.envVars := None;
       Input.blockData := None; Input.blockNameMapping := None;
       Input.workflowVariables := Some [("v1", declared); ("v2", variable)];
       Input.workflowId := None; Input.isCustomTool := None |} in
  executeFunction (RT := Sample.runtime) Sample.e2b_off input
  = ([ResolverInvoked],
     Sample.failure "(intermediate value).replace is not a function" "").
Proof.
  intros declared variable input.
  assert (names_are_strings [("v1", declared)]) as Hgood.
  { constructor; [by eexists | constructor]. }
  destruct (malformed_variable_name_fails (RT := Sample.runtime)
              "<variable.a> <variable.x>" ∅ ∅ ∅ ∅ [("v1", declared)] [] "v2" variable
              Hgood eq_refl) as (_ & _ & H).
  rewrite (H Sample.e2b_off input eq_refl eq_refl); [reflexivity | |].
  - exists "<variable.x>". split; [vm_compute; tauto | reflexivity].
  - intros Heq. cbv in Heq. discriminate Heq.
Defined.

(** ** The envelope and the trace of an invocation *)

Section Invocation.

Context `{RT : Runtime}.

Implicit Types (cfg : Config) (input : Input.t) (e : JSValue).

(** The three ways the [try] block ends. *)
Lemma try_block_shapes cfg input :
  (exists e,
     (resolve_request input = Throw e \/
      exists resolvedCode contextVariables,
        resolve_request input = Normal (resolvedCode, contextVariables) /\
        policy cfg input resolvedCode = Some e) /\
     try_block cfg input
     = {| events := [ResolverInvoked]; captured := ""; completion := Throw e |}) \/
  (exists e resolvedCode contextVariables,
     resolve_request input = Normal (resolvedCode, contextVariables) /\
     policy cfg input resolvedCode = None /\
     try_block cfg input
     = {| events := [ResolverInvoked; ContextCreated; ScriptCompiled];
          captured := ""; completion := Throw e |}) \/
  (exists resolvedCode contextVariables,
     resolve_request input = Normal (resolvedCode, contextVariables) /\
     policy cfg input resolvedCode = None /\
     try_block cfg input
     = {| events := [ResolverInvoked; ContextCreated; ScriptCompiled; ScriptRun];
          captured :=
            fold_left console
                      (calls (local_run cfg input resolvedCode contextVariables)) "";
          completion :=
            match settled (local_run cfg input resolvedCode contextVariables) with
            | Fulfilled result => Normal result
            | Rejected e => Throw e
            end |}).
Proof.
  destruct (resolve_request input) as [[resolvedCode contextVariables]|e] eqn:Hr.
  - destruct (policy cfg input resolvedCode) as [e|] eqn:Hp.
    + left. exists e. split; [right; eauto |]. by eapply try_block_policy_throws.
    + destruct (Script_new (fullScript resolvedCode)) as [e|] eqn:Hc.
      * right. left. exists e, resolvedCode, contextVariables.
        split; [done |]. split; [done |]. by eapply try_block_compile_throws.
      * right. right. exists resolvedCode, contextVariables.
        split; [done |]. split; [done |]. by eapply try_block_runs.
  - left. exists e. split; [by left |]. by apply try_block_resolution_throws.
Qed.

Lemma js_or_truthy a b : truthy b = true -> truthy (js_or a b) = true.
Proof. intros Hb. unfold js_or. by destruct (truthy a) eqn:Ha. Qed.

(** The checks let a request through exactly when Python and imports come
    with E2B and a custom tool. *)
Lemma policy_none_iff cfg input resolvedCode :
  policy cfg input resolvedCode = None <->
  (String.eqb (requested_language input) CodeLanguage.Python
   || hasImports_of input resolvedCode = true ->
   isTruthy (E2B_ENABLED cfg) = true /\
   default false (Input.isCustomTool input) = true).
Proof.
  unfold policy. cbv zeta.
  destruct (String.eqb (requested_language input) CodeLanguage.Python),
    (hasImports_of input resolvedCode), (isTruthy (E2B_ENABLED cfg)),
    (default false (Input.isCustomTool input)); cbn; split; try done;
    intros H; by destruct H.
Qed.

(** What reaches the caller as an exception. *)
Lemma threw_cases cfg input e :
  snd (executeFunction cfg input) = Threw e ->
  message_of e = Normal (JStr USE_HTTP_ROUTE) \/ e = TypeError ReadOfNullish.
Proof.
  unfold executeFunction. cbn [snd].
  destruct (completion (try_block cfg input)) as [result|thrown]; [done |].
  destruct (message_of thrown) as [message|fault] eqn:Hm.
  - destruct (is_str message USE_HTTP_ROUTE) eqn:Hs; [|done].
    intros [= <-]. left. rewrite Hm. f_equal.
    destruct message as [| | | |s| | | |]; try done.
    simpl in Hs. by apply String.eqb_eq in Hs as ->.
  - intros [= <-]. right. destruct thrown; try done; by injection Hm as <-.
Qed.

End Invocation.

(** X10: every envelope reports the time between the two readings of the
    clock; it is a success exactly when it carries no error, and then the
    script was compiled and run; a failure has the result [null] and an
    error that is truthy, so never an empty message; and the output is
    empty unless the script was run. *)
Theorem envelope_invariants `{RT : Runtime} (cfg : Config) (input : Input.t)
    (out : Output.t) :
  snd (executeFunction cfg input) = Returned out ->
  Output.executionTime (Output.output out) = elapsed /\
  (Output.success out = true <-> Output.error out = None) /\
  (Output.success out = true ->
   fst (executeFunction cfg input)
   = [ResolverInvoked; ContextCreated; ScriptCompiled; ScriptRun]) /\
  (Output.success out = false ->
   Output.result (Output.output out) = JNull /\
   exists error, Output.error out = Some error /\ truthy error = true) /\
  (~ In ScriptRun (fst (executeFunction cfg input)) ->
   Output.stdout (Output.output out) = "").
Proof.
  intros H. rewrite execute_events.
  assert (forall e stdout,
            completion (try_block cfg input) = Throw e ->
            captured (try_block cfg input) = stdout ->
            Output.executionTime (Output.output out) = elapsed /\
            Output.success out = false /\ Output.result (Output.output out) = JNull /\
            Output.stdout (Output.output out) = cleanStdout stdout /\
            exists error, Output.error out = Some error /\ truthy error = true)
    as Hfail.
  { intros e stdout Hc Hs. unfold executeFunction in H. cbn [snd] in H.
    rewrite Hc, Hs in H. destruct (message_of e) as [message|fault]; [|done].
    destruct (is_str message USE_HTTP_ROUTE); [done |]. injection H as <-. cbn.
    repeat split; try done. eexists. split; [done |]. by apply js_or_truthy. }
  destruct (try_block_shapes cfg input)
    as [(e & _ & Ht) | [(e & rc & cv & _ & _ & Ht) | (rc & cv & _ & _ & Ht)]].
  - destruct (Hfail e "") as (Htime & Hs & Hres & Hout & error & He & Htr);
      [by rewrite Ht | by rewrite Ht |].
    rewrite Hs, He, Hres, Hout. repeat split; try done. by exists error.
  - destruct (Hfail e "") as (Htime & Hs & Hres & Hout & error & He & Htr);
      [by rewrite Ht | by rewrite Ht |].
    rewrite Hs, He, Hres, Hout. repeat split; try done. by exists error.
  - rewrite Ht. cbn [events].
    destruct (settled (local_run cfg input rc cv)) as [result|e] eqn:Hsettled.
    + unfold executeFunction in H. cbn [snd] in H. rewrite Ht in H.
      cbn [completion captured] in H. injection H as <-. cbn.
      repeat split; try done. intros Hn. destruct Hn. cbn. tauto.
    + destruct (Hfail e (fold_left console (calls (local_run cfg input rc cv)) ""))
        as (Htime & Hs & Hres & Hout & error & He & Htr);
        [by rewrite Ht | by rewrite Ht |].
      rewrite Hs, He, Hres. repeat split; try done.
      * by exists error.
      * intros Hn. destruct Hn. cbn. tauto.
Qed.

(** On a script that logs and then throws. *)
Lemma envelope_invariants_witness :
  let input :=
    Sample.request "console.log('before'); throw new Error('boom');" None in
  Output.executionTime (Output.output
    {| Output.success := false;
       Output.output :=
         {| Output.result := JNull;
            Output.stdout := "before" +:+ LF +:+ "[ERROR] {}";
            Output.executionTime := 7 |};
       Output.error := Some (JStr "boom") |}) = elapsed (RT := Sample.runtime).
Proof.
  intros input.
  refine (proj1 (envelope_invariants (RT := Sample.runtime) Sample.e2b_off input _ _)).
  reflexivity.
Defined.

(** X11: an invocation sets to work the resolver alone, or the resolver, the
    context and the compiler, or these and the run, always in this order;
    and it goes beyond the resolver exactly when the resolution completes
    and either the request is no Python request and its resolved code has no
    import, or E2B is enabled and the request is a custom tool. *)
Theorem local_execution_decided `{RT : Runtime} (cfg : Config) (input : Input.t) :
  let trace := fst (executeFunction cfg input) in
  (trace = [ResolverInvoked] \/
   trace = [ResolverInvoked; ContextCreated; ScriptCompiled] \/
   trace = [ResolverInvoked; ContextCreated; ScriptCompiled; ScriptRun]) /\
  (executed_locally trace <->
   exists resolvedCode contextVariables,
     resolve_request input = Normal (resolvedCode, contextVariables) /\
     (String.eqb (requested_language input) CodeLanguage.Python
      || hasImports_of input resolvedCode = true ->
      isTruthy (E2B_ENABLED cfg) = true /\
      default false (Input.isCustomTool input) = true)).
Proof.
  intros trace. subst trace. rewrite execute_events.
  destruct (try_block_shapes cfg input)
    as [(e & Hwhy & Ht) | [(e & rc & cv & Hr & Hp & Ht) | (rc & cv & Hr & Hp & Ht)]];
    rewrite Ht; cbn [events].
  - split; [tauto |]. split.
    + intros [H | [H | H]]; cbn in H; destruct H as [H | []]; discriminate H.
    + intros (rc & cv & Hr & Hcond). apply policy_none_iff in Hcond.
      destruct Hwhy as [Hthrow | (rc' & cv' & Hr' & Hp)]; [congruence |].
      rewrite Hr in Hr'. injection Hr' as <- <-. congruence.
  - split; [tauto |]. split.
    + intros _. exists rc, cv. split; [done |]. by apply policy_none_iff.
    + intros _. left. cbn. tauto.
  - split; [tauto |]. split.
    + intros _. exists rc, cv. split; [done |]. by apply policy_none_iff.
    + intros _. left. cbn. tauto.
Qed.

(** On a Python request that is a custom tool, with E2B enabled: it is
    executed locally. *)
Lemma local_execution_decided_witness :
  let input :=
    {| Input.code := "print(1)"; Input.params := None; Input.timeout := None;
       Input.language := Some CodeLanguage.Python; Input.envVars := None;
       Input.blockData := None; Input.blockNameMapping := None;
       Input.workflowVariables := None; Input.workflowId := None;
       Input.isCustomTool := Some true |} in
  executed_locally (fst (executeFunction (RT := Sample.runtime) Sample.e2b_on input)).
Proof.
  intros input.
  apply (proj2 (local_execution_decided (RT := Sample.runtime) Sample.e2b_on input)).
  exists "print(1)", ∅. split; [reflexivity |]. intros _. split; reflexivity.
Defined.

(** X12: with E2B disabled the flag [isCustomTool] changes nothing: the
    invocation sets to work the same components and ends the same way
    whatever the flag is. *)
Theorem custom_tool_flag_needs_e2b `{RT : Runtime} (cfg : Config) (input : Input.t)
    (flag : option bool) :
  isTruthy (E2B_ENABLED cfg) = false ->
  executeFunction cfg (with_isCustomTool flag input) = executeFunction cfg input.
Proof.
  intros He.
  assert (try_block cfg (with_isCustomTool flag input) = try_block cfg input) as Ht.
  { unfold try_block, with_isCustomTool.
    cbn [Input.code Input.params Input.timeout Input.language Input.envVars
         Input.blockData Input.blockNameMapping Input.workflowVariables
         Input.isCustomTool].
    rewrite He. reflexivity. }
  unfold executeFunction. by rewrite Ht.
Qed.

(** On a request with an import, E2B being disabled. *)
Lemma custom_tool_flag_needs_e2b_witness :
  executeFunction (RT := Sample.runtime) Sample.e2b_off
    (with_isCustomTool (Some true) (Sample.request "import fs from 'fs';" None))
  = executeFunction (RT := Sample.runtime) Sample.e2b_off
      (Sample.request "import fs from 'fs';" None).
Proof.
  apply (custom_tool_flag_needs_e2b (RT := Sample.runtime)). reflexivity.
Defined.

(** X13: a language that is not one of the valid ones is not refused: the
    request is treated in every respect as if it had given no language, so
    as a JavaScript request. *)
Theorem unknown_language_runs_as_default `{RT : Runtime} (cfg : Config)
    (input : Input.t) (language : string) :
  isValidCodeLanguage language = false ->
  executeFunction cfg (with_language (Some language) input)
  = executeFunction cfg (with_language None input).
Proof.
  intros Hl.
  assert (try_block cfg (with_language (Some language) input)
          = try_block cfg (with_language None input)) as Ht.
  { unfold try_block, with_language.
    cbn [Input.code Input.params Input.timeout Input.language Input.envVars
         Input.blockData Input.blockNameMapping Input.workflowVariables
         Input.isCustomTool].
    change (default DEFAULT_CODE_LANGUAGE (Some language)) with language.
    rewrite Hl. reflexivity. }
  unfold executeFunction. by rewrite Ht.
Qed.

(** On the language [Python], capitalised. *)
Lemma unknown_language_runs_as_default_witness :
  executeFunction (RT := Sample.runtime) Sample.e2b_off
    (with_language (Some "Python") (Sample.request "return 1+1;" None))
  = executeFunction (RT := Sample.runtime) Sample.e2b_off
      (with_language None (Sample.request "return 1+1;" None)).
Proof.
  apply (unknown_language_runs_as_default (RT := Sample.runtime)). reflexivity.
Defined.

(** ** The tool's direct execution *)

Section DirectExecution.

Context `{RT : Runtime}.

Lemma skip_is_not_the_signal :
  message_of (new_Error Tool.SKIP_DIRECT_EXECUTION) <> Normal (JStr USE_HTTP_ROUTE).
Proof. intros H. cbv in H. discriminate H. Qed.

Lemma is_str_true v lit : is_str v lit = true -> v = JStr lit.
Proof.
  destruct v as [| | | |s| | | |]; try done.
  simpl. intros H. by apply String.eqb_eq in H as ->.
Qed.

(** The request the tool builds declares the variables of the tool's
    parameters. *)
Lemma directInput_resolves cfg (p : Tool.params) :
  names_are_strings (default [] (Tool.workflowVariables p)) ->
  exists resolvedCode contextVariables,
    resolve_request (Tool.directInput cfg p) = Normal (resolvedCode, contextVariables).
Proof. intros Hwv. unfold resolve_request. by apply resolution_completes. Qed.

End DirectExecution.

(** X14: for the values of the embedding, which are plain data, so that
    the message the tool reads is the message [executeFunction] read, the
    delegation signal never leaves the tool: when the direct execution
    fails, the error is the one whose message is
    [__SKIP_DIRECT_EXECUTION__], which makes the tool fall back on the HTTP
    route, or else the engine's fault for reading the message of a thrown
    [null] or [undefined]; its message is not [__USE_HTTP_ROUTE__]. *)
Theorem direct_execution_keeps_the_signal `{RT : Runtime} (cfg : Config)
    (p : Tool.params) (e : JSValue) :
  Tool.directExecution cfg p = Tool.Failure e ->
  (e = new_Error Tool.SKIP_DIRECT_EXECUTION \/ e = TypeError ReadOfNullish) /\
  message_of e <> Normal (JStr USE_HTTP_ROUTE).
Proof.
  unfold Tool.directExecution.
  destruct (snd (executeFunction cfg (Tool.directInput cfg p))) as [out|thrown] eqn:Hx;
    [done |].
  destruct (threw_cases _ _ _ Hx) as [Hm | ->].
  - rewrite Hm. cbn [is_str]. rewrite String.eqb_refl. intros [= <-].
    split; [by left | apply skip_is_not_the_signal].
  - cbn [message_of TypeError get]. cbn [String.eqb Ascii.eqb Bool.eqb].
    destruct (is_str (JStr (engine_message ReadOfNullish)) USE_HTTP_ROUTE) eqn:Hs;
      intros [= <-].
    + split; [by left | apply skip_is_not_the_signal].
    + split; [by right |]. cbn [message_of TypeError get].
      cbn [String.eqb Ascii.eqb Bool.eqb]. intros [= Heq].
      cbn [is_str] in Hs. rewrite Heq, String.eqb_refl in Hs. discriminate Hs.
Qed.

(** On a Python request, E2B being enabled. *)
Lemma direct_execution_keeps_the_signal_witness :
  let p :=
    {| Tool.code := Tool.Text "print(1)"; Tool.language := Some "python";
       Tool.timeout := None; Tool.envVars := None; Tool.workflowVariables := None;
       Tool.blockData := None; Tool.blockNameMapping := None;
       Tool.context_workflowId := None; Tool.isCustomTool := None |} in
  message_of (RT := Sample.runtime) (new_Error Tool.SKIP_DIRECT_EXECUTION)
  <> Normal (JStr USE_HTTP_ROUTE).
Proof.
  intros p.
  refine (proj2 (direct_execution_keeps_the_signal (RT := Sample.runtime)
                   Sample.e2b_on p (new_Error Tool.SKIP_DIRECT_EXECUTION) _)).
  reflexivity.
Defined.



(** ** What counts as an import *)

(** X16: the import test holds exactly when the word [import] followed by a
    white space character stands at the very start of the code or right
    after a line terminator, so an indented import is not seen; the
    [require] test holds exactly when the code holds, anywhere, the word
    [require], an opening parenthesis and a quote character, with nothing
    but white space between them. *)
Theorem import_detection_characterised (code : string) :
  (test_import code = true <->
   (exists c post, code = "import" +:+ String c post /\ Str.is_space c = true) \/
   (exists pre t c post,
      code = pre +:+ String t ("import" +:+ String c post) /\
      Str.is_line_terminator t = true /\ Str.is_space c = true)) /\
  (test_require code = true <-> exists m, is_require_call m /\ occurs_in m code).
Proof.
  split; [|apply test_require_spec].
  unfold test_import. rewrite test_import_from_spec. split.
  - intros [[_ H] | H]; [by left | by right].
  - intros [H | H]; [by left | by right].
Qed.

(** On an import in the second line, and on a call of [require] with spaces
    around the parenthesis. *)
Lemma import_detection_characterised_witness :
  test_import ("const a = 1" +:+ LF +:+ "import x from 'y'") = true /\
  test_require "const fs = require ( 'fs' )" = true.
Proof.
  split.
  - apply (proj1 (import_detection_characterised
                    ("const a = 1" +:+ LF +:+ "import x from 'y'"))).
    right. exists "const a = 1", (ascii_of_nat 10), " "%char, "x from 'y'".
    split; [reflexivity | split; reflexivity].
  - apply (proj2 (import_detection_characterised "const fs = require ( 'fs' )")).
    exists "require ( '". split.
    + exists " ", " ", "'"%char. split; [reflexivity | split; [|split]; reflexivity].
    + exists "const fs = ", "fs' )". reflexivity.
Defined.

(** ** When the resolution fails *)

Section ResolverFaults.

Context `{RT : Runtime}.

Implicit Types (wv : list (string * WorkflowVariable.t)) (e : JSValue).

Lemma find_entry_throws n wv e :
  find_entry n wv = Throw e -> e = TypeError NotAFunction.
Proof.
  induction wv as [|entry wv IH]; [done |]. cbn [find_entry].
  unfold nameMatches at 1. destruct (js_or _ _); cbn; try (by intros [= <-]).
  destruct (String.eqb _ n); [done | exact IH].
Qed.

Lemma for_of_throws wv ms st e :
  for_of (workflowStep wv) ms st = Throw e -> e = TypeError NotAFunction.
Proof.
  revert st. induction ms as [|m ms IH]; intros [c b]; [done |]. cbn [for_of].
  destruct (workflowStep wv m (c, b)) as [st'|e'] eqn:Hs; cbn.
  - apply IH.
  - intros [= <-]. unfold workflowStep in Hs.
    destruct (find_entry _ wv) as [[[key variable]|]|e''] eqn:Hf; cbn in Hs;
      try discriminate Hs.
    injection Hs as <-. by eapply find_entry_throws.
Qed.

End ResolverFaults.


